(** * Entanglement witnesses and circuit stepper of [quantumsimulation.py]

    A shallow embedding of the witness functions
    [detect_entanglement_bipartite] and [detect_entanglement_tripartite], of
    the stepper [SteppingSimInterface.step] and of the three scenarios
    [SimpleEntanglement], [QuantumTeleportation] and [DeutschJozsa].

    Python floats and [numpy.complex128] are idealised as exact reals and
    pairs of reals; the simulator of [cirq] is modelled by its documented
    contract (unitary action on the state vector, projective measurement,
    partial trace). *)

From Stdlib Require Import Reals Lra Lia ZArith List Ascii String Psatz.
From stdpp Require Import base gmap sets list strings.

(* ===================================================================== *)
(** * Part I: definitions *)
(* ===================================================================== *)

(** ** Python runtime: exceptions and the values kept in the entangled set *)

Module Py.

Inductive exn : Set :=
| ValueError
| IndexError
| KeyError
| AttributeError
| StopIteration.

(** A computation either raises or returns. *)
Definition M (A : Type) : Type := (exn + A)%type.

Definition ret {A} (a : A) : M A := inr a.
Definition raise {A} (e : exn) : M A := inl e.
Definition bind {A B} (m : M A) (k : A -> M B) : M B :=
  match m with
  | inl e => inl e
  | inr a => k a
  end.

Definition raises {A} (m : M A) : Prop := exists e, m = inl e.

(** [l[i]] for a non-negative literal index. *)
Definition getitem {A} (l : list A) (i : nat) : M A :=
  match l !! i with
  | Some a => ret a
  | None => raise IndexError
  end.

(** [l[-1]]. *)
Definition getlast {A} (l : list A) : M A :=
  match last l with
  | Some a => ret a
  | None => raise IndexError
  end.

(** [next(it)] on a generator, modelled as the list of the items it
    still has to yield. *)
Definition next {A} (it : list A) : M (A * list A) :=
  match it with
  | [] => raise StopIteration
  | a :: rest => ret (a, rest)
  end.

(** The objects that end up in [currently_entangled]: named qubits and,
    through [SimpleEntanglement.detect_entanglement], the empty tuple. *)
Inductive value : Set :=
| NamedQubit (name : string)
| EmptyTuple.

#[global] Instance value_eq_dec : EqDecision value.
Proof. solve_decision. Defined.

#[global] Instance value_countable : Countable value.
Proof.
  refine (inj_countable'
            (fun v => match v with NamedQubit n => Some n | EmptyTuple => None end)
            (fun o => match o with Some n => NamedQubit n | None => EmptyTuple end) _).
  intros []; reflexivity.
Defined.

Definition is_qubit (v : value) : bool :=
  match v with NamedQubit _ => true | EmptyTuple => false end.

(** [mapM]: run a fallible function over a list, left to right. *)
Fixpoint mapM {A B} (f : A -> M B) (l : list A) : M (list B) :=
  match l with
  | [] => ret []
  | a :: l' =>
      match f a with
      | inl e => inl e
      | inr b =>
          match mapM f l' with
          | inl e => inl e
          | inr bs => ret (b :: bs)
          end
      end
  end.

End Py.

Notation "'let*' x := m 'in' k" := (Py.bind m (fun x => k))
  (at level 10, x pattern, m at level 100, k at level 200,
   format "'let*'  x  :=  m  'in' '//' k").

Local Open Scope R_scope.

(** ** Real and complex scalars *)

Module Num.

(** Float equality [a == b]. *)
Definition Reqb (a b : R) : bool := if Req_dec_T a b then true else false.
Definition Rleb (a b : R) : bool := if Rle_dec a b then true else false.

(** Round half to even, the rounding of [numpy.rint] and of [round]. *)
Definition rint (x : R) : Z :=
  let f := Int_part x in
  let d := x - IZR f in
  if Rlt_dec d (1/2) then f
  else if Rlt_dec (1/2) d then (f + 1)%Z
  else if Z.even f then f else (f + 1)%Z.

(** [round(x, ndigits)] *)
Definition round (x : R) (ndigits : nat) : R :=
  IZR (rint (x * 10 ^ ndigits)) / 10 ^ ndigits.

(** [math.isclose(a, b)] with the default [rel_tol=1e-09], [abs_tol=0.0]. *)
Definition isclose (a b : R) : bool :=
  Rleb (Rabs (a - b)) (Rmax (/ 10 ^ 9 * Rmax (Rabs a) (Rabs b)) 0).

(** [math.sqrt(x)]: raises [ValueError] on a negative argument. *)
Definition sqrt (x : R) : Py.M R :=
  if Rlt_dec x 0 then Py.raise Py.ValueError else Py.ret (R_sqrt.sqrt x).

(** Complex scalars ([numpy.complex128]) as real and imaginary part. *)
Definition C : Type := (R * R)%type.

Definition RtoC (x : R) : C := (x, 0).
Definition Cre (z : C) : R := fst z.
Definition Cim (z : C) : R := snd z.
Definition Cplus (a b : C) : C := (fst a + fst b, snd a + snd b).
Definition Copp (a : C) : C := (- fst a, - snd a).
Definition Cminus (a b : C) : C := (fst a - fst b, snd a - snd b).
Definition Cmult (a b : C) : C :=
  (fst a * fst b - snd a * snd b, fst a * snd b + snd a * fst b).
Definition Cconj (a : C) : C := (fst a, - snd a).
(** [abs(z)] *)
Definition Cabs (a : C) : R := R_sqrt.sqrt (fst a * fst a + snd a * snd a).
(** [z ** 2] *)
Definition Csqr (a : C) : C := Cmult a a.
(** [numpy.exp(1j * theta)] *)
Definition Cexp_i (theta : R) : C := (cos theta, sin theta).
(** [float(z)] on a numpy complex scalar keeps the real part. *)
Definition float (z : C) : R := fst z.

Definition Csum (l : list C) : C := fold_right Cplus (RtoC 0) l.
Definition Rsum (l : list R) : R := fold_right Rplus 0 l.

End Num.

Declare Scope C_scope.
Delimit Scope C_scope with C.
Infix "+" := Num.Cplus : C_scope.
Infix "-" := Num.Cminus : C_scope.
Infix "*" := Num.Cmult : C_scope.
Notation "- x" := (Num.Copp x) : C_scope.
Arguments Num.Cplus (a b)%_C.
Arguments Num.Cminus (a b)%_C.
Arguments Num.Cmult (a b)%_C.
Arguments Num.Copp a%_C.
Arguments Num.Cconj a%_C.
Arguments Num.Cabs a%_C.
Arguments Num.Csqr a%_C.
Arguments Num.Cre z%_C.
Arguments Num.Cim z%_C.

(** ** numpy arrays as lists *)

Module NumPy.
Import Num.

Definition vector : Type := list C.
Definition matrix : Type := list (list C).

(** [numpy.around(a, decimals)] elementwise on a real array. *)
Definition around (a : list R) (decimals : nat) : list R :=
  map (fun x => Num.round x decimals) a.

(** [numpy.count_nonzero(mask)] *)
Definition count_nonzero (mask : list bool) : Z :=
  Z.of_nat (length (filter (fun b => b = true) mask)).

(** [numpy.size(a)] *)
Local Definition size {A} (a : list A) : Z := Z.of_nat (length a).

(** [a == x] elementwise. *)
Definition eq_scalar (a : list R) (x : R) : list bool :=
  map (fun y => Reqb y x) a.

(** [(a == b).all()] on two real arrays of one shape. *)
Definition all_eq (a b : list R) : bool :=
  forallb (fun p => Reqb (fst p) (snd p)) (combine a b).

Definition entry (m : matrix) (i j : nat) : C :=
  nth j (nth i m []) (RtoC 0).
Arguments entry m (i j)%_nat.

Definition ncols (m : matrix) : nat := length (nth 0 m []).

(** [a @ b] *)
Definition matmul (a b : matrix) : matrix :=
  map (fun row =>
         map (fun j =>
                Csum (map (fun k => (nth k row (RtoC 0) * entry b k j)%C)
                          (seq 0 (length row))))
             (seq 0 (ncols b)))
      a.

(** [numpy.trace(m)] *)
Definition trace (m : matrix) : C :=
  Csum (map (fun i => entry m i i) (seq 0 (length m))).

(** [numpy.kron(a, b)] *)
Definition kron (a b : matrix) : matrix :=
  flat_map (fun rowa =>
              map (fun rowb =>
                     flat_map (fun x => map (fun y => (x * y)%C) rowb) rowa)
                  b)
           a.

(** [v.reshape((2, 2, 2))]: defined on arrays of eight elements only. *)
Definition reshape222 (v : vector) : Py.M (list (list (list C))) :=
  match v with
  | [c000; c001; c010; c011; c100; c101; c110; c111] =>
      Py.ret [[[c000; c001]; [c010; c011]]; [[c100; c101]; [c110; c111]]]
  | _ => Py.raise Py.ValueError
  end.

(** [t[i][j][k]] on a reshaped tensor. *)
Definition at3 (t : list (list (list C))) (i j k : nat) : C :=
  nth k (nth j (nth i t []) []) (RtoC 0).
Arguments at3 t (i j k)%_nat.

End NumPy.

(** ** The simulator contract of cirq

    Only what [quantumsimulation.py] consumes: circuits of one operation per
    moment, the moment-by-moment simulation of a pure state, and the
    observables of a step result. *)

Module Cirq.
Import Num NumPy.

Definition Qid : Type := Py.value.

Definition qubit_name (q : Qid) : string :=
  match q with Py.NamedQubit n => n | Py.EmptyTuple => EmptyString end.

(** *** Basis labels, big-endian over the axes of the state vector *)

Fixpoint all_bits (n : nat) : list (list bool) :=
  match n with
  | O => [[]]
  | S n' => map (cons false) (all_bits n') ++ map (cons true) (all_bits n')
  end.

Definition index_of (bs : list bool) : nat :=
  fold_left (fun a (b : bool) => (2 * a + (if b then 1 else 0))%nat) bs O.

Definition amplitude (sv : vector) (bs : list bool) : C :=
  nth (index_of bs) sv (RtoC 0).

Definition sub_bits (bs : list bool) (axes : list nat) : list bool :=
  map (fun k => nth k bs false) axes.

Fixpoint set_bits (bs : list bool) (axes : list nat) (vals : list bool)
  : list bool :=
  match axes, vals with
  | k :: axes', v :: vals' => set_bits (<[k := v]> bs) axes' vals'
  | _, _ => bs
  end.

Definition bits_eqb (a b : list bool) : bool := bool_decide (a = b).

(** *** Operations and circuits *)

Inductive operation : Type :=
| GateOperation (unitary : matrix) (qubits : list Qid)
| MeasurementOperation (qubit : Qid) (key : string).

Definition op_qubits (op : operation) : list Qid :=
  match op with
  | GateOperation _ qs => qs
  | MeasurementOperation q _ => [q]
  end.

Definition half : C := RtoC (R_sqrt.sqrt (1 / 2)).

(** [cirq.H] *)
Definition H_unitary : matrix :=
  [[half; half]; [half; (- half)%C]].
(** [cirq.X ** t]: [P+ + exp(i pi t) P-] *)
Definition XPow_unitary (t : R) : matrix :=
  let e := Cexp_i (PI * t) in
  let p := ((RtoC (1 / 2)) * (RtoC 1 + e))%C in
  let m := ((RtoC (1 / 2)) * (RtoC 1 - e))%C in
  [[p; m]; [m; p]].
(** [cirq.Z ** t] *)
Definition ZPow_unitary (t : R) : matrix :=
  [[RtoC 1; RtoC 0]; [RtoC 0; Cexp_i (PI * t)]].
(** [cirq.Z] *)
Definition Z_unitary : matrix :=
  [[RtoC 1; RtoC 0]; [RtoC 0; RtoC (-1)]].
(** [cirq.CNOT] *)
Definition CNOT_unitary : matrix :=
  [[RtoC 1; RtoC 0; RtoC 0; RtoC 0];
   [RtoC 0; RtoC 1; RtoC 0; RtoC 0];
   [RtoC 0; RtoC 0; RtoC 0; RtoC 1];
   [RtoC 0; RtoC 0; RtoC 1; RtoC 0]].
(** [cirq.CZ] *)
Definition CZ_unitary : matrix :=
  [[RtoC 1; RtoC 0; RtoC 0; RtoC 0];
   [RtoC 0; RtoC 1; RtoC 0; RtoC 0];
   [RtoC 0; RtoC 0; RtoC 1; RtoC 0];
   [RtoC 0; RtoC 0; RtoC 0; RtoC (-1)]].

(** [cirq.X] *)
Definition X_unitary : matrix :=
  [[RtoC 0; RtoC 1]; [RtoC 1; RtoC 0]].

Definition H_gate (q : Qid) : operation := GateOperation H_unitary [q].
Definition X_gate (q : Qid) : operation := GateOperation X_unitary [q].
Definition Z_gate (q : Qid) : operation := GateOperation Z_unitary [q].
Definition CNOT (c t : Qid) : operation := GateOperation CNOT_unitary [c; t].
Definition CZ (c t : Qid) : operation := GateOperation CZ_unitary [c; t].
(** [(X ** t)(q)] *)
Definition XPow (t : R) (q : Qid) : operation :=
  GateOperation (XPow_unitary t) [q].
(** [(T ** t)(q)], with [T = Z ** 0.25] *)
Definition TPow (t : R) (q : Qid) : operation :=
  GateOperation (ZPow_unitary (1 / 4 * t)) [q].
(** [cirq.measure(q)]: the key defaults to the name of the qubit. *)
Definition measure (q : Qid) : operation :=
  MeasurementOperation q (qubit_name q).

Definition Moment : Type := list operation.

(** [Circuit(ops, strategy=InsertStrategy.NEW)]: one moment per operation. *)
Definition Circuit_NEW (ops : list operation) : list Moment :=
  map (fun op => [op]) ops.

(** [sorted(circuit.all_qubits())]: duplicates removed, ordered by name.
    Names are compared character by character.  cirq compares a run of
    digits by its value; the two orders agree on the names of the three
    scenarios, none of which holds a run of more than one digit. *)
Fixpoint insert_sorted (q : Qid) (l : list Qid) : list Qid :=
  match l with
  | [] => [q]
  | p :: l' =>
      if bool_decide (q = p) then l
      else if String.ltb (qubit_name q) (qubit_name p) then q :: l
      else p :: insert_sorted q l'
  end.

Definition all_qubits_sorted (c : list Moment) : list Qid :=
  fold_right insert_sorted [] (flat_map op_qubits (concat c)).

(** *** Step results *)

Record SparseSimulatorStep : Type := {
  qubit_order : list Qid;
  state_vector : vector;
  measurements : gmap string (list Z)
}.

Fixpoint position (q : Qid) (l : list Qid) : Py.M nat :=
  match l with
  | [] => Py.raise Py.KeyError
  | p :: l' =>
      if bool_decide (q = p) then Py.ret O
      else match position q l' with
           | inl e => inl e
           | inr k => Py.ret (S k)
           end
  end.

Definition axes_of (order : list Qid) (qs : list Qid) : Py.M (list nat) :=
  Py.mapM (fun q => position q order) qs.

(** Partial trace of the projector on [sv], keeping [axes] in the order
    given: entry (r, c) sums [sv[x] * conj(sv[x with axes := c])] over the
    basis labels [x] whose kept bits are [r]. *)
Definition partial_trace (n : nat) (sv : vector) (axes : list nat) : matrix :=
  map (fun r =>
         map (fun c =>
                Csum (map (fun x =>
                             (amplitude sv x
                              * Cconj (amplitude sv (set_bits x axes c)))%C)
                          (filter (fun x => bits_eqb (sub_bits x axes) r = true)
                                  (all_bits n))))
             (all_bits (length axes)))
      (all_bits (length axes)).

(** An index occurs twice in the list. *)
Fixpoint has_duplicates (indices : list nat) : bool :=
  match indices with
  | [] => false
  | k :: indices' => existsb (Nat.eqb k) indices' || has_duplicates indices'
  end.

(** [result.density_matrix_of(qubits)]: the qubits are looked up in the
    qubit map, then the state is traced over the other axes; a qubit given
    twice is refused with [ValueError]. *)
Definition density_matrix_of (result : SparseSimulatorStep) (qs : list Qid)
  : Py.M matrix :=
  let* axes := axes_of (qubit_order result) qs in
  if has_duplicates axes then Py.raise Py.ValueError
  else Py.ret (partial_trace (length (qubit_order result)) (state_vector result) axes).

(** [result.bloch_vector_of(q)] *)
Definition bloch_vector_of (result : SparseSimulatorStep) (q : Qid)
  : Py.M (list R) :=
  let* rho := density_matrix_of result [q] in
  Py.ret [2 * Cre (entry rho 0 1);
          2 * Cim (entry rho 1 0);
          Cre (entry rho 0 0 - entry rho 1 1)%C].

(** *** Simulation *)

(** A unitary acting on the given axes of an [n]-qubit state vector. *)
Definition apply_unitary (n : nat) (u : matrix) (axes : list nat) (sv : vector)
  : vector :=
  map (fun x =>
         Csum (map (fun r =>
                      (entry u (index_of (sub_bits x axes)) (index_of r)
                       * amplitude sv (set_bits x axes r))%C)
                   (all_bits (length axes))))
      (all_bits n).

(** Probability of reading [b] on axis [k]. *)
Definition probability (n : nat) (k : nat) (b : bool) (sv : vector) : R :=
  Rsum (map (fun x =>
               let a := amplitude sv x in
               if Bool.eqb (nth k x false) b
               then fst a * fst a + snd a * snd a else 0)
            (all_bits n)).

(** State after reading [b] on axis [k]: projected and renormalised. *)
Definition collapse (n : nat) (k : nat) (b : bool) (sv : vector) : vector :=
  let p := probability n k b sv in
  map (fun x =>
         if Bool.eqb (nth k x false) b
         then (RtoC (/ R_sqrt.sqrt p) * amplitude sv x)%C
         else RtoC 0)
      (all_bits n).

Definition bit_value (b : bool) : Z := if b then 1%Z else 0%Z.

(** One operation acting on a step result.  A measurement reads the next
    sampled outcome and records it under its key; the record accumulates
    over the moments. *)
Definition act_on (op : operation) (samples : list bool)
           (s : SparseSimulatorStep)
  : Py.M (SparseSimulatorStep * list bool) :=
  let n := length (qubit_order s) in
  match op with
  | GateOperation u qs =>
      let* axes := axes_of (qubit_order s) qs in
      Py.ret ({| qubit_order := qubit_order s;
                 state_vector := apply_unitary n u axes (state_vector s);
                 measurements := measurements s |}, samples)
  | MeasurementOperation q key =>
      let* k := position q (qubit_order s) in
      let b := hd false samples in
      Py.ret ({| qubit_order := qubit_order s;
                 state_vector := collapse n k b (state_vector s);
                 measurements := <[key := [bit_value b]]> (measurements s) |},
              tl samples)
  end.

Fixpoint act_on_moment (m : Moment) (samples : list bool)
         (s : SparseSimulatorStep)
  : Py.M (SparseSimulatorStep * list bool) :=
  match m with
  | [] => Py.ret (s, samples)
  | op :: m' =>
      let* (s', samples') := act_on op samples s in
      act_on_moment m' samples' s'
  end.

Fixpoint simulate_from (c : list Moment) (samples : list bool)
         (s : SparseSimulatorStep)
  : Py.M (list SparseSimulatorStep) :=
  match c with
  | [] => Py.ret []
  | m :: c' =>
      let* (s', samples') := act_on_moment m samples s in
      let* rest := simulate_from c' samples' s' in
      Py.ret (s' :: rest)
  end.

(** The all-zeros computational basis state on [n] qubits. *)
Definition zero_state (n : nat) : vector :=
  map (fun x => if bits_eqb x (repeat false n) then RtoC 1 else RtoC 0)
      (all_bits n).

(** [Simulator(...).simulate_moment_steps(circuit)]: the step results, one
    per moment, for the given sampled measurement outcomes. *)
Definition simulate_moment_steps (c : list Moment) (samples : list bool)
  : Py.M (list SparseSimulatorStep) :=
  let order := all_qubits_sorted c in
  simulate_from c samples
                {| qubit_order := order;
                   state_vector := zero_state (length order);
                   measurements := ∅ |}.

(** The sampled outcomes a simulation can really produce: each one has a
    positive probability in the state it is read from. *)
Fixpoint possible_from (c : list operation) (samples : list bool)
         (s : SparseSimulatorStep) : Prop :=
  match c with
  | [] => True
  | op :: c' =>
      match op, act_on op samples s with
      | MeasurementOperation q _, inr (s', samples') =>
          match position q (qubit_order s) with
          | inr k =>
              0 < probability (length (qubit_order s)) k (hd false samples)
                              (state_vector s)
              /\ possible_from c' samples' s'
          | inl _ => True
          end
      | GateOperation _ _, inr (s', samples') => possible_from c' samples' s'
      | _, inl _ => True
      end
  end.

Definition possible (c : list Moment) (samples : list bool) : Prop :=
  let order := all_qubits_sorted c in
  possible_from (concat c) samples
                {| qubit_order := order;
                   state_vector := zero_state (length order);
                   measurements := ∅ |}.

End Cirq.

(** ** quantumsimulation.py *)

Import Num NumPy Cirq.

Section Witnesses.

(** [entdetector.schmidt_decomposition_for_vector_pure_state], an external
    package: it returns the Schmidt coefficients and the two local bases. *)
Variable schmidt_decomposition_for_vector_pure_state :
  vector -> nat * nat -> list R * matrix * matrix.

Definition detect_entanglement_bipartite (result : SparseSimulatorStep) : bool :=
  let '(coefficients, eg1, eg2) :=
    schmidt_decomposition_for_vector_pure_state (state_vector result) (2, 2)%nat in
  let rounded_coeffs := NumPy.around coefficients 6 in
  negb ((count_nonzero (eq_scalar rounded_coeffs 1) =? 1)%Z
        && (count_nonzero (eq_scalar rounded_coeffs 0) =? NumPy.size rounded_coeffs - 1)%Z).

End Witnesses.

(** The quartic [hdet] of the reshaped state, written as in the source:
    left-associated sums of the four squared products, the six products
    with factor 2 and the two with factor 4. *)
Definition hdet (cstate : list (list (list C))) : C :=
  let c000 := at3 cstate 0 0 0 in
  let c001 := at3 cstate 0 0 1 in
  let c010 := at3 cstate 0 1 0 in
  let c011 := at3 cstate 0 1 1 in
  let c100 := at3 cstate 1 0 0 in
  let c101 := at3 cstate 1 0 1 in
  let c110 := at3 cstate 1 1 0 in
  let c111 := at3 cstate 1 1 1 in
  let two := RtoC 2 in
  let four := RtoC 4 in
  (Csqr c000 * Csqr c111 + Csqr c001 * Csqr c110
   + Csqr c010 * Csqr c101 + Csqr c100 * Csqr c011
   - two * c000 * c001 * c110 * c111
   - two * c000 * c010 * c101 * c111
   - two * c000 * c011 * c100 * c111
   - two * c001 * c010 * c101 * c110
   - two * c001 * c011 * c110 * c100
   - two * c010 * c011 * c101 * c100
   + four * c000 * c011 * c101 * c110
   + four * c001 * c010 * c100 * c111)%C.

(** The five invariants [i1 .. i5] of the source. *)
Definition invariants (result : SparseSimulatorStep) (qubits : list Qid)
  : Py.M (R * R * R * R * R) :=
  let* q2 := Py.getitem qubits 2 in
  let* rhoC := density_matrix_of result [q2] in
  let* q0 := Py.getitem qubits 0 in
  let* q1 := Py.getitem qubits 1 in
  let* rhoAB := density_matrix_of result [q0; q1] in
  let* rhoA := density_matrix_of result [q0] in
  let* rhoB := density_matrix_of result [q1] in
  let i1 := float (trace (matmul rhoA rhoA)) in
  let i2 := float (trace (matmul rhoB rhoB)) in
  let i3 := float (trace (matmul rhoC rhoC)) in
  let tensorAB := kron rhoA rhoB in
  let i4 := float (trace (matmul tensorAB rhoAB)) in
  let* cstate := reshape222 (state_vector result) in
  let i5 := Cabs (hdet cstate) ^ 2 in
  Py.ret (i1, i2, i3, i4, i5).

(** The derived quantities [j1 .. j5]; every [sqrt(i5)] is a call of its own. *)
Definition derived (i : R * R * R * R * R) : Py.M (R * R * R * R * R) :=
  let '(i1, i2, i3, i4, i5) := i in
  let* s1 := Num.sqrt i5 in
  let j1 := (1 / 4) * (1 + i1 - i2 - i3 - 2 * s1) in
  let* s2 := Num.sqrt i5 in
  let j2 := (1 / 4) * (1 - i1 + i2 - i3 - 2 * s2) in
  let* s3 := Num.sqrt i5 in
  let j3 := (1 / 4) * (1 - i1 - i2 + i3 - 2 * s3) in
  let* j4 := Num.sqrt i5 in
  let* s5 := Num.sqrt i5 in
  let j5 := (1 / 4) * (3 - 3 * i1 - 3 * i2 - i3 + 4 * i4 - 2 * s5) in
  Py.ret (j1, j2, j3, j4, j5).

Definition rounded (j : R * R * R * R * R) : R * R * R * R * R :=
  let '(j1, j2, j3, j4, j5) := j in
  (Num.round j1 6, Num.round j2 6, Num.round j3 6, Num.round j4 6, Num.round j5 6).

Definition verdict : Type := (bool * string * option (list Qid))%type.

(** The five-way case split on the rounded quantities. *)
Definition classify (rj : R * R * R * R * R) (qubits : list Qid) : Py.M verdict :=
  let '(rj1, rj2, rj3, rj4, rj5) := rj in
  if isclose rj1 0 && isclose rj2 0 && isclose rj3 0 && isclose rj4 0 && isclose rj5 0
  then Py.ret (false, "fully_separable"%string, None)
  else if negb (isclose rj1 0) && isclose rj2 0 && isclose rj3 0 && isclose rj4 0
          && isclose rj5 0
  then let* q1 := Py.getitem qubits 1 in
       let* q2 := Py.getitem qubits 2 in
       Py.ret (true, "bipartite"%string, Some [q1; q2])
  else if isclose rj1 0 && negb (isclose rj2 0) && isclose rj3 0 && isclose rj4 0
          && isclose rj5 0
  then let* q0 := Py.getitem qubits 0 in
       let* q2 := Py.getitem qubits 2 in
       Py.ret (true, "bipartite"%string, Some [q0; q2])
  else if isclose rj1 0 && isclose rj2 0 && negb (isclose rj3 0) && isclose rj4 0
          && isclose rj5 0
  then let* q0 := Py.getitem qubits 0 in
       let* q1 := Py.getitem qubits 1 in
       Py.ret (true, "bipartite"%string, Some [q0; q1])
  else let* q0 := Py.getitem qubits 0 in
       let* q1 := Py.getitem qubits 1 in
       let* q2 := Py.getitem qubits 2 in
       Py.ret (true, "tripartite"%string, Some [q0; q1; q2]).

(** The rounded quantities [rj1 .. rj5] the case split looks at. *)
Definition rounded_quantities (result : SparseSimulatorStep) (qubits : list Qid)
  : Py.M (R * R * R * R * R) :=
  let* i := invariants result qubits in
  let* j := derived i in
  Py.ret (rounded j).

Definition detect_entanglement_tripartite
           (result : SparseSimulatorStep) (qubits : list Qid) : Py.M verdict :=
  let* rj := rounded_quantities result qubits in
  classify rj qubits.

(** [self.qubits]: the dictionary from role name to qubit, in insertion
    order. *)
Definition dict : Type := list (string * Qid).

(** [{n: NamedQubit(n) for n in names}]: a name given again keeps the
    place of its first entry. *)
Fixpoint make_qubits (names : list string) : dict :=
  match names with
  | [] => []
  | n :: names' =>
      (n, Py.NamedQubit n)
      :: List.filter (fun item => negb (String.eqb (fst item) n)) (make_qubits names')
  end.

Fixpoint dict_get (d : dict) (key : string) : Py.M Qid :=
  match d with
  | [] => Py.raise Py.KeyError
  | (k, v) :: d' => if String.eqb k key then Py.ret v else dict_get d' key
  end.

Definition dict_values (d : dict) : list Qid := map snd d.

(** *** class SteppingSimInterface *)

Module SteppingSimInterface.

(** The abstract methods a scenario supplies. *)
Record class : Type := {
  names : list string;
  circuit_definition : dict -> Py.M (list operation);
  description_sequence : list string;
  measurements : dict -> Py.M (list (option Py.value));
  detect_entanglement :
    dict -> SparseSimulatorStep -> Py.M (option (list Py.value));
  check_results :
    list (list (list R)) -> option SparseSimulatorStep -> Py.M bool
}.

(** The instance attributes.  The three generators are kept as the lists
    of the items they still have to yield. *)
Record object : Type := {
  cls : class;
  qubits : dict;
  circuit : list Moment;
  bloch_states : list (list (list R));
  _sim_iter : list SparseSimulatorStep;
  _desc : list string;
  _measurements : list (option Py.value);
  currently_entangled : gset Py.value
}.

Definition set_sim_iter (self : object) (it : list SparseSimulatorStep) :=
  {| cls := cls self; qubits := qubits self; circuit := circuit self;
     bloch_states := bloch_states self; _sim_iter := it;
     _desc := _desc self; _measurements := _measurements self;
     currently_entangled := currently_entangled self |}.

Definition set_bloch_states (self : object) (b : list (list (list R))) :=
  {| cls := cls self; qubits := qubits self; circuit := circuit self;
     bloch_states := b; _sim_iter := _sim_iter self;
     _desc := _desc self; _measurements := _measurements self;
     currently_entangled := currently_entangled self |}.

Definition set_measurements (self : object) (ms : list (option Py.value)) :=
  {| cls := cls self; qubits := qubits self; circuit := circuit self;
     bloch_states := bloch_states self; _sim_iter := _sim_iter self;
     _desc := _desc self; _measurements := ms;
     currently_entangled := currently_entangled self |}.

Definition set_desc (self : object) (ds : list string) :=
  {| cls := cls self; qubits := qubits self; circuit := circuit self;
     bloch_states := bloch_states self; _sim_iter := _sim_iter self;
     _desc := ds; _measurements := _measurements self;
     currently_entangled := currently_entangled self |}.

Definition set_currently_entangled (self : object) (ce : gset Py.value) :=
  {| cls := cls self; qubits := qubits self; circuit := circuit self;
     bloch_states := bloch_states self; _sim_iter := _sim_iter self;
     _desc := _desc self; _measurements := _measurements self;
     currently_entangled := ce |}.

(** [__init__]: [samples] are the outcomes the simulator will sample. *)
Definition init (c : class) (samples : list bool) : Py.M object :=
  let qubits := make_qubits (names c) in
  let* ops := circuit_definition c qubits in
  let circuit := Circuit_NEW ops in
  let* sim_iter := simulate_moment_steps circuit samples in
  let* ms := measurements c qubits in
  Py.ret {| cls := c; qubits := qubits; circuit := circuit;
            bloch_states := [];
            _sim_iter := sim_iter;
            _desc := description_sequence c;
            _measurements := ms;
            currently_entangled := ∅ |}.

(** [for qid in entangled: self.currently_entangled.add(qid)] *)
Definition add_all (ce : gset Py.value) (entangled : option (list Py.value))
  : gset Py.value :=
  match entangled with
  | Some qids => fold_left (fun s qid => s ∪ {[qid]}) qids ce
  | None => ce
  end.

(** The removal of the measured qubit and the clearing that follows it. *)
Definition remove_measured (ce : gset Py.value) (measured : option Py.value)
  : gset Py.value :=
  match measured with
  | Some m =>
      if bool_decide (m ∈ ce) then
        let ce' := ce ∖ {[m]} in
        if (size ce' <=? 1)%nat then ∅ else ce'
      else ce
  | None => ce
  end.

Definition bloch_vectors_of (self : object) (sim_step : SparseSimulatorStep)
  : Py.M (list (list R)) :=
  Py.mapM (fun q => let* v := bloch_vector_of sim_step q in
                    Py.ret (NumPy.around v 6))
          (dict_values (qubits self)).

(** One [next(self.step())]: the object after the call, and what the call
    yields or raises.  An exhausted generator surfaces as
    [StopIteration]; the attributes keep what was written before it. *)
Definition step (self : object)
  : object * Py.M (SparseSimulatorStep * string * gset Py.value) :=
  match Py.next (_sim_iter self) with
  | inl e => (self, inl e)
  | inr (sim_step, it) =>
      let self := set_sim_iter self it in
      match detect_entanglement (cls self) (qubits self) sim_step with
      | inl e => (self, inl e)
      | inr entangled =>
          match bloch_vectors_of self sim_step with
          | inl e => (self, inl e)
          | inr bloch_vectors =>
              let self :=
                set_bloch_states self (bloch_states self ++ [bloch_vectors]) in
              match Py.next (_measurements self) with
              | inl e => (self, inl e)
              | inr (measured, ms) =>
                  let self := set_measurements self ms in
                  let self :=
                    set_currently_entangled
                      self (add_all (currently_entangled self) entangled) in
                  let self :=
                    set_currently_entangled
                      self (remove_measured (currently_entangled self) measured) in
                  match Py.next (_desc self) with
                  | inl e => (self, inl e)
                  | inr (d, ds) =>
                      let self := set_desc self ds in
                      (self, Py.ret (sim_step, d, currently_entangled self))
                  end
              end
          end
      end
  end.

End SteppingSimInterface.

Import SteppingSimInterface.

(** *** class SimpleEntanglement *)

Module SimpleEntanglement.
Section WithSchmidt.

Variable schmidt_decomposition_for_vector_pure_state :
  vector -> nat * nat -> list R * matrix * matrix.

Definition circuit_definition (qubits : dict) : Py.M (list operation) :=
  let* alice := dict_get qubits "alice" in
  let* bob := dict_get qubits "bob" in
  Py.ret [H_gate alice; CNOT alice bob; Z_gate alice; Z_gate bob;
          measure alice; measure bob].

Definition description_sequence : list string :=
  ["Ustawienie kubitów w stan Bella";
   "Ustawienie kubitów w stan Bella";
   "Operacja na kubicie splątanym Alicji";
   "Operacja na kubicie splątanym Boba";
   "Pomiar kubitu Alicji";
   "Pomiar kubitu Boba"]%string.

Definition measurements (qubits : dict) : Py.M (list (option Py.value)) :=
  let* alice := dict_get qubits "alice" in
  let* bob := dict_get qubits "bob" in
  Py.ret [None; None; None; None; Some alice; Some bob].

(** [return a, b if cond else ()] builds the pair [(a, (b if cond else ()))]. *)
Definition detect_entanglement (qubits : dict)
           (simulation_step : SparseSimulatorStep)
  : Py.M (option (list Py.value)) :=
  let* first := dict_get qubits "alice" in
  let* second :=
    if detect_entanglement_bipartite
         schmidt_decomposition_for_vector_pure_state simulation_step
    then dict_get qubits "bob"
    else Py.ret Py.EmptyTuple in
  Py.ret (Some [first; second]).

Definition check_results (bloch_states : list (list (list R)))
           (final_step : option SparseSimulatorStep) : Py.M bool :=
  Py.ret true.

Definition class : SteppingSimInterface.class :=
  {| names := ["alice"; "bob"]%string;
     SteppingSimInterface.circuit_definition := circuit_definition;
     SteppingSimInterface.description_sequence := description_sequence;
     SteppingSimInterface.measurements := measurements;
     SteppingSimInterface.detect_entanglement := detect_entanglement;
     SteppingSimInterface.check_results := check_results |}.

End WithSchmidt.
End SimpleEntanglement.

(** *** class QuantumTeleportation *)

Module QuantumTeleportation.
Section WithSetup.

(** The constructor arguments. *)
Variable what_gate : string.
Variable phase : R.

Definition setup_gate : R -> Qid -> operation :=
  if String.eqb what_gate "X" then XPow else TPow.

Definition circuit_definition (qubits : dict) : Py.M (list operation) :=
  let init_gate := setup_gate phase in
  let* msg := dict_get qubits "msg" in
  let* alice := dict_get qubits "alice" in
  let* bob := dict_get qubits "bob" in
  Py.ret [init_gate msg;
          H_gate alice;
          CNOT alice bob;
          CNOT msg alice;
          H_gate msg;
          measure msg;
          measure alice;
          CNOT alice bob;
          CZ msg bob].

Definition description_sequence : list string :=
  ["Ustawianie wartości początkowej kubitów";
   "Inicjalizacja kubitów Alicji i Boba w stan Bella";
   "Inicjalizacja kubitów Alicji i Boba w stan Bella";
   "Wprowadzenie kubitu teleportowanego w stan superpozycji";
   "Wprowadzenie kubitu teleportowanego w stan superpozycji";
   "Pomiar kubitów Alicji i Boba";
   "Pomiar kubitów Alicji i Boba";
   "Aplikacja korekcji stanu";
   "Aplikacja korekcji stanu"]%string.

Definition measurements (qubits : dict) : Py.M (list (option Py.value)) :=
  let* msg := dict_get qubits "msg" in
  let* alice := dict_get qubits "alice" in
  Py.ret [None; None; None; None; None; Some msg; Some alice; None; None].

Definition detect_entanglement (qubits : dict)
           (simulation_step : SparseSimulatorStep)
  : Py.M (option (list Py.value)) :=
  let* (are_entangled, what_kind, what_entangled) :=
    detect_entanglement_tripartite simulation_step (dict_values qubits) in
  if are_entangled : bool then Py.ret what_entangled else Py.ret None.

(** [(self.bloch_states[0][0] == self.bloch_states[-1][2]).all()] *)
Definition check_results (bloch_states : list (list (list R)))
           (final_step : option SparseSimulatorStep) : Py.M bool :=
  let* first := Py.getitem bloch_states 0 in
  let* msg_vector := Py.getitem first 0 in
  let* final := Py.getlast bloch_states in
  let* bob_vector := Py.getitem final 2 in
  Py.ret (all_eq msg_vector bob_vector).

Definition class : SteppingSimInterface.class :=
  {| names := ["msg"; "alice"; "bob"]%string;
     SteppingSimInterface.circuit_definition := circuit_definition;
     SteppingSimInterface.description_sequence := description_sequence;
     SteppingSimInterface.measurements := measurements;
     SteppingSimInterface.detect_entanglement := detect_entanglement;
     SteppingSimInterface.check_results := check_results |}.

End WithSetup.
End QuantumTeleportation.

(** *** class DeutschJozsa *)

Module DeutschJozsa.
Section WithOracle.

(** The unitary wrapped by [DeutschJozsaOracle3Q]. *)
Variable oracle : matrix.

Definition circuit_definition (qubits : dict) : Py.M (list operation) :=
  let* q1 := dict_get qubits "q1" in
  let* q2 := dict_get qubits "q2" in
  let* control := dict_get qubits "control" in
  Py.ret [X_gate control;
          H_gate q1;
          H_gate q2;
          H_gate control;
          GateOperation oracle [q1; q2; control];
          H_gate q1;
          H_gate q2;
          H_gate control;
          measure q1;
          measure q2;
          measure control].

Definition description_sequence : list string :=
  ["Ustawienie kubitu kontrolnego w stan |1>";
   "Zadziałanie na wszystkie kubity bramką Hadamarda";
   "Zadziałanie na wszystkie kubity bramką Hadamarda";
   "Zadziałanie na wszystkie kubity bramką Hadamarda";
   "Działanie wyroczni";
   "Ponowne działanie bramkami Hadamarda";
   "Ponowne działanie bramkami Hadamarda";
   "Ponowne działanie bramkami Hadamarda";
   "Końcowy pomiar";
   "Końcowy pomiar";
   "Końcowy pomiar"]%string.

(** The moments without a measurement yield the empty tuple, not [None]. *)
Definition measurements (qubits : dict) : Py.M (list (option Py.value)) :=
  let* q1 := dict_get qubits "q1" in
  let* q2 := dict_get qubits "q2" in
  let* control := dict_get qubits "control" in
  Py.ret [Some Py.EmptyTuple; Some Py.EmptyTuple; Some Py.EmptyTuple;
          Some Py.EmptyTuple; Some Py.EmptyTuple; Some Py.EmptyTuple;
          Some Py.EmptyTuple; Some Py.EmptyTuple;
          Some q1; Some q2; Some control].

Definition detect_entanglement (qubits : dict)
           (simulation_step : SparseSimulatorStep)
  : Py.M (option (list Py.value)) :=
  let* (are_entangled, what_kind, what_entangled) :=
    detect_entanglement_tripartite simulation_step (dict_values qubits) in
  if are_entangled : bool then Py.ret what_entangled else Py.ret None.

(** [measurements[key][0]] *)
Definition measured_bit (ms : gmap string (list Z)) (key : string) : Py.M Z :=
  match ms !! key with
  | None => Py.raise Py.KeyError
  | Some bits => Py.getitem bits 0
  end.

(** [measurements["q1"][0] == 0 and measurements["q2"][0] == 0]: the
    second operand is evaluated only when the first holds. *)
Definition check_results (bloch_states : list (list (list R)))
           (final_step : option SparseSimulatorStep) : Py.M bool :=
  match final_step with
  | None => Py.raise Py.AttributeError
  | Some final =>
      let measurements := Cirq.measurements final in
      let* b1 := measured_bit measurements "q1" in
      if (b1 =? 0)%Z then
        let* b2 := measured_bit measurements "q2" in
        Py.ret (b2 =? 0)%Z
      else Py.ret false
  end.

Definition class : SteppingSimInterface.class :=
  {| names := ["q1"; "q2"; "control"]%string;
     SteppingSimInterface.circuit_definition := circuit_definition;
     SteppingSimInterface.description_sequence := description_sequence;
     SteppingSimInterface.measurements := measurements;
     SteppingSimInterface.detect_entanglement := detect_entanglement;
     SteppingSimInterface.check_results := check_results |}.

End WithOracle.
End DeutschJozsa.

(** ** simulationwindows.py: the driver of a scenario *)

Module BasicSimulationWindow.

Record window : Type := {
  sim : SteppingSimInterface.object;
  last_state : option SparseSimulatorStep
}.

(** What one press of the step button does. *)
Inductive outcome : Type :=
| Stepped (is_entangled : bool)
| Checked (success : bool)
| Raised (e : Py.exn).

(** The success or failure message after the final check, or what it
    raised. *)
Definition outcome_of_check (r : Py.M bool) : outcome :=
  match r with
  | inr success => Checked success
  | inl e => Raised e
  end.

Definition create (sim : SteppingSimInterface.object) : window :=
  {| sim := sim; last_state := None |}.

(** [execute_step]: a step is fetched and shown; on [StopIteration] the
    final check runs on the last state seen. *)
Definition execute_step (w : window) : window * outcome :=
  let (sim', r) := SteppingSimInterface.step (sim w) in
  match r with
  | inr (state, info_str, entangled) =>
      let is_entangled := (0 <? size entangled)%nat in
      ({| sim := sim'; last_state := Some state |}, Stepped is_entangled)
  | inl Py.StopIteration =>
      ({| sim := sim'; last_state := last_state w |},
       outcome_of_check
         (check_results (cls sim') (bloch_states sim') (last_state w)))
  | inl e => ({| sim := sim'; last_state := last_state w |}, Raised e)
  end.

(** The button pressed until something other than a step happens. *)
Fixpoint run (presses : nat) (w : window) : option (window * outcome) :=
  match presses with
  | O => None
  | S presses' =>
      match execute_step w with
      | (w', Stepped _) => run presses' w'
      | (w', o) => Some (w', o)
      end
  end.

End BasicSimulationWindow.

Module DeutschSequenceValidator.

Inductive State : Set := Invalid | Intermediate | Acceptable.

Definition in_alphabet (c : ascii) : bool :=
  let n := nat_of_ascii c in (49 <=? n)%nat && (n <=? 56)%nat.

(** [arg.count(x)] *)
Definition count (arg : list ascii) (x : ascii) : nat :=
  length (filter (fun c => c = x) arg).

Definition symbols : list ascii :=
  list_ascii_of_string "12345678".

(** Where the anchor [$] matches: nothing is left of the text, or one line
    feed. *)
Definition at_end (rest : list ascii) : bool :=
  match rest with
  | [] => true
  | [c] => Ascii.eqb c "010"
  | _ => false
  end.

(** [_regexp.match(arg).hasMatch()] for [^[1-8]{8}$]: eight symbols from
    the start of the text; [$] matches at the end of the text and before a
    line feed that ends it. *)
Definition _regexp (chars : list ascii) : bool :=
  forallb in_alphabet (take 8 chars) && (length (take 8 chars) =? 8)%nat
  && at_end (drop 8 chars).

(** [_partial_regexp.match(arg).hasMatch()] for [[1-8]*]: the pattern is
    not anchored and matches the empty prefix of any text. *)
Definition _partial_regexp (chars : list ascii) : bool := true.

Definition validate (arg : string) : State :=
  let chars := list_ascii_of_string arg in
  let has_repeats := existsb (fun x => (1 <? count chars x)%nat) symbols in
  if negb (_regexp chars) then
    if _partial_regexp chars then
      if has_repeats then Invalid else Intermediate
    else Invalid
  else if has_repeats then Invalid
  else Acceptable.

End DeutschSequenceValidator.

Module DeutschJozsaWindow.

(** [int(c)] for a text of one character: the value of a decimal digit,
    [ValueError] for any other character. *)
Definition int (c : ascii) : Py.M nat :=
  let n := nat_of_ascii c in
  if (48 <=? n)%nat && (n <=? 57)%nat then Py.ret (n - 48)%nat
  else Py.raise Py.ValueError.

(** [[1.0 if c == row_num else 0.0 for c in range(1, 9)]] for every
    [row_num]. *)
Definition rows (row_nums : list nat) : matrix :=
  map (fun row_num =>
         map (fun c => if (c =? row_num)%nat then RtoC 1 else RtoC 0)
             (seq 1 8))
      row_nums.

(** [[[1.0 if c == row_num else 0.0 for c in range(1, 9)]
      for row_num in map(int, oracle_def_str)]] *)
Definition array_def (oracle_def_str : string) : Py.M matrix :=
  let* row_nums := Py.mapM int (list_ascii_of_string oracle_def_str) in
  Py.ret (rows row_nums).

(** [create_simulator]: the scenario is built for an acceptable text only. *)
Definition create_simulator (text : string) (samples : list bool)
  : option (Py.M BasicSimulationWindow.window) :=
  match DeutschSequenceValidator.validate text with
  | DeutschSequenceValidator.Acceptable =>
      Some (let* oracle_matrix := array_def text in
            let* sim := SteppingSimInterface.init
                          (DeutschJozsa.class oracle_matrix) samples in
            Py.ret (BasicSimulationWindow.create sim))
  | _ => None
  end.

End DeutschJozsaWindow.


(** ** Predicates used to state the properties *)

(** One entry of the array is 1.0, every other entry is 0.0. *)
Definition one_hot (l : list R) : Prop :=
  exists l1 l2, l = l1 ++ 1 :: l2
                /\ Forall (fun y => y = 0) l1 /\ Forall (fun y => y = 0) l2.

(** The entangled set holds no member or at least two. *)
Definition never_single (ce : gset Py.value) : Prop :=
  size ce = 0%nat \/ (2 <= size ce)%nat.

(** The three scenarios of the program. *)
Inductive scenario : SteppingSimInterface.class -> Prop :=
| scenario_simple schmidt : scenario (SimpleEntanglement.class schmidt)
| scenario_teleportation what_gate phase :
    scenario (QuantumTeleportation.class what_gate phase)
| scenario_deutsch_jozsa oracle : scenario (DeutschJozsa.class oracle).

(** A freshly constructed stepper of class [c], whatever its simulator is
    going to yield. *)
Definition fresh (c : SteppingSimInterface.class)
           (self : SteppingSimInterface.object) : Prop :=
  cls self = c
  /\ qubits self = make_qubits (names c)
  /\ bloch_states self = []
  /\ currently_entangled self = ∅.

(** The states of a stepper of class [c]: a fresh one, and the state after
    each call of [step], whether it yields or raises. *)
Inductive reachable (c : SteppingSimInterface.class)
  : SteppingSimInterface.object -> Prop :=
| reachable_fresh self : fresh c self -> reachable c self
| reachable_step self :
    reachable c self -> reachable c (fst (SteppingSimInterface.step self)).

(** What a detector hands to the stepper in these scenarios: nothing, or a
    tuple with two distinct members. *)
Definition two_or_none (entangled : option (list Py.value)) : Prop :=
  match entangled with
  | None => True
  | Some qids => exists a b, a <> b /\ a ∈ qids /\ b ∈ qids
  end.

(** ** Sample inputs *)

(** A Schmidt routine that reports the coefficients of a product state. *)
Definition product_schmidt (v : vector) (shape : nat * nat)
  : list R * matrix * matrix := ([1; 0], [], []).

(** The two-qubit step result of the basis state |00>. *)
Definition zero_step2 : SparseSimulatorStep :=
  {| qubit_order := [Py.NamedQubit "alice"; Py.NamedQubit "bob"];
     state_vector := [RtoC 1; RtoC 0; RtoC 0; RtoC 0];
     Cirq.measurements := ∅ |}.

(** A SimpleEntanglement stepper about to see one step of its simulator. *)
Definition simple_one_step : SteppingSimInterface.object :=
  {| cls := SimpleEntanglement.class product_schmidt;
     qubits := make_qubits ["alice"; "bob"]%string;
     circuit := [];
     bloch_states := [];
     _sim_iter := [zero_step2];
     _desc := SimpleEntanglement.description_sequence;
     _measurements := [None];
     currently_entangled := ∅ |}.

(** The quartic of the specification, with the six products of factor 2
    and the two of factor 4 grouped. *)
Definition spec_h (a000 a001 a010 a011 a100 a101 a110 a111 : C) : C :=
  (Csqr a000 * Csqr a111 + Csqr a001 * Csqr a110
   + Csqr a010 * Csqr a101 + Csqr a100 * Csqr a011
   - RtoC 2 * (a000 * a001 * a110 * a111 + a000 * a010 * a101 * a111
               + a000 * a011 * a100 * a111 + a001 * a010 * a101 * a110
               + a001 * a011 * a110 * a100 + a010 * a011 * a101 * a100)
   + RtoC 4 * (a000 * a011 * a101 * a110 + a001 * a010 * a100 * a111))%C.

(** The derived quantities of the specification. *)
Definition spec_j (i1 i2 i3 i4 i5 : R) : R * R * R * R * R :=
  ((1 + i1 - i2 - i3 - 2 * R_sqrt.sqrt i5) / 4,
   (1 - i1 + i2 - i3 - 2 * R_sqrt.sqrt i5) / 4,
   (1 - i1 - i2 + i3 - 2 * R_sqrt.sqrt i5) / 4,
   R_sqrt.sqrt i5,
   (3 - 3 * i1 - 3 * i2 - i3 + 4 * i4 - 2 * R_sqrt.sqrt i5) / 4).

(** The purity [Tr(rho^2)] of a density matrix. *)
Definition purity (rho : matrix) : R := Cre (trace (matmul rho rho)).

(** A step result with the given axes and state vector, nothing measured. *)
Definition pure_step (order : list Qid) (v : vector) : SparseSimulatorStep :=
  {| qubit_order := order; state_vector := v; Cirq.measurements := ∅ |}.

(** A step result a scenario of class [c] can be handed: every qubit of the
    scenario has an axis and the state vector has one amplitude per basis
    label. *)
Definition valid_step (c : SteppingSimInterface.class)
           (result : SparseSimulatorStep) : Prop :=
  (forall q, q ∈ dict_values (make_qubits (names c)) -> q ∈ qubit_order result)
  /\ length (state_vector result) = (2 ^ length (names c))%nat.

(** The five verdicts of the tripartite witness on the qubits A, B, C. *)
Definition five_verdicts (A B C : Qid) : list verdict :=
  [(false, "fully_separable"%string, None);
   (true, "bipartite"%string, Some [B; C]);
   (true, "bipartite"%string, Some [A; C]);
   (true, "bipartite"%string, Some [A; B]);
   (true, "tripartite"%string, Some [A; B; C])].

(** A single-qubit state: the amplitudes of |0> and |1>. *)
Definition ket : Type := (C * C)%type.

Definition ket_at (psi : ket) (b : bool) : C := if b then snd psi else fst psi.

Definition norm2 (psi : ket) : R :=
  let a := fst psi in
  let b := snd psi in
  fst a * fst a + snd a * snd a + (fst b * fst b + snd b * snd b).

(** The product state whose factors psiA, psiB, psiC sit on the axes kA, kB,
    kC of a three-qubit state vector. *)
Definition product_state (kA kB kC : nat) (psiA psiB psiC : ket) : vector :=
  map (fun x => (ket_at psiA (nth kA x false) * ket_at psiB (nth kB x false)
                 * ket_at psiC (nth kC x false))%C)
      (all_bits 3).

(** The product state |0> (x) |1> (x) i|1> on the axes msg, alice, bob. *)
Definition sample_product_step : SparseSimulatorStep :=
  pure_step [Py.NamedQubit "msg"; Py.NamedQubit "alice"; Py.NamedQubit "bob"]
            (product_state 0 1 2 (RtoC 1, RtoC 0) (RtoC 0, RtoC 1)
                           (RtoC 0, (0, 1))).

(** ** The states the teleportation circuit passes through

    Axes of the state vector: alice, bob, msg.  [al] and [be] are the
    amplitudes of the message qubit after the first gate, [m] and [a] the
    outcomes read on msg and alice. *)

Definition tele_0 (al be : C) : vector :=
  [al; be; RtoC 0; RtoC 0; RtoC 0; RtoC 0; RtoC 0; RtoC 0].

Definition tele_1 (al be : C) : vector :=
  [half * al; half * be; RtoC 0; RtoC 0;
   half * al; half * be; RtoC 0; RtoC 0]%C.

Definition tele_2 (al be : C) : vector :=
  [half * al; half * be; RtoC 0; RtoC 0;
   RtoC 0; RtoC 0; half * al; half * be]%C.

Definition tele_3 (al be : C) : vector :=
  [half * al; RtoC 0; RtoC 0; half * be;
   RtoC 0; half * be; half * al; RtoC 0]%C.

Definition tele_4 (al be : C) : vector :=
  [half * half * al; half * half * al; half * half * be; - (half * half * be);
   half * half * be; - (half * half * be); half * half * al; half * half * al]%C.

Definition tele_5 (al be : C) (m : bool) : vector :=
  if m
  then [RtoC 0; half * al; RtoC 0; - (half * be);
        RtoC 0; - (half * be); RtoC 0; half * al]%C
  else [half * al; RtoC 0; half * be; RtoC 0;
        half * be; RtoC 0; half * al; RtoC 0]%C.

Definition tele_6 (al be : C) (m a : bool) : vector :=
  match m, a with
  | false, false => [al; RtoC 0; be; RtoC 0; RtoC 0; RtoC 0; RtoC 0; RtoC 0]
  | false, true => [RtoC 0; RtoC 0; RtoC 0; RtoC 0; be; RtoC 0; al; RtoC 0]
  | true, false => [RtoC 0; al; RtoC 0; (- be)%C; RtoC 0; RtoC 0; RtoC 0; RtoC 0]
  | true, true => [RtoC 0; RtoC 0; RtoC 0; RtoC 0; RtoC 0; (- be)%C; RtoC 0; al]
  end.

Definition tele_7 (al be : C) (m a : bool) : vector :=
  match m, a with
  | false, false => [al; RtoC 0; be; RtoC 0; RtoC 0; RtoC 0; RtoC 0; RtoC 0]
  | false, true => [RtoC 0; RtoC 0; RtoC 0; RtoC 0; al; RtoC 0; be; RtoC 0]
  | true, false => [RtoC 0; al; RtoC 0; (- be)%C; RtoC 0; RtoC 0; RtoC 0; RtoC 0]
  | true, true => [RtoC 0; RtoC 0; RtoC 0; RtoC 0; RtoC 0; al; RtoC 0; (- be)%C]
  end.

Definition tele_8 (al be : C) (m a : bool) : vector :=
  match m, a with
  | false, false => [al; RtoC 0; be; RtoC 0; RtoC 0; RtoC 0; RtoC 0; RtoC 0]
  | false, true => [RtoC 0; RtoC 0; RtoC 0; RtoC 0; al; RtoC 0; be; RtoC 0]
  | true, false => [RtoC 0; al; RtoC 0; be; RtoC 0; RtoC 0; RtoC 0; RtoC 0]
  | true, true => [RtoC 0; RtoC 0; RtoC 0; RtoC 0; RtoC 0; al; RtoC 0; be]
  end.

(** The Bloch vector of the qubit on axis [k] of a step result. *)
Definition bloch_at (s : SparseSimulatorStep) (k : nat) : list R :=
  let rho := partial_trace (length (qubit_order s)) (state_vector s) [k] in
  [2 * Cre (entry rho 0 1);
   2 * Cim (entry rho 1 0);
   Cre (entry rho 0 0 - entry rho 1 1)%C].

(** The amplitudes of the message qubit after the first gate of the
    teleportation circuit. *)
Definition message_unitary (what_gate : string) (phase : R) : matrix :=
  if String.eqb what_gate "X" then XPow_unitary phase
  else ZPow_unitary (1 / 4 * phase).

Definition message_ket (what_gate : string) (phase : R) : ket :=
  (entry (message_unitary what_gate phase) 0 0,
   entry (message_unitary what_gate phase) 1 0).

(** The axes of the teleportation and of the Deutsch-Jozsa circuit. *)
Definition tele_order : list Qid :=
  [Py.NamedQubit "alice"; Py.NamedQubit "bob"; Py.NamedQubit "msg"].

(** The step results of the teleportation circuit for the outcomes [m] and
    [a] read on msg and alice. *)
Definition tele_steps (psi : ket) (m a : bool) : list SparseSimulatorStep :=
  let al := fst psi in
  let be := snd psi in
  let after_m : gmap string (list Z) := <["msg" := [bit_value m]]> ∅ in
  let after_a : gmap string (list Z) := <["alice" := [bit_value a]]> after_m in
  [ {| qubit_order := tele_order; state_vector := tele_0 al be;
       Cirq.measurements := ∅ |};
    {| qubit_order := tele_order; state_vector := tele_1 al be;
       Cirq.measurements := ∅ |};
    {| qubit_order := tele_order; state_vector := tele_2 al be;
       Cirq.measurements := ∅ |};
    {| qubit_order := tele_order; state_vector := tele_3 al be;
       Cirq.measurements := ∅ |};
    {| qubit_order := tele_order; state_vector := tele_4 al be;
       Cirq.measurements := ∅ |};
    {| qubit_order := tele_order; state_vector := tele_5 al be m;
       Cirq.measurements := after_m |};
    {| qubit_order := tele_order; state_vector := tele_6 al be m a;
       Cirq.measurements := after_a |};
    {| qubit_order := tele_order; state_vector := tele_7 al be m a;
       Cirq.measurements := after_a |};
    {| qubit_order := tele_order; state_vector := tele_8 al be m a;
       Cirq.measurements := after_a |} ].

(** ** The states the Deutsch-Jozsa circuit passes through

    Axes of the state vector: control, q1, q2.  [s00 .. s11] are the signs
    the oracle puts on the four inputs (q1, q2). *)

Definition dj_order : list Qid :=
  [Py.NamedQubit "control"; Py.NamedQubit "q1"; Py.NamedQubit "q2"].

Definition h2 : C := (half * half)%C.
Definition h3 : C := (half * half * half)%C.
Definition h4 : C := (half * half * half * half)%C.
Definition h5 : C := (half * half * half * half * half)%C.
Definition h6 : C := (half * half * half * half * half * half)%C.

Definition dj_0 : vector :=
  [RtoC 0; RtoC 0; RtoC 0; RtoC 0; RtoC 1; RtoC 0; RtoC 0; RtoC 0].

Definition dj_1 : vector :=
  [RtoC 0; RtoC 0; RtoC 0; RtoC 0; half; RtoC 0; half; RtoC 0].

Definition dj_2 : vector :=
  [RtoC 0; RtoC 0; RtoC 0; RtoC 0; h2; h2; h2; h2].

Definition dj_3 : vector :=
  [h3; h3; h3; h3; (- h3)%C; (- h3)%C; (- h3)%C; (- h3)%C].

Definition dj_4 (s00 s01 s10 s11 : C) : vector :=
  [h3 * s00; h3 * s01; h3 * s10; h3 * s11;
   - (h3 * s00); - (h3 * s01); - (h3 * s10); - (h3 * s11)]%C.

Definition dj_5 (s00 s01 s10 s11 : C) : vector :=
  [h4 * (s00 + s10); h4 * (s01 + s11); h4 * (s00 - s10); h4 * (s01 - s11);
   - (h4 * (s00 + s10)); - (h4 * (s01 + s11));
   - (h4 * (s00 - s10)); - (h4 * (s01 - s11))]%C.

Definition dj_6 (s00 s01 s10 s11 : C) : vector :=
  [h5 * (s00 + s10 + (s01 + s11)); h5 * (s00 + s10 - (s01 + s11));
   h5 * (s00 - s10 + (s01 - s11)); h5 * (s00 - s10 - (s01 - s11));
   - (h5 * (s00 + s10 + (s01 + s11))); - (h5 * (s00 + s10 - (s01 + s11)));
   - (h5 * (s00 - s10 + (s01 - s11))); - (h5 * (s00 - s10 - (s01 - s11)))]%C.

Definition dj_7 (s00 s01 s10 s11 : C) : vector :=
  [RtoC 0; RtoC 0; RtoC 0; RtoC 0;
   h6 * (RtoC 2 * (s00 + s10 + (s01 + s11)));
   h6 * (RtoC 2 * (s00 + s10 - (s01 + s11)));
   h6 * (RtoC 2 * (s00 - s10 + (s01 - s11)));
   h6 * (RtoC 2 * (s00 - s10 - (s01 - s11)))]%C.

(** The basis state with control = 1, q1 = y1, q2 = y2 and amplitude
    [sigma]. *)
Definition dj_final (y1 y2 : bool) (sigma : R) : vector :=
  match y1, y2 with
  | false, false =>
      [RtoC 0; RtoC 0; RtoC 0; RtoC 0; RtoC sigma; RtoC 0; RtoC 0; RtoC 0]
  | false, true =>
      [RtoC 0; RtoC 0; RtoC 0; RtoC 0; RtoC 0; RtoC sigma; RtoC 0; RtoC 0]
  | true, false =>
      [RtoC 0; RtoC 0; RtoC 0; RtoC 0; RtoC 0; RtoC 0; RtoC sigma; RtoC 0]
  | true, true =>
      [RtoC 0; RtoC 0; RtoC 0; RtoC 0; RtoC 0; RtoC 0; RtoC 0; RtoC sigma]
  end.

(** The sign an oracle puts on an input with function value [b]. *)
Definition sign (b : bool) : R := if b then -1 else 1.

(** The permutation text of the oracle |x, y> -> |x, y xor f(x)> of the
    boolean function with values [f00 f01 f10 f11] on the inputs (q1, q2):
    the two rows of an input are exchanged where the function is 1. *)
Definition oracle_text (f00 f01 f10 f11 : bool) : string :=
  ((if f00 then "21" else "12") ++ (if f01 then "43" else "34")
   ++ (if f10 then "65" else "56") ++ (if f11 then "87" else "78"))%string.

Definition is_constant (f00 f01 f10 f11 : bool) : bool :=
  Bool.eqb f00 f01 && Bool.eqb f00 f10 && Bool.eqb f00 f11.

Definition count_true (l : list bool) : nat :=
  length (filter (fun b => b = true) l).

Definition is_balanced (f00 f01 f10 f11 : bool) : bool :=
  (count_true [f00; f01; f10; f11] =? 2)%nat.

(** The step results of the Deutsch-Jozsa circuit when the outcomes read
    on q1, q2 and control are [y1], [y2] and 1. *)
Definition dj_steps (s00 s01 s10 s11 : C) (y1 y2 : bool) (sigma : R)
  : list SparseSimulatorStep :=
  let after_q1 : gmap string (list Z) := <["q1" := [bit_value y1]]> ∅ in
  let after_q2 : gmap string (list Z) := <["q2" := [bit_value y2]]> after_q1 in
  let after_c : gmap string (list Z) := <["control" := [1%Z]]> after_q2 in
  let st v ms := {| qubit_order := dj_order; state_vector := v;
                    Cirq.measurements := ms |} in
  [st dj_0 ∅; st dj_1 ∅; st dj_2 ∅; st dj_3 ∅;
   st (dj_4 s00 s01 s10 s11) ∅; st (dj_5 s00 s01 s10 s11) ∅;
   st (dj_6 s00 s01 s10 s11) ∅; st (dj_7 s00 s01 s10 s11) ∅;
   st (dj_final y1 y2 sigma) after_q1; st (dj_final y1 y2 sigma) after_q2;
   st (dj_final y1 y2 sigma) after_c].

(** The operations of the Deutsch-Jozsa circuit for a given oracle. *)
Definition dj_ops (oracle : matrix) : list operation :=
  [X_gate (Py.NamedQubit "control");
   H_gate (Py.NamedQubit "q1"); H_gate (Py.NamedQubit "q2");
   H_gate (Py.NamedQubit "control");
   GateOperation oracle [Py.NamedQubit "q1"; Py.NamedQubit "q2";
                         Py.NamedQubit "control"];
   H_gate (Py.NamedQubit "q1"); H_gate (Py.NamedQubit "q2");
   H_gate (Py.NamedQubit "control");
   measure (Py.NamedQubit "q1"); measure (Py.NamedQubit "q2");
   measure (Py.NamedQubit "control")].

(** The oracle matrix built from the values of a boolean function. *)
Definition oracle_of (f00 f01 f10 f11 : bool) : matrix :=
  match DeutschJozsaWindow.array_def (oracle_text f00 f01 f10 f11) with
  | inr oracle_matrix => oracle_matrix
  | inl _ => []
  end.

(** ** The states the SimpleEntanglement circuit passes through

    Axes of the state vector: alice, bob. *)

Definition simple_order : list Qid :=
  [Py.NamedQubit "alice"; Py.NamedQubit "bob"].

Definition simple_0 : vector := [half; RtoC 0; half; RtoC 0].
Definition simple_1 : vector := [half; RtoC 0; RtoC 0; half].
Definition simple_2 : vector := [half; RtoC 0; RtoC 0; (- half)%C].
Definition simple_3 : vector := [half; RtoC 0; RtoC 0; half].
Definition simple_4 (b : bool) : vector :=
  if b then [RtoC 0; RtoC 0; RtoC 0; RtoC 1]
  else [RtoC 1; RtoC 0; RtoC 0; RtoC 0].

(** The step results of the SimpleEntanglement circuit; the last state is
    whatever the measurement of bob leaves. *)
Definition simple_steps (samples : list bool) : list SparseSimulatorStep :=
  let b1 := hd false samples in
  let b2 := hd false (tl samples) in
  let after_a : gmap string (list Z) := <["alice" := [bit_value b1]]> ∅ in
  let st v ms := {| qubit_order := simple_order; state_vector := v;
                    Cirq.measurements := ms |} in
  [st simple_0 ∅; st simple_1 ∅; st simple_2 ∅; st simple_3 ∅;
   st (simple_4 b1) after_a;
   st (collapse 2 1 b2 (simple_4 b1)) (<["bob" := [bit_value b2]]> after_a)].

(** The Schmidt coefficients of a two-qubit state vector: the singular
    values of its 2 x 2 amplitude matrix, the larger one first. *)
Definition svd_schmidt (v : vector) (shape : nat * nat)
  : list R * matrix * matrix :=
  let a := nth 0 v (RtoC 0) in
  let b := nth 1 v (RtoC 0) in
  let c := nth 2 v (RtoC 0) in
  let d := nth 3 v (RtoC 0) in
  let t := Cabs a ^ 2 + Cabs b ^ 2 + Cabs c ^ 2 + Cabs d ^ 2 in
  let det := Cabs (a * d - b * c)%C ^ 2 in
  let gap := R_sqrt.sqrt (t ^ 2 - 4 * det) in
  ([R_sqrt.sqrt ((t + gap) / 2); R_sqrt.sqrt ((t - gap) / 2)], [], []).

(** [n] calls of [next(self.step())]. *)
Definition after_steps (n : nat) (self : SteppingSimInterface.object)
  : SteppingSimInterface.object :=
  Nat.iter n (fun s => fst (SteppingSimInterface.step s)) self.

(** The qubits among the members of the entangled set. *)
Definition actual_qubits (ce : gset Py.value) : gset Py.value :=
  filter (fun v => Py.is_qubit v = true) ce.

(** What one step of the SimpleEntanglement scenario does to the entangled
    set, given the verdict of the bipartite witness on the step and the
    entry of the measurement schedule. *)
Definition simple_update (ce : gset Py.value) (verdict : bool)
           (measured : option Py.value) : gset Py.value :=
  remove_measured
    (add_all ce (Some [Py.NamedQubit "alice";
                       if verdict then Py.NamedQubit "bob" else Py.EmptyTuple]))
    measured.

(** The GHZ state and the state with A, B in a Bell pair and C in |0>, on
    the axes A, B, C. *)
Definition ghz_step : SparseSimulatorStep :=
  pure_step [Py.NamedQubit "A"; Py.NamedQubit "B"; Py.NamedQubit "C"]
            [half; RtoC 0; RtoC 0; RtoC 0; RtoC 0; RtoC 0; RtoC 0; half].

Definition bell_ab_step : SparseSimulatorStep :=
  pure_step [Py.NamedQubit "A"; Py.NamedQubit "B"; Py.NamedQubit "C"]
            [half; RtoC 0; RtoC 0; RtoC 0; RtoC 0; RtoC 0; half; RtoC 0].



(** ** Further predicates *)

(** A text without a line feed, as a line edit holds it.  The anchor [$]
    of [_regexp] also matches before a final line feed; on single-line
    texts it matches at the end only. *)
Definition single_line (text : string) : Prop :=
  "010"%char ∉ list_ascii_of_string text.

(** The conjugate transpose of a matrix with [n] columns, and the identity
    matrix of size [n]. *)
Definition adjoint (n : nat) (m : matrix) : matrix :=
  map (fun j => map (fun row => Cconj (nth j row (RtoC 0))) m) (seq 0 n).

Definition identity (n : nat) : matrix :=
  map (fun i => map (fun j => if (j =? i)%nat then RtoC 1 else RtoC 0) (seq 0 n))
      (seq 0 n).

(** The rounding tolerance at 6 decimal places: half a unit of the last
    place. *)
Definition tolerance : R := 1 / 2000000.

(** A recorded vector agrees with an ideal one within one unit of the
    sixth decimal place, component by component. *)
Definition recorded_near (ideal recorded : list R) : Prop :=
  Forall2 (fun x r => Rabs (r - x) <= 1 / 1000000) ideal recorded.

(** The scenarios that use the tripartite witness. *)
Inductive tripartite_scenario : SteppingSimInterface.class -> Prop :=
| tripartite_teleportation what_gate phase :
    tripartite_scenario (QuantumTeleportation.class what_gate phase)
| tripartite_deutsch_jozsa oracle :
    tripartite_scenario (DeutschJozsa.class oracle).

(** The scenarios whose circuit can be simulated: a gate on three qubits
    has an 8 x 8 unitary matrix, so the oracle of a Deutsch-Jozsa scenario
    is one; the other two scenarios take any parameters. *)
Inductive simulable : SteppingSimInterface.class -> Prop :=
| simulable_simple schmidt : simulable (SimpleEntanglement.class schmidt)
| simulable_teleportation what_gate phase :
    simulable (QuantumTeleportation.class what_gate phase)
| simulable_deutsch_jozsa oracle :
    length oracle = 8%nat ->
    Forall (fun row => length row = 8%nat) oracle ->
    matmul oracle (adjoint 8 oracle) = identity 8 ->
    simulable (DeutschJozsa.class oracle).

(** A QuantumTeleportation stepper about to see one step of its
    simulator. *)
Definition tele_one_step : SteppingSimInterface.object :=
  {| cls := QuantumTeleportation.class "X" 0;
     qubits := make_qubits ["msg"; "alice"; "bob"]%string;
     circuit := [];
     bloch_states := [];
     _sim_iter := [sample_product_step];
     _desc := QuantumTeleportation.description_sequence;
     _measurements := [None];
     currently_entangled := ∅ |}.

(** ** customwidgets.py *)

Module BlochFigure.

(** What the canvas shows after [update_plot]: for an entangled qubit the
    word "Splątany" and no arrow, otherwise the Bloch vector rounded to 3
    decimal places, in the title and as the arrow. *)
Inductive plot : Type :=
| Entangled
| Arrow (filtered_bloch : list R).

Definition update_plot (bloch_vector : list R) (is_entangled : bool) : plot :=
  let filtered_bloch := NumPy.around bloch_vector 3 in
  if is_entangled then Entangled else Arrow filtered_bloch.

End BlochFigure.

(** ** simulationwindows.py: the windows with their widgets

    [BasicSimulationWindow.execute_step] above keeps the stepper and the
    outcome of a press.  Here the slot is modelled with the widgets it
    writes and with the exception that can leave it; [Base] is the class
    [BasicSimulationWindow], [Simple], [Teleportation] and [Deutsch] are
    its three subclasses. *)

Module Windows.

(** A line of the log: a plain text, or the line
    [f"WYKRYTO SPLĄTANIE! Splątanie pomiędzy: {[e.name for e in entangled]}"]
    with the names it lists. *)
Inductive line : Type :=
| Text (s : string)
| EntanglementFound (names : list string).

Module Base.

(** The attributes of a window and the widgets of its form.  [update_ui]
    is the abstract method of the subclass; it returns what the Bloch
    figures show. *)
Record window : Type := {
  update_ui :
    option SteppingSimInterface.object -> SparseSimulatorStep ->
    gset Py.value -> Py.M (list BlochFigure.plot);
  success_message : string;
  failure_message : string;
  sim : option SteppingSimInterface.object;
  last_state : option SparseSimulatorStep;
  listWidget : list line;
  stateVectorLabel : option vector;
  bloch_space : list BlochFigure.plot;
  step_button : bool;
  setup_button : bool
}.

Definition set_sim (w : window) (s : option SteppingSimInterface.object) :=
  {| update_ui := update_ui w; success_message := success_message w;
     failure_message := failure_message w; sim := s;
     last_state := last_state w; listWidget := listWidget w;
     stateVectorLabel := stateVectorLabel w; bloch_space := bloch_space w;
     step_button := step_button w; setup_button := setup_button w |}.

Definition set_last_state (w : window) (s : option SparseSimulatorStep) :=
  {| update_ui := update_ui w; success_message := success_message w;
     failure_message := failure_message w; sim := sim w;
     last_state := s; listWidget := listWidget w;
     stateVectorLabel := stateVectorLabel w; bloch_space := bloch_space w;
     step_button := step_button w; setup_button := setup_button w |}.

Definition set_listWidget (w : window) (l : list line) :=
  {| update_ui := update_ui w; success_message := success_message w;
     failure_message := failure_message w; sim := sim w;
     last_state := last_state w; listWidget := l;
     stateVectorLabel := stateVectorLabel w; bloch_space := bloch_space w;
     step_button := step_button w; setup_button := setup_button w |}.

Definition set_stateVectorLabel (w : window) (v : option vector) :=
  {| update_ui := update_ui w; success_message := success_message w;
     failure_message := failure_message w; sim := sim w;
     last_state := last_state w; listWidget := listWidget w;
     stateVectorLabel := v; bloch_space := bloch_space w;
     step_button := step_button w; setup_button := setup_button w |}.

Definition set_bloch_space (w : window) (p : list BlochFigure.plot) :=
  {| update_ui := update_ui w; success_message := success_message w;
     failure_message := failure_message w; sim := sim w;
     last_state := last_state w; listWidget := listWidget w;
     stateVectorLabel := stateVectorLabel w; bloch_space := p;
     step_button := step_button w; setup_button := setup_button w |}.

(** [step_button.setEnabled(b)] and [setup_button.setEnabled(b)] *)
Definition set_step_button (w : window) (b : bool) :=
  {| update_ui := update_ui w; success_message := success_message w;
     failure_message := failure_message w; sim := sim w;
     last_state := last_state w; listWidget := listWidget w;
     stateVectorLabel := stateVectorLabel w; bloch_space := bloch_space w;
     step_button := b; setup_button := setup_button w |}.

Definition set_setup_button (w : window) (b : bool) :=
  {| update_ui := update_ui w; success_message := success_message w;
     failure_message := failure_message w; sim := sim w;
     last_state := last_state w; listWidget := listWidget w;
     stateVectorLabel := stateVectorLabel w; bloch_space := bloch_space w;
     step_button := step_button w; setup_button := b |}.

Definition add_line_to_log (w : window) (l : line) : window :=
  set_listWidget w (listWidget w ++ [l]).

(** [next(self.sim.step())] and the flag [len(entangled) > 0]. *)
Definition fetch_simulation_step (w : window)
  : window * Py.M (SparseSimulatorStep * string * gset Py.value * bool) :=
  match sim w with
  | None => (w, Py.raise Py.AttributeError)
  | Some s =>
      let (s', r) := SteppingSimInterface.step s in
      (set_sim w (Some s'),
       let* (state, info_str, entangled) := r in
       let is_entangled := (0 <? size entangled)%nat in
       Py.ret (state, info_str, entangled, is_entangled))
  end.

(** [e.name]: a qubit has a name, the empty tuple has no such attribute. *)
Definition name (e : Py.value) : Py.M string :=
  match e with
  | Py.NamedQubit n => Py.ret n
  | Py.EmptyTuple => Py.raise Py.AttributeError
  end.

(** [self.sim.check_results(self.last_state)] *)
Definition final_check (w : window) : Py.M bool :=
  match sim w with
  | None => Py.raise Py.AttributeError
  | Some s =>
      SteppingSimInterface.check_results
        (SteppingSimInterface.cls s) (SteppingSimInterface.bloch_states s)
        (last_state w)
  end.

(** The slot [execute_step]: the window after the press, and the exception
    that leaves the slot, if any.  Only [StopIteration] is caught.  The
    members of the set are visited in the order of [elements]; the order
    in which Python visits them is not specified. *)
Definition execute_step (w : window) : window * option Py.exn :=
  let (w, r) := fetch_simulation_step w in
  match r with
  | inr (state, info_str, entangled, is_entangled) =>
      let w := set_last_state w (Some state) in
      let w := add_line_to_log w (Text info_str) in
      let w := set_stateVectorLabel w (Some (state_vector state)) in
      match update_ui w (sim w) state entangled with
      | inl e => (w, Some e)
      | inr plots =>
          let w := set_bloch_space w plots in
          if is_entangled : bool then
            match Py.mapM name (elements entangled) with
            | inl e => (w, Some e)
            | inr names => (add_line_to_log w (EntanglementFound names), None)
            end
          else (w, None)
      end
  | inl Py.StopIteration =>
      let w := set_step_button w false in
      match final_check w with
      | inl e => (w, Some e)
      | inr true => (add_line_to_log w (Text (success_message w)), None)
      | inr false => (add_line_to_log w (Text (failure_message w)), None)
      end
  | inl e => (w, Some e)
  end.

(** One figure of [update_ui]:
    [figure.update_plot(sim_state.bloch_vector_of(self.sim.qubits[key]),
                        self.sim.qubits[key] in entangled_list)] *)
Definition plot_qubit (sim : option SteppingSimInterface.object)
           (sim_state : SparseSimulatorStep) (entangled_list : gset Py.value)
           (key : string) : Py.M BlochFigure.plot :=
  match sim with
  | None => Py.raise Py.AttributeError
  | Some s =>
      let* q := dict_get (SteppingSimInterface.qubits s) key in
      let* bloch_vector := bloch_vector_of sim_state q in
      let* q' := dict_get (SteppingSimInterface.qubits s) key in
      Py.ret (BlochFigure.update_plot bloch_vector (bool_decide (q' ∈ entangled_list)))
  end.

(** [__init__]: no simulator, no state, an empty log; the form decides
    which buttons are enabled. *)
Definition __init__
           (update_ui : option SteppingSimInterface.object -> SparseSimulatorStep ->
                        gset Py.value -> Py.M (list BlochFigure.plot))
           (success_message failure_message : string)
           (step_enabled setup_enabled : bool) : window :=
  {| update_ui := update_ui; success_message := success_message;
     failure_message := failure_message; sim := None; last_state := None;
     listWidget := []; stateVectorLabel := None; bloch_space := [];
     step_button := step_enabled; setup_button := setup_enabled |}.

(** What [create_simulator] does once the scenario object is built. *)
Definition install (w : window) (s : Py.M SteppingSimInterface.object)
  : window * option Py.exn :=
  match s with
  | inl e => (w, Some e)
  | inr s =>
      (set_step_button (set_setup_button (set_sim w (Some s)) false) true, None)
  end.

End Base.

Import Base.

(** *** class SimpleEntaglementWindow *)

Module Simple.

Definition update_ui (sim : option SteppingSimInterface.object)
           (sim_state : SparseSimulatorStep) (entangled_list : gset Py.value)
  : Py.M (list BlochFigure.plot) :=
  let* bloch1 := plot_qubit sim sim_state entangled_list "alice" in
  let* bloch2 := plot_qubit sim sim_state entangled_list "bob" in
  Py.ret [bloch1; bloch2].

Definition __init__ (step_enabled setup_enabled : bool) : window :=
  Base.__init__ update_ui "Tutaj nie ma co sprawdzać ;)"
                "Hej, czemu to w ogóle widzisz?" step_enabled setup_enabled.

(** [schmidt] is the external Schmidt routine, [samples] the outcomes the
    simulator will sample. *)
Definition create_simulator
           (schmidt : vector -> nat * nat -> list R * matrix * matrix)
           (samples : list bool) (w : window) : window * option Py.exn :=
  install w (SteppingSimInterface.init (SimpleEntanglement.class schmidt) samples).

End Simple.

(** *** class TeleportationWindow *)

Module Teleportation.

Definition update_ui (sim : option SteppingSimInterface.object)
           (sim_state : SparseSimulatorStep) (entangled_list : gset Py.value)
  : Py.M (list BlochFigure.plot) :=
  let* bloch1 := plot_qubit sim sim_state entangled_list "msg" in
  let* bloch2 := plot_qubit sim sim_state entangled_list "alice" in
  let* bloch3 := plot_qubit sim sim_state entangled_list "bob" in
  Py.ret [bloch1; bloch2; bloch3].

Definition __init__ (step_enabled setup_enabled : bool) : window :=
  Base.__init__ update_ui "Teleportacja udana!" "Ups, teleportacja nieudana..."
                step_enabled setup_enabled.

(** [xGateRadio] is the state of the radio button, [phaseSlider] the
    integer value of the slider. *)
Definition create_simulator (xGateRadio : bool) (phaseSlider : Z)
           (samples : list bool) (w : window) : window * option Py.exn :=
  install w (SteppingSimInterface.init
               (QuantumTeleportation.class (if xGateRadio then "X" else "T")
                                           (IZR phaseSlider / 100))
               samples).

End Teleportation.

(** *** class DeutschJozsaWindow *)

Module Deutsch.

Definition update_ui (sim : option SteppingSimInterface.object)
           (sim_state : SparseSimulatorStep) (entangled_list : gset Py.value)
  : Py.M (list BlochFigure.plot) :=
  let* bloch1 := plot_qubit sim sim_state entangled_list "q1" in
  let* bloch2 := plot_qubit sim sim_state entangled_list "q2" in
  let* bloch3 := plot_qubit sim sim_state entangled_list "control" in
  Py.ret [bloch1; bloch2; bloch3].

Definition __init__ (step_enabled setup_enabled : bool) : window :=
  Base.__init__ update_ui "Funkcja jest stała" "Funkcja jest zbilansowana"
                step_enabled setup_enabled.

(** [text] is the content of the line edit. *)
Definition create_simulator (text : string) (samples : list bool) (w : window)
  : window * option Py.exn :=
  match DeutschSequenceValidator.validate text with
  | DeutschSequenceValidator.Acceptable =>
      match DeutschJozsaWindow.array_def text with
      | inl e => (w, Some e)
      | inr oracle_matrix =>
          install w (SteppingSimInterface.init (DeutschJozsa.class oracle_matrix)
                                               samples)
      end
  | _ =>
      (add_line_to_log
         w (Text "Ups, twój ciąg cyfr jest niepełny. Popraw go i spróbuj jeszcze raz."),
       None)
  end.

End Deutsch.

(** The step button pressed [n] times: the window at the end and, for each
    press, the exception that left the slot. *)
Fixpoint press (n : nat) (w : window) : window * list (option Py.exn) :=
  match n with
  | O => (w, [])
  | S n' =>
      let (w1, e) := execute_step w in
      let (w2, es) := press n' w1 in
      (w2, e :: es)
  end.

(** The plain lines of a log. *)
Definition texts (log : list line) : list string :=
  omap (fun l => match l with Text s => Some s | EntanglementFound _ => None end) log.

(** The window after a step has been fetched and shown. *)
Definition shown (w : window) (s' : SteppingSimInterface.object)
           (state : SparseSimulatorStep) (d : string)
           (plots : list BlochFigure.plot) : window :=
  {| update_ui := update_ui w; success_message := success_message w;
     failure_message := failure_message w; sim := Some s';
     last_state := Some state; listWidget := listWidget w ++ [Text d];
     stateVectorLabel := Some (state_vector state); bloch_space := plots;
     step_button := step_button w; setup_button := setup_button w |}.

(** The figures of a window can be drawn at every valid step. *)
Definition drawable (c : SteppingSimInterface.class) (w : window) : Prop :=
  forall s0 state ce,
    qubits s0 = make_qubits (names c) -> valid_step c state ->
    exists plots, update_ui w (Some s0) state ce = inr plots.

End Windows.

(** ** The Deutsch-Jozsa circuit for an arbitrary oracle matrix

    The step results of the circuit as compositions of the gates and of
    the three measurements; the outcomes read on q1, q2 and control are
    the first three sampled ones. *)
Definition dj_trace (oracle : matrix) (samples : list bool)
  : list SparseSimulatorStep :=
  let y1 := hd false samples in
  let y2 := hd false (tl samples) in
  let y3 := hd false (tl (tl samples)) in
  let v0 := apply_unitary 3 X_unitary [0%nat] (zero_state 3) in
  let v1 := apply_unitary 3 H_unitary [1%nat] v0 in
  let v2 := apply_unitary 3 H_unitary [2%nat] v1 in
  let v3 := apply_unitary 3 H_unitary [0%nat] v2 in
  let v4 := apply_unitary 3 oracle [1%nat; 2%nat; 0%nat] v3 in
  let v5 := apply_unitary 3 H_unitary [1%nat] v4 in
  let v6 := apply_unitary 3 H_unitary [2%nat] v5 in
  let v7 := apply_unitary 3 H_unitary [0%nat] v6 in
  let v8 := collapse 3 1 y1 v7 in
  let v9 := collapse 3 2 y2 v8 in
  let v10 := collapse 3 0 y3 v9 in
  let after_q1 : gmap string (list Z) := <["q1" := [bit_value y1]]> ∅ in
  let after_q2 : gmap string (list Z) := <["q2" := [bit_value y2]]> after_q1 in
  let after_c : gmap string (list Z) := <["control" := [bit_value y3]]> after_q2 in
  let st v ms := {| qubit_order := dj_order; state_vector := v;
                    Cirq.measurements := ms |} in
  [st v0 ∅; st v1 ∅; st v2 ∅; st v3 ∅; st v4 ∅; st v5 ∅; st v6 ∅; st v7 ∅;
   st v8 after_q1; st v9 after_q2; st v10 after_c].

(** A stepper of class [c] in the middle of its run: the results its
    simulator still has to yield are valid and the three generators have
    the same number of items left. *)
Definition running (c : SteppingSimInterface.class)
           (self : SteppingSimInterface.object) : Prop :=
  cls self = c /\ qubits self = make_qubits (names c)
  /\ Forall (valid_step c) (_sim_iter self)
  /\ length (_measurements self) = length (_sim_iter self)
  /\ length (_desc self) = length (_sim_iter self).

(** Every member of the entangled set is a qubit of the scenario. *)
Definition members_are_qubits (c : SteppingSimInterface.class)
           (self : SteppingSimInterface.object) : Prop :=
  forall v, v ∈ currently_entangled self -> v ∈ dict_values (make_qubits (names c)).

(** ** Single-qubit states *)

Definition ket0 : ket := (RtoC 1, RtoC 0).
Definition ket1 : ket := (RtoC 0, RtoC 1).
Definition basis_ket (b : bool) : ket := if b then ket1 else ket0.
(** |+> for [false], |-> for [true]. *)
Definition hadamard_ket (b : bool) : ket := (half, if b then (- half)%C else half).
Definition scale (sigma : R) (psi : ket) : ket :=
  ((RtoC sigma * fst psi)%C, (RtoC sigma * snd psi)%C).

(** ** States with one entangled pair

    A two-qubit state: the amplitudes of |00>, |01>, |10>, |11>. *)
Definition pair_ket : Type := (C * C * C * C)%type.

Definition pair_at (phi : pair_ket) (p q : bool) : C :=
  let '(a00, a01, a10, a11) := phi in
  match p, q with
  | false, false => a00
  | false, true => a01
  | true, false => a10
  | true, true => a11
  end.

Definition pair_norm2 (phi : pair_ket) : R :=
  let '(a00, a01, a10, a11) := phi in
  norm2 (a00, a01) + norm2 (a10, a11).

(** The state whose factor [phi] sits on the axes kP, kQ and whose factor
    [psi] sits on the axis kR of a three-qubit state vector. *)
Definition pair_state (kP kQ kR : nat) (phi : pair_ket) (psi : ket) : vector :=
  map (fun x => (pair_at phi (nth kP x false) (nth kQ x false)
                 * ket_at psi (nth kR x false))%C)
      (all_bits 3).

(** The purity [Tr(rho^2)] of the state either qubit of the pair is left
    in, as a complex polynomial of the amplitudes and as a real number. *)
Definition pair_purity_C (phi : pair_ket) : C :=
  let '(a00, a01, a10, a11) := phi in
  let r00 := (a00 * Cconj a00 + a01 * Cconj a01)%C in
  let r01 := (a00 * Cconj a10 + a01 * Cconj a11)%C in
  let r10 := (a10 * Cconj a00 + a11 * Cconj a01)%C in
  let r11 := (a10 * Cconj a10 + a11 * Cconj a11)%C in
  (r00 * r00 + r01 * r10 + r10 * r01 + r11 * r11)%C.

Definition pair_purity (phi : pair_ket) : R := Cre (pair_purity_C phi).

(** The verdict of the tripartite witness on a state with one pair [P], [Q]
    of purity [p]: the pair when [(1 - p) / 2] does not round to zero. *)
Definition pair_verdict (p : R) (P Q : Qid) : verdict :=
  if Reqb (Num.round ((1 - p) / 2) 6) 0
  then (false, "fully_separable"%string, None)
  else (true, "bipartite"%string, Some [P; Q]).

(** The Bell pair (|00> + |11>) / sqrt 2. *)
Definition bell_pair : pair_ket := (half, RtoC 0, RtoC 0, half).

(** The entangled set after the updates of a run: what each step detected
    is added, then the qubit scheduled as measured is removed. *)
Definition updated (ce : gset Py.value)
           (steps : list (option (list Py.value) * option Py.value))
  : gset Py.value :=
  fold_left (fun ce em => remove_measured (add_all ce (fst em)) (snd em)) steps ce.

(** ** mainwindow.py *)

Module MainWindow.

Inductive window_class : Set :=
| TeleportationWindow
| DeutschJozsaWindow
| SimpleEntaglementWindow.

(** The Python objects that [child_window] holds or is compared with:
    [None], the class object [QWidget], and the window instances, each
    with an identity of its own. *)
Inductive pyobject : Set :=
| PyNone
| QWidget
| Instance (cls : window_class) (id : nat).

#[global] Instance window_class_eq_dec : EqDecision window_class.
Proof. solve_decision. Defined.

#[global] Instance pyobject_eq_dec : EqDecision pyobject.
Proof. solve_decision. Defined.

(** [a is b] *)
Definition is_ (a b : pyobject) : bool := bool_decide (a = b).

(** The attribute [child_window], the windows on which [close()] and
    [show()] have been called, and the number of instances created. *)
Record object : Type := {
  child_window : pyobject;
  closed : list pyobject;
  shown : list pyobject;
  created : nat
}.

Definition __init__ : object :=
  {| child_window := PyNone; closed := []; shown := []; created := 0 |}.

(** The body the three slots share:
    [if self.child_window is QWidget: self.child_window.close()], then a
    new window of the class is created, stored and shown. *)
Definition run (cls : window_class) (self : object) : object :=
  let self :=
    if is_ (child_window self) QWidget
    then {| child_window := child_window self;
            closed := closed self ++ [child_window self];
            shown := shown self; created := created self |}
    else self in
  let w := Instance cls (created self) in
  {| child_window := w; closed := closed self;
     shown := shown self ++ [w]; created := S (created self) |}.

Definition run_teleportation : object -> object := run TeleportationWindow.
Definition run_deutsch : object -> object := run DeutschJozsaWindow.
Definition run_simple : object -> object := run SimpleEntaglementWindow.

(** The three buttons of the main window and the slot each is connected
    to. *)
Inductive button : Set := teleportationButton | deutsch_button | simple_button.

Definition released (self : object) (b : button) : object :=
  match b with
  | teleportationButton => run_teleportation self
  | deutsch_button => run_deutsch self
  | simple_button => run_simple self
  end.

End MainWindow.


(* ===================================================================== *)
(** * Part II: properties *)
(* ===================================================================== *)

(** ** Scalars *)

Lemma Reqb_true (a b : R) : Reqb a b = true <-> a = b.
Proof. unfold Reqb. destruct (Req_dec_T a b); split; congruence. Qed.

Lemma Reqb_false (a b : R) : Reqb a b = false <-> a <> b.
Proof. unfold Reqb. destruct (Req_dec_T a b); split; congruence. Qed.

Lemma Reqb_refl (a : R) : Reqb a a = true.
Proof. apply Reqb_true. reflexivity. Qed.

Lemma Rleb_true (a b : R) : Rleb a b = true <-> a <= b.
Proof. unfold Rleb. destruct (Rle_dec a b); split; (congruence || tauto). Qed.

(** With a zero absolute tolerance, being close to zero is being zero. *)
Lemma isclose_zero (a : R) : isclose a 0 = true <-> a = 0.
Proof.
  unfold isclose. rewrite Rleb_true, Rminus_0_r, Rabs_R0.
  assert (Hp : 0 < / 10 ^ 9) by (apply Rinv_0_lt_compat, pow_lt; lra).
  assert (Hs : / 10 ^ 9 < 1).
  { rewrite <- Rinv_1. apply Rinv_lt_contravar; [|simpl]; lra. }
  pose proof (Rabs_pos a) as Ha.
  rewrite (Rmax_left (Rabs a) 0) by lra.
  rewrite Rmax_left by nra.
  split.
  - intros Hle. destruct (Req_dec a 0) as [|Hne]; [assumption|].
    apply Rabs_pos_lt in Hne. nra.
  - intros ->. rewrite Rabs_R0. lra.
Qed.

Lemma isclose_zero_false (a : R) : isclose a 0 = false <-> a <> 0.
Proof.
  rewrite <- isclose_zero. destruct (isclose a 0); split; congruence.
Qed.

Lemma R1_neq_R0_sym : 0 <> 1.
Proof. lra. Qed.

(** ** The bipartite witness *)

Section BipartiteCounting.

Lemma count_nonzero_cons (a : R) (l : list R) (x : R) :
  count_nonzero (eq_scalar (a :: l) x)
  = ((if Reqb a x then 1 else 0) + count_nonzero (eq_scalar l x))%Z.
Proof.
  unfold count_nonzero, eq_scalar. cbn [map].
  destruct (Reqb a x) eqn:E.
  - rewrite filter_cons_True by reflexivity. cbn [length]. lia.
  - rewrite filter_cons_False by discriminate. lia.
Qed.

Lemma count_nonzero_nil (x : R) : count_nonzero (eq_scalar [] x) = 0%Z.
Proof. reflexivity. Qed.

Lemma count_nonzero_range (l : list R) (x : R) :
  (0 <= count_nonzero (eq_scalar l x) <= NumPy.size l)%Z.
Proof.
  induction l as [|a l IH].
  - rewrite count_nonzero_nil. unfold NumPy.size. cbn. lia.
  - rewrite count_nonzero_cons. unfold NumPy.size in *. cbn [length].
    destruct (Reqb a x); lia.
Qed.

Lemma count_nonzero_full (l : list R) (x : R) :
  count_nonzero (eq_scalar l x) = NumPy.size l <-> Forall (fun y => y = x) l.
Proof.
  induction l as [|a l IH].
  - split; [constructor | reflexivity].
  - rewrite count_nonzero_cons. pose proof (count_nonzero_range l x) as Hr.
    unfold NumPy.size in *. cbn [length]. rewrite Forall_cons.
    destruct (Reqb a x) eqn:E.
    + apply Reqb_true in E. rewrite <- IH. split; [intros; split|intros []]; lia || auto.
    + apply Reqb_false in E. split; [lia | tauto].
Qed.

Lemma count_nonzero_none (l : list R) (x y : R) :
  x <> y -> Forall (fun z => z = x) l -> count_nonzero (eq_scalar l y) = 0%Z.
Proof.
  intros Hxy. induction 1 as [|a l Ha Hl IH].
  - reflexivity.
  - rewrite count_nonzero_cons, IH. subst a.
    apply Reqb_false in Hxy. rewrite Hxy. reflexivity.
Qed.

Lemma one_hot_cons (a : R) (l : list R) :
  one_hot (a :: l)
  <-> (a = 1 /\ Forall (fun y => y = 0) l) \/ (a = 0 /\ one_hot l).
Proof.
  split.
  - intros (l1 & l2 & E & F1 & F2). destruct l1 as [|b l1]; cbn in E.
    + injection E as Ea El. subst. left. auto.
    + injection E as Ea El. subst. inversion F1; subst.
      right. split; [reflexivity|]. exists l1, l2. auto.
  - intros [[-> F] | [-> (l1 & l2 & E & F1 & F2)]].
    + exists [], l. repeat split; auto.
    + exists (0 :: l1), l2. subst l. repeat split; auto.
Qed.

Lemma one_hot_counts (l : list R) :
  (count_nonzero (eq_scalar l 1) = 1
   /\ count_nonzero (eq_scalar l 0) = NumPy.size l - 1)%Z
  <-> one_hot l.
Proof.
  induction l as [|a l IH].
  - rewrite !count_nonzero_nil. split; [lia|].
    intros (l1 & l2 & E & _). destruct l1; discriminate.
  - rewrite !count_nonzero_cons, one_hot_cons, <- IH.
    pose proof (count_nonzero_range l 1) as R1.
    pose proof (count_nonzero_range l 0) as R0.
    pose proof (count_nonzero_full l 0) as Full.
    assert (NoOne := count_nonzero_none l 0 1 R1_neq_R0_sym).
    assert (Hsz : NumPy.size (a :: l) = (NumPy.size l + 1)%Z)
      by (unfold NumPy.size; cbn [length]; lia).
    rewrite Hsz.
    destruct (Reqb a 1) eqn:E1; [apply Reqb_true in E1|apply Reqb_false in E1];
      (destruct (Reqb a 0) eqn:E0; [apply Reqb_true in E0|apply Reqb_false in E0]).
    + lra.
    + split.
      * intros [_ H0]. left. split; [assumption|]. apply Full. lia.
      * intros [[_ F] | [Ha _]]; [|lra].
        rewrite NoOne by assumption.
        apply Full in F. lia.
    + split.
      * intros [H1 H0]. right. split; [assumption|]. lia.
      * intros [[Ha _] | [_ [H1 H0]]]; [lra|]. lia.
    + split.
      * intros [H1 H0]. exfalso.
        assert (F : Forall (fun y => y = 0) l) by (apply Full; lia).
        rewrite NoOne in H1 by assumption. lia.
      * intros [[Ha _] | [Ha _]]; lra.
Qed.

End BipartiteCounting.

Lemma detect_bipartite_one_hot
      (schmidt : vector -> nat * nat -> list R * matrix * matrix)
      (result : SparseSimulatorStep) :
  detect_entanglement_bipartite schmidt result = false
  <-> one_hot (NumPy.around
                 (fst (fst (schmidt (state_vector result) (2, 2)%nat))) 6).
Proof.
  unfold detect_entanglement_bipartite.
  destruct (schmidt (state_vector result) (2, 2)%nat) as [[cs eg1] eg2].
  cbn [fst]. rewrite <- one_hot_counts.
  rewrite negb_false_iff, andb_true_iff, !Z.eqb_eq. reflexivity.
Qed.

(** C1. For every two-qubit state vector handed to the bipartite witness,
    the witness answers [False] (not entangled) exactly when, after the
    Schmidt coefficients are rounded to 6 decimal places, one rounded
    coefficient equals 1.0 and every other one equals 0.0; for any other
    rounded distribution it answers [True] (entangled). *)
Theorem bipartite_verdict_rule
        (schmidt : vector -> nat * nat -> list R * matrix * matrix)
        (result : SparseSimulatorStep) :
  let coefficients := fst (fst (schmidt (state_vector result) (2, 2)%nat)) in
  let rounded_coeffs := NumPy.around coefficients 6 in
  (detect_entanglement_bipartite schmidt result = false
   <-> one_hot rounded_coeffs)
  /\ (detect_entanglement_bipartite schmidt result = true
      <-> ~ one_hot rounded_coeffs).
Proof.
  intros coefficients rounded_coeffs.
  pose proof (detect_bipartite_one_hot schmidt result) as Hiff.
  fold coefficients rounded_coeffs in Hiff.
  split; [exact Hiff|].
  rewrite <- Hiff.
  destruct (detect_entanglement_bipartite schmidt result); split; congruence.
Qed.

(** ** The tripartite case split *)

Lemma classify_cases (rj1 rj2 rj3 rj4 rj5 : R) (A B C : Qid) :
  let z1 := Reqb rj1 0 in
  let z2 := Reqb rj2 0 in
  let z3 := Reqb rj3 0 in
  let z4 := Reqb rj4 0 in
  let z5 := Reqb rj5 0 in
  classify (rj1, rj2, rj3, rj4, rj5) [A; B; C]
  = Py.ret (if z1 && z2 && z3 && z4 && z5
            then (false, "fully_separable"%string, None)
            else if negb z1 && z2 && z3 && z4 && z5
            then (true, "bipartite"%string, Some [B; C])
            else if z1 && negb z2 && z3 && z4 && z5
            then (true, "bipartite"%string, Some [A; C])
            else if z1 && z2 && negb z3 && z4 && z5
            then (true, "bipartite"%string, Some [A; B])
            else (true, "tripartite"%string, Some [A; B; C])).
Proof.
  intros z1 z2 z3 z4 z5. unfold classify.
  assert (E : forall a, isclose a 0 = Reqb a 0).
  { intros a. destruct (Reqb a 0) eqn:Ea.
    - apply isclose_zero, Reqb_true, Ea.
    - apply isclose_zero_false, Reqb_false, Ea. }
  rewrite !E. fold z1 z2 z3 z4 z5.
  destruct z1, z2, z3, z4, z5; reflexivity.
Qed.

(** C2. For a three-qubit state whose rounded quantities are [rj1 .. rj5],
    the tripartite witness decides by testing them against zero: all five
    zero gives [(False, "fully_separable", None)]; only [rj1] non-zero gives
    [(True, "bipartite", (B, C))]; only [rj2] non-zero gives
    [(True, "bipartite", (A, C))]; only [rj3] non-zero gives
    [(True, "bipartite", (A, B))]; every other combination gives
    [(True, "tripartite", (A, B, C))]. *)
Theorem tripartite_priority_order
        (result : SparseSimulatorStep) (A B C : Qid) (rj1 rj2 rj3 rj4 rj5 : R) :
  rounded_quantities result [A; B; C] = inr (rj1, rj2, rj3, rj4, rj5) ->
  let verdict := detect_entanglement_tripartite result [A; B; C] in
  let rest_zero := rj4 = 0 /\ rj5 = 0 in
  let case1 := rj1 = 0 /\ rj2 = 0 /\ rj3 = 0 /\ rest_zero in
  let case2 := rj1 <> 0 /\ rj2 = 0 /\ rj3 = 0 /\ rest_zero in
  let case3 := rj1 = 0 /\ rj2 <> 0 /\ rj3 = 0 /\ rest_zero in
  let case4 := rj1 = 0 /\ rj2 = 0 /\ rj3 <> 0 /\ rest_zero in
  (case1 -> verdict = inr (false, "fully_separable"%string, None))
  /\ (case2 -> verdict = inr (true, "bipartite"%string, Some [B; C]))
  /\ (case3 -> verdict = inr (true, "bipartite"%string, Some [A; C]))
  /\ (case4 -> verdict = inr (true, "bipartite"%string, Some [A; B]))
  /\ (~ case1 -> ~ case2 -> ~ case3 -> ~ case4 ->
      verdict = inr (true, "tripartite"%string, Some [A; B; C])).
Proof.
  intros Hrj verdict rest_zero case1 case2 case3 case4.
  assert (Hv : verdict = classify (rj1, rj2, rj3, rj4, rj5) [A; B; C]).
  { unfold verdict, detect_entanglement_tripartite. rewrite Hrj. reflexivity. }
  rewrite Hv, classify_cases. subst case1 case2 case3 case4 rest_zero.
  destruct (Reqb rj1 0) eqn:E1; [apply Reqb_true in E1|apply Reqb_false in E1];
    (destruct (Reqb rj2 0) eqn:E2; [apply Reqb_true in E2|apply Reqb_false in E2]);
    (destruct (Reqb rj3 0) eqn:E3; [apply Reqb_true in E3|apply Reqb_false in E3]);
    (destruct (Reqb rj4 0) eqn:E4; [apply Reqb_true in E4|apply Reqb_false in E4]);
    (destruct (Reqb rj5 0) eqn:E5; [apply Reqb_true in E5|apply Reqb_false in E5]);
    cbn [andb negb]; repeat split; intros; try reflexivity; exfalso; tauto.
Qed.

(** ** SimpleEntanglement.detect_entanglement *)

Lemma simple_detect_returns
      (schmidt : vector -> nat * nat -> list R * matrix * matrix)
      (simulation_step : SparseSimulatorStep) :
  SimpleEntanglement.detect_entanglement
    schmidt (make_qubits (names (SimpleEntanglement.class schmidt))) simulation_step
  = inr (Some [Py.NamedQubit "alice";
               if detect_entanglement_bipartite schmidt simulation_step
               then Py.NamedQubit "bob"
               else Py.EmptyTuple]).
Proof.
  cbn. unfold SimpleEntanglement.detect_entanglement. cbn.
  destruct (detect_entanglement_bipartite schmidt simulation_step); reflexivity.
Qed.

(** C8. On every simulation step of the SimpleEntanglement scenario
    [detect_entanglement] returns a 2-tuple whose first element is the alice
    qubit whatever the bipartite witness says; its second element is the bob
    qubit when the witness reports entanglement and the empty tuple
    otherwise. *)
Theorem simple_detect_always_returns_alice
        (schmidt : vector -> nat * nat -> list R * matrix * matrix)
        (simulation_step : SparseSimulatorStep) :
  let qubits := make_qubits (names (SimpleEntanglement.class schmidt)) in
  SimpleEntanglement.detect_entanglement schmidt qubits simulation_step
  = inr (Some [Py.NamedQubit "alice";
               if detect_entanglement_bipartite schmidt simulation_step
               then Py.NamedQubit "bob"
               else Py.EmptyTuple]).
Proof. exact (simple_detect_returns schmidt simulation_step). Qed.

(** ** The entangled set of the stepper *)

Section EntangledSet.

Implicit Types (ce : gset Py.value) (qid m : Py.value).

Lemma add_all_union ce (qids : list Py.value) :
  add_all ce (Some qids) = ce ∪ list_to_set qids.
Proof.
  unfold add_all. revert ce.
  induction qids as [|q qids IH]; intros ce; cbn [fold_left list_to_set].
  - set_solver.
  - rewrite IH. set_solver.
Qed.

Lemma never_single_empty : never_single ∅.
Proof. left. apply size_empty. Qed.

(** Two distinct members are enough. *)
Lemma never_single_two ce qid m :
  qid <> m -> qid ∈ ce -> m ∈ ce -> never_single ce.
Proof.
  intros Hne H1 H2. right.
  assert (Hsub : ({[qid; m]} : gset Py.value) ⊆ ce) by set_solver.
  apply subseteq_size in Hsub.
  rewrite size_union in Hsub by set_solver.
  rewrite !size_singleton in Hsub. exact Hsub.
Qed.

Lemma add_all_never_single ce entangled :
  never_single ce -> two_or_none entangled ->
  never_single (add_all ce entangled).
Proof.
  intros Hce Htwo. destruct entangled as [qids|]; [|exact Hce].
  destruct Htwo as (a & b & Hab & Ha & Hb).
  rewrite add_all_union.
  apply (never_single_two _ a b Hab); set_solver.
Qed.

Lemma remove_measured_never_single ce (measured : option Py.value) :
  never_single ce -> never_single (remove_measured ce measured).
Proof.
  intros Hce. unfold remove_measured.
  destruct measured as [m|]; [|exact Hce].
  destruct (bool_decide (m ∈ ce)); [|exact Hce].
  destruct (size (ce ∖ {[m]}) <=? 1)%nat eqn:E.
  - apply never_single_empty.
  - right. apply Nat.leb_gt in E. lia.
Qed.

End EntangledSet.

Section DetectorsReturnPairs.

Lemma simple_detect_two_or_none schmidt (qubits : dict) sim_step entangled :
  qubits = make_qubits (names (SimpleEntanglement.class schmidt)) ->
  SimpleEntanglement.detect_entanglement schmidt qubits sim_step = inr entangled ->
  two_or_none entangled.
Proof.
  intros -> H. cbn in H. unfold SimpleEntanglement.detect_entanglement in H.
  cbn in H.
  destruct (detect_entanglement_bipartite schmidt sim_step);
    cbn in H; injection H as <-; cbn.
  - exists (Py.NamedQubit "alice"), (Py.NamedQubit "bob").
    split; [discriminate|]. set_solver.
  - exists (Py.NamedQubit "alice"), Py.EmptyTuple.
    split; [discriminate|]. set_solver.
Qed.

Lemma tripartite_two_or_none result (A B C : Qid) b kind entangled :
  A <> B -> A <> C -> B <> C ->
  detect_entanglement_tripartite result [A; B; C] = inr (b, kind, entangled) ->
  two_or_none (if b then entangled else None).
Proof.
  intros AB AC BC H. unfold detect_entanglement_tripartite in H.
  destruct (rounded_quantities result [A; B; C]) as [e|[[[[rj1 rj2] rj3] rj4] rj5]];
    [discriminate|].
  cbn [Py.bind] in H. rewrite classify_cases in H.
  repeat match type of H with
         | context [if ?c then _ else _] => destruct c
         end;
    injection H as <- <- <-; cbn; try exact I.
  - exists B, C. split; [assumption|]. set_solver.
  - exists A, C. split; [assumption|]. set_solver.
  - exists A, B. split; [assumption|]. set_solver.
  - exists A, B. split; [assumption|]. set_solver.
Qed.

Lemma scenario_detect_two_or_none c (qubits : dict) sim_step entangled :
  scenario c ->
  qubits = make_qubits (names c) ->
  detect_entanglement c qubits sim_step = inr entangled ->
  two_or_none entangled.
Proof.
  intros [schmidt | what_gate phase | oracle] -> H.
  - eapply simple_detect_two_or_none; [reflexivity | exact H].
  - cbn in H. unfold QuantumTeleportation.detect_entanglement in H.
    cbn [make_qubits map dict_values snd fst List.filter negb andb
         String.eqb Ascii.eqb Bool.eqb] in H.
    destruct (detect_entanglement_tripartite _ _) as [e|[[b kind] ent]] eqn:E;
      [discriminate|].
    apply tripartite_two_or_none in E; try discriminate.
    cbn in H. destruct b; injection H as <-; exact E.
  - cbn in H. unfold DeutschJozsa.detect_entanglement in H.
    cbn [make_qubits map dict_values snd fst List.filter negb andb
         String.eqb Ascii.eqb Bool.eqb] in H.
    destruct (detect_entanglement_tripartite _ _) as [e|[[b kind] ent]] eqn:E;
      [discriminate|].
    apply tripartite_two_or_none in E; try discriminate.
    cbn in H. destruct b; injection H as <-; exact E.
Qed.

End DetectorsReturnPairs.

Section StepInvariant.

(** What [step] never touches. *)
Lemma step_keeps_class self :
  cls (fst (step self)) = cls self /\ qubits (fst (step self)) = qubits self.
Proof.
  unfold step.
  destruct (Py.next (_sim_iter self)) as [e|[sim_step it]]; [auto|].
  cbn [set_sim_iter cls qubits].
  destruct (detect_entanglement _ _ _) as [e|entangled]; [auto|].
  destruct (bloch_vectors_of _ _) as [e|bv]; [auto|].
  cbn [set_bloch_states _measurements].
  destruct (Py.next _) as [e|[measured ms]]; [auto|].
  cbn [set_measurements set_currently_entangled _desc].
  destruct (Py.next _) as [e|[d ds]]; auto.
Qed.

Lemma step_never_single c self :
  scenario c -> cls self = c -> qubits self = make_qubits (names c) ->
  never_single (currently_entangled self) ->
  never_single (currently_entangled (fst (step self))).
Proof.
  intros Hc Hcls Hq Hce. unfold step.
  destruct (Py.next (_sim_iter self)) as [e|[sim_step it]]; [exact Hce|].
  cbn [set_sim_iter cls qubits].
  destruct (detect_entanglement _ _ _) as [e|entangled] eqn:Hd; [exact Hce|].
  destruct (bloch_vectors_of _ _) as [e|bv]; [exact Hce|].
  cbn [set_bloch_states _measurements].
  destruct (Py.next _) as [e|[measured ms]]; [exact Hce|].
  cbn [set_measurements set_currently_entangled _desc currently_entangled].
  assert (Hnew : never_single
                   (remove_measured
                      (add_all (currently_entangled self) entangled) measured)).
  { apply remove_measured_never_single, add_all_never_single; [exact Hce|].
    rewrite Hcls in Hd.
    eapply scenario_detect_two_or_none; [exact Hc | exact Hq | exact Hd]. }
  destruct (Py.next _) as [e|[d ds]]; exact Hnew.
Qed.

End StepInvariant.

(** C5. For each of the three scenarios and every reachable state of its
    stepper, the set of currently entangled qubits has size 0 or at least
    2: the update (add the implicated members, remove the measured qubit
    when it is a member, then clear the set when at most one member is
    left) never leaves exactly one member. *)
Theorem entangled_set_never_single
        (c : SteppingSimInterface.class) (self : SteppingSimInterface.object) :
  scenario c -> reachable c self ->
  size (currently_entangled self) = 0%nat
  \/ (2 <= size (currently_entangled self))%nat.
Proof.
  intros Hc Hr.
  enough (H : cls self = c /\ qubits self = make_qubits (names c)
              /\ never_single (currently_entangled self)) by apply H.
  induction Hr as [self (Hcls & Hq & _ & Hce) | self Hr (Hcls & Hq & Hce)].
  - rewrite Hce. auto using never_single_empty.
  - destruct (step_keeps_class self) as [Ec Eq].
    rewrite Ec, Eq. repeat split; try assumption.
    eapply step_never_single; eassumption.
Qed.

Lemma entangled_set_never_single_witness :
  let after := fst (step simple_one_step) in
  size (currently_entangled after) = 0%nat
  \/ (2 <= size (currently_entangled after))%nat.
Proof.
  apply (entangled_set_never_single (SimpleEntanglement.class product_schmidt)).
  - constructor.
  - apply reachable_step, reachable_fresh. repeat split.
Defined.


(** ** Complex arithmetic *)

Lemma C_ring_theory :
  ring_theory (RtoC 0) (RtoC 1) Cplus Cmult Cminus Copp eq.
Proof.
  constructor; intros; unfold RtoC, Cplus, Cmult, Cminus, Copp;
    repeat match goal with x : C |- _ => destruct x end; cbn [fst snd];
    f_equal; ring.
Qed.

Add Ring C_ring : C_ring_theory.

Lemma RtoC_plus (x y : R) : RtoC (x + y) = (RtoC x + RtoC y)%C.
Proof. unfold RtoC, Cplus; cbn. f_equal; ring. Qed.

Lemma RtoC_mult (x y : R) : RtoC (x * y) = (RtoC x * RtoC y)%C.
Proof. unfold RtoC, Cmult; cbn. f_equal; ring. Qed.

Lemma RtoC_2 : RtoC 2 = (RtoC 1 + RtoC 1)%C.
Proof. unfold RtoC, Cplus; cbn [fst snd]. f_equal; lra. Qed.

Lemma RtoC_4 : RtoC 4 = (RtoC 1 + RtoC 1 + RtoC 1 + RtoC 1)%C.
Proof. unfold RtoC, Cplus; cbn [fst snd]. f_equal; lra. Qed.

Lemma Cconj_mult (a b : C) : Cconj (a * b) = (Cconj a * Cconj b)%C.
Proof. destruct a, b. unfold Cconj, Cmult; cbn. f_equal; ring. Qed.

Lemma Cconj_plus (a b : C) : Cconj (a + b) = (Cconj a + Cconj b)%C.
Proof. destruct a, b. unfold Cconj, Cplus; cbn. f_equal; ring. Qed.

Lemma Cconj_RtoC (x : R) : Cconj (RtoC x) = RtoC x.
Proof. unfold Cconj, RtoC; cbn. f_equal; ring. Qed.

(** Evaluation of list and index structure, leaving the scalars alone. *)
Ltac ceval :=
  cbv -[Rplus Rmult Ropp Rminus Rdiv Rinv IZR R_sqrt.sqrt cos sin PI pow
        Cplus Cmult Cminus Copp Cconj RtoC Cabs Cexp_i Csqr Cre Cim
        Rlt_dec Req_dec_T Rle_dec Int_part Rabs Rmax C].

Ltac ceval_in H :=
  cbv -[Rplus Rmult Ropp Rminus Rdiv Rinv IZR R_sqrt.sqrt cos sin PI pow
        Cplus Cmult Cminus Copp Cconj RtoC Cabs Cexp_i Csqr Cre Cim
        Rlt_dec Req_dec_T Rle_dec Int_part Rabs Rmax C] in H.

(** ** The invariants and derived quantities of the tripartite witness *)

Lemma hdet_spec_h (a000 a001 a010 a011 a100 a101 a110 a111 : C) :
  hdet [[[a000; a001]; [a010; a011]]; [[a100; a101]; [a110; a111]]]
  = spec_h a000 a001 a010 a011 a100 a101 a110 a111.
Proof.
  unfold hdet, spec_h, at3. cbn [nth]. unfold Csqr.
  rewrite RtoC_2, RtoC_4. ring.
Qed.

Lemma i5_nonneg (h : C) : 0 <= Cabs h ^ 2.
Proof. apply pow2_ge_0. Qed.

Lemma sqrt_checked_nonneg (x : R) : 0 <= x -> Num.sqrt x = inr (R_sqrt.sqrt x).
Proof.
  intros Hx. unfold Num.sqrt. destruct (Rlt_dec x 0); [lra|reflexivity].
Qed.

Lemma derived_spec_j (i1 i2 i3 i4 i5 : R) :
  0 <= i5 -> derived (i1, i2, i3, i4, i5) = inr (spec_j i1 i2 i3 i4 i5).
Proof.
  intros H5. unfold derived. rewrite (sqrt_checked_nonneg i5 H5).
  cbn [Py.bind Py.ret]. unfold spec_j, Py.ret.
  assert (quarter : forall x, 1 / 4 * x = x / 4) by (intros; field).
  rewrite !quarter. reflexivity.
Qed.

(** C3. The tripartite witness computes [i1], [i2], [i3] as the purities
    [Tr(rho^2)] of the single-qubit density matrices of A, B and C, [i4] as
    [Tr((rhoA (x) rhoB) rhoAB)], [i5] as the squared absolute value of the
    quartic [h] of the eight amplitudes, and from them
    [j1 = (1 + i1 - i2 - i3 - 2 sqrt i5) / 4],
    [j2 = (1 - i1 + i2 - i3 - 2 sqrt i5) / 4],
    [j3 = (1 - i1 - i2 + i3 - 2 sqrt i5) / 4], [j4 = sqrt i5],
    [j5 = (3 - 3 i1 - 3 i2 - i3 + 4 i4 - 2 sqrt i5) / 4], each rounded to 6
    decimal places before the comparison. *)
Theorem tripartite_formulas
        (result : SparseSimulatorStep) (A B C : Qid)
        (rhoA rhoB rhoC rhoAB : matrix)
        (a000 a001 a010 a011 a100 a101 a110 a111 : Num.C) :
  density_matrix_of result [A] = inr rhoA ->
  density_matrix_of result [B] = inr rhoB ->
  density_matrix_of result [C] = inr rhoC ->
  density_matrix_of result [A; B] = inr rhoAB ->
  state_vector result = [a000; a001; a010; a011; a100; a101; a110; a111] ->
  let i1 := purity rhoA in
  let i2 := purity rhoB in
  let i3 := purity rhoC in
  let i4 := Cre (trace (matmul (kron rhoA rhoB) rhoAB)) in
  let i5 := Cabs (spec_h a000 a001 a010 a011 a100 a101 a110 a111) ^ 2 in
  invariants result [A; B; C] = inr (i1, i2, i3, i4, i5)
  /\ rounded_quantities result [A; B; C]
     = inr (let '(j1, j2, j3, j4, j5) := spec_j i1 i2 i3 i4 i5 in
            (Num.round j1 6, Num.round j2 6, Num.round j3 6,
             Num.round j4 6, Num.round j5 6)).
Proof.
  intros HA HB HC HAB Hsv i1 i2 i3 i4 i5.
  assert (Hinv : invariants result [A; B; C] = inr (i1, i2, i3, i4, i5)).
  { unfold invariants. cbn [Py.getitem lookup list_lookup Py.bind Py.ret].
    rewrite HC. cbn [Py.bind]. rewrite HAB. cbn [Py.bind].
    rewrite HA. cbn [Py.bind]. rewrite HB. cbn [Py.bind].
    rewrite Hsv. cbn [reshape222 Py.bind Py.ret].
    rewrite hdet_spec_h. reflexivity. }
  split; [exact Hinv|].
  unfold rounded_quantities. rewrite Hinv. cbn [Py.bind].
  rewrite derived_spec_j by apply i5_nonneg.
  reflexivity.
Qed.

(** ** No detection call raises *)

Lemma position_total (q : Qid) (order : list Qid) :
  q ∈ order -> exists k, position q order = inr k.
Proof.
  induction order as [|p order IH]; intros Hin.
  - inversion Hin.
  - cbn [position]. destruct (bool_decide (q = p)) eqn:E.
    + exists O. reflexivity.
    + apply bool_decide_eq_false in E.
      apply elem_of_cons in Hin as [Hin|Hin]; [contradiction|].
      destruct (IH Hin) as [k Hk]. rewrite Hk. exists (S k). reflexivity.
Qed.

Lemma position_lookup (q : Qid) (order : list Qid) (k : nat) :
  position q order = inr k -> order !! k = Some q.
Proof.
  revert k. induction order as [|p order IH]; intros k H; [discriminate|].
  cbn [position] in H. destruct (bool_decide (q = p)) eqn:E.
  - apply bool_decide_eq_true in E. injection H as <-. subst. reflexivity.
  - destruct (position q order) as [e|k'] eqn:Ep; [discriminate|].
    injection H as <-. apply (IH k' eq_refl).
Qed.

Lemma axes_of_elem (order : list Qid) (qs : list Qid) (axes : list nat) (k : nat) :
  axes_of order qs = inr axes -> k ∈ axes ->
  exists q, q ∈ qs /\ position q order = inr k.
Proof.
  unfold axes_of. revert axes. induction qs as [|q qs IH]; intros axes H Hk.
  - injection H as <-. inversion Hk.
  - cbn [Py.mapM] in H.
    destruct (position q order) as [e|k0] eqn:Ep; [discriminate|].
    destruct (Py.mapM (fun q => position q order) qs) as [e|axes'] eqn:Em;
      [discriminate|].
    injection H as <-. apply elem_of_cons in Hk as [->|Hk].
    + exists q. split; [left|exact Ep].
    + destruct (IH axes' eq_refl Hk) as (q' & Hq' & Hp).
      exists q'. split; [right; exact Hq'|exact Hp].
Qed.

Lemma has_duplicates_false (indices : list nat) :
  NoDup indices -> has_duplicates indices = false.
Proof.
  induction 1 as [|k indices Hk _ IH]; [reflexivity|].
  cbn [has_duplicates]. rewrite IH, orb_false_r.
  destruct (existsb (Nat.eqb k) indices) eqn:E; [|reflexivity].
  apply existsb_exists in E as (k' & Hin & Ek). apply Nat.eqb_eq in Ek. subst k'.
  exfalso. apply Hk. apply list_elem_of_In. exact Hin.
Qed.

Lemma has_duplicates_true (indices : list nat) :
  ~ NoDup indices -> has_duplicates indices = true.
Proof.
  induction indices as [|k indices IH]; intros H.
  - destruct H. constructor.
  - cbn [has_duplicates].
    destruct (existsb (Nat.eqb k) indices) eqn:E; [reflexivity|].
    cbn [orb]. apply IH. intros Hnd. apply H. constructor; [|exact Hnd].
    intros Hin. apply list_elem_of_In in Hin.
    assert (Ht : existsb (Nat.eqb k) indices = true)
      by (apply existsb_exists; exists k; split; [exact Hin|apply Nat.eqb_refl]).
    congruence.
Qed.

Lemma axes_of_NoDup (order : list Qid) (qs : list Qid) (axes : list nat) :
  NoDup qs -> axes_of order qs = inr axes -> NoDup axes.
Proof.
  intros Hnd. revert axes. induction Hnd as [|q qs Hq _ IH]; intros axes H.
  - injection H as <-. constructor.
  - unfold axes_of in H. cbn [Py.mapM] in H.
    destruct (position q order) as [e|k] eqn:Ep; [discriminate|].
    destruct (Py.mapM (fun q => position q order) qs) as [e|axes'] eqn:Em;
      [discriminate|].
    injection H as <-. constructor; [|apply IH; exact Em].
    intros Hk. destruct (axes_of_elem order qs axes' k Em Hk) as (q' & Hq' & Hp).
    apply position_lookup in Ep, Hp. rewrite Ep in Hp. injection Hp as ->.
    contradiction.
Qed.

Lemma axes_of_total (order : list Qid) (qs : list Qid) :
  (forall q, q ∈ qs -> q ∈ order) -> exists axes, axes_of order qs = inr axes.
Proof.
  intros Hin. unfold axes_of. induction qs as [|q qs IH].
  - exists []. reflexivity.
  - cbn [Py.mapM].
    destruct (position_total q order) as [k Hk]; [apply Hin; left|].
    rewrite Hk.
    destruct IH as [axes Haxes]; [intros; apply Hin; right; assumption|].
    rewrite Haxes. eexists. reflexivity.
Qed.

(** The density matrix of qubits of the state, none of them given twice. *)
Lemma density_matrix_total (result : SparseSimulatorStep) (qs : list Qid) :
  NoDup qs ->
  (forall q, q ∈ qs -> q ∈ qubit_order result) ->
  exists rho, density_matrix_of result qs = inr rho.
Proof.
  intros Hnd Hin. unfold density_matrix_of.
  destruct (axes_of_total (qubit_order result) qs Hin) as [axes Hax].
  rewrite Hax. cbn [Py.bind].
  rewrite (has_duplicates_false axes (axes_of_NoDup _ _ _ Hnd Hax)).
  eexists. reflexivity.
Qed.

(** A qubit given twice is refused. *)
Lemma density_matrix_repeated (result : SparseSimulatorStep) (q : Qid) :
  q ∈ qubit_order result ->
  density_matrix_of result [q; q] = inl Py.ValueError.
Proof.
  intros Hin. unfold density_matrix_of, axes_of. cbn [Py.mapM].
  destruct (position_total q (qubit_order result) Hin) as [k ->].
  cbn [Py.bind Py.ret has_duplicates existsb]. rewrite Nat.eqb_refl. reflexivity.
Qed.

Lemma NoDup_one (q : Qid) : NoDup [q].
Proof. apply NoDup_singleton. Qed.

Lemma NoDup_two (p q : Qid) : p <> q -> NoDup [p; q].
Proof.
  intros H. constructor; [|apply NoDup_singleton].
  intros Hin. apply list_elem_of_singleton in Hin. contradiction.
Qed.

Lemma reshape222_total (v : vector) :
  length v = 8%nat -> exists t, reshape222 v = inr t.
Proof.
  intros H. do 9 (destruct v as [|? v]; try discriminate H).
  eexists. reflexivity.
Qed.

Lemma invariants_total (result : SparseSimulatorStep) (A B C : Qid) :
  A <> B ->
  A ∈ qubit_order result -> B ∈ qubit_order result -> C ∈ qubit_order result ->
  length (state_vector result) = 8%nat ->
  exists i1 i2 i3 i4 i5,
    invariants result [A; B; C] = inr (i1, i2, i3, i4, i5) /\ 0 <= i5.
Proof.
  intros HAB HA HB HC Hlen. unfold invariants.
  cbn [Py.getitem lookup list_lookup Py.bind Py.ret].
  destruct (density_matrix_total result [C] (NoDup_one C)) as [rhoC ->];
    [set_solver|].
  destruct (density_matrix_total result [A; B] (NoDup_two A B HAB)) as [rhoAB ->];
    [set_solver|].
  destruct (density_matrix_total result [A] (NoDup_one A)) as [rhoA ->];
    [set_solver|].
  destruct (density_matrix_total result [B] (NoDup_one B)) as [rhoB ->];
    [set_solver|].
  destruct (reshape222_total _ Hlen) as [t ->].
  cbn [Py.bind]. do 5 eexists. split; [reflexivity|]. apply i5_nonneg.
Qed.

Lemma classify_five_verdicts (rj : R * R * R * R * R) (A B C : Qid) :
  exists v, classify rj [A; B; C] = inr v /\ v ∈ five_verdicts A B C.
Proof.
  destruct rj as [[[[rj1 rj2] rj3] rj4] rj5]. rewrite classify_cases.
  eexists. split; [reflexivity|]. unfold five_verdicts.
  repeat match goal with
         | |- context [if ?c then _ else _] => destruct c
         end; set_solver.
Qed.

Lemma tripartite_total (result : SparseSimulatorStep) (A B C : Qid) :
  A <> B ->
  A ∈ qubit_order result -> B ∈ qubit_order result -> C ∈ qubit_order result ->
  length (state_vector result) = 8%nat ->
  exists v, detect_entanglement_tripartite result [A; B; C] = inr v
            /\ v ∈ five_verdicts A B C.
Proof.
  intros HAB HA HB HC Hlen.
  destruct (invariants_total result A B C HAB HA HB HC Hlen)
    as (i1 & i2 & i3 & i4 & i5 & Hinv & H5).
  unfold detect_entanglement_tripartite, rounded_quantities.
  rewrite Hinv. cbn [Py.bind]. rewrite derived_spec_j by exact H5.
  cbn [Py.bind Py.ret]. apply classify_five_verdicts.
Qed.

Lemma scenario_detect_total
      (c : SteppingSimInterface.class) (result : SparseSimulatorStep) :
  scenario c -> valid_step c result ->
  exists entangled,
    detect_entanglement c (make_qubits (names c)) result = inr entangled.
Proof.
  intros Hc [Hq Hlen].
  destruct Hc as [schmidt | what_gate phase | oracle].
  - cbn [detect_entanglement SimpleEntanglement.class].
    unfold SimpleEntanglement.detect_entanglement. cbn.
    destruct (detect_entanglement_bipartite schmidt result); eauto.
  - cbn in Hq, Hlen |- *. unfold QuantumTeleportation.detect_entanglement.
    cbn [make_qubits map dict_values snd fst List.filter negb andb
         String.eqb Ascii.eqb Bool.eqb].
    destruct (tripartite_total result (Py.NamedQubit "msg")
                (Py.NamedQubit "alice") (Py.NamedQubit "bob"))
      as ([[b kind] ent] & -> & _); try (apply Hq; set_solver);
      [discriminate|exact Hlen|].
    cbn [Py.bind]. destruct b; eauto.
  - cbn in Hq, Hlen |- *. unfold DeutschJozsa.detect_entanglement.
    cbn [make_qubits map dict_values snd fst List.filter negb andb
         String.eqb Ascii.eqb Bool.eqb].
    destruct (tripartite_total result (Py.NamedQubit "q1")
                (Py.NamedQubit "q2") (Py.NamedQubit "control"))
      as ([[b kind] ent] & -> & _); try (apply Hq; set_solver);
      [discriminate|exact Hlen|].
    cbn [Py.bind]. destruct b; eauto.
Qed.

(** C9. No entanglement-detection call raises.  In the tripartite witness,
    called with qubits of the state of which the first two differ (they are
    handed together to [density_matrix_of], which refuses a qubit given
    twice), the value [i5] handed to every square root is non-negative,
    being the squared absolute value of [h]; so the square roots of
    [j1 .. j5] are defined, the five-way case split is exhaustive, and the
    detector of every scenario returns on every step result it can be
    handed. *)
Theorem detection_never_raises :
  (forall (result : SparseSimulatorStep) (A B C : Qid),
      A <> B ->
      A ∈ qubit_order result -> B ∈ qubit_order result ->
      C ∈ qubit_order result ->
      length (state_vector result) = 8%nat ->
      (exists i1 i2 i3 i4 i5 j,
          invariants result [A; B; C] = inr (i1, i2, i3, i4, i5)
          /\ 0 <= i5
          /\ Num.sqrt i5 = inr (R_sqrt.sqrt i5)
          /\ derived (i1, i2, i3, i4, i5) = inr j)
      /\ (exists v, detect_entanglement_tripartite result [A; B; C] = inr v
                    /\ v ∈ five_verdicts A B C))
  /\ (forall (c : SteppingSimInterface.class) (result : SparseSimulatorStep),
         scenario c -> valid_step c result ->
         exists entangled,
           detect_entanglement c (make_qubits (names c)) result = inr entangled).
Proof.
  split.
  - intros result A B C HAB HA HB HC Hlen. split.
    + destruct (invariants_total result A B C HAB HA HB HC Hlen)
        as (i1 & i2 & i3 & i4 & i5 & Hinv & H5).
      exists i1, i2, i3, i4, i5, (spec_j i1 i2 i3 i4 i5).
      auto using sqrt_checked_nonneg, derived_spec_j.
    + apply tripartite_total; assumption.
  - apply scenario_detect_total.
Qed.


(** ** Product states *)

Lemma norm2_C (psi : ket) :
  (fst psi * Cconj (fst psi) + snd psi * Cconj (snd psi))%C = RtoC (norm2 psi).
Proof.
  destruct psi as [[a b] [c d]]. unfold norm2, RtoC, Cplus, Cmult, Cconj.
  cbn [fst snd]. f_equal; ring.
Qed.

Lemma Cre_RtoC (x : R) : Cre (RtoC x) = x.
Proof. reflexivity. Qed.

Lemma Cabs_0 : Cabs (RtoC 0) = 0.
Proof.
  unfold Cabs, RtoC. cbn [fst snd].
  replace (0 * 0 + 0 * 0) with 0 by ring. apply sqrt_0.
Qed.

Lemma three_axes (kA kB kC : nat) :
  (kA < 3)%nat -> (kB < 3)%nat -> (kC < 3)%nat ->
  kA <> kB -> kA <> kC -> kB <> kC ->
  (kA, kB, kC) ∈ [(0, 1, 2); (0, 2, 1); (1, 0, 2); (1, 2, 0); (2, 0, 1); (2, 1, 0)]%nat.
Proof.
  intros. 
  destruct kA as [|[|[|]]]; try lia;
    destruct kB as [|[|[|]]]; try lia;
    destruct kC as [|[|[|]]]; try lia; set_solver.
Qed.

Section ProductStates.

Variables (psiA psiB psiC : ket).

(** The squared norm of the whole state, as a complex number. *)
Let N : C :=
  ((fst psiA * Cconj (fst psiA) + snd psiA * Cconj (snd psiA))
   * (fst psiB * Cconj (fst psiB) + snd psiB * Cconj (snd psiB))
   * (fst psiC * Cconj (fst psiC) + snd psiC * Cconj (snd psiC)))%C.

Lemma product_invariants (kA kB kC : nat) :
  (kA, kB, kC) ∈ [(0, 1, 2); (0, 2, 1); (1, 0, 2); (1, 2, 0); (2, 0, 1); (2, 1, 0)]%nat ->
  let sv := product_state kA kB kC psiA psiB psiC in
  let rhoA := partial_trace 3 sv [kA] in
  let rhoB := partial_trace 3 sv [kB] in
  let rhoC := partial_trace 3 sv [kC] in
  let rhoAB := partial_trace 3 sv [kA; kB] in
  trace (matmul rhoA rhoA) = (N * N)%C
  /\ trace (matmul rhoB rhoB) = (N * N)%C
  /\ trace (matmul rhoC rhoC) = (N * N)%C
  /\ trace (matmul (kron rhoA rhoB) rhoAB) = (N * N * N)%C
  /\ exists t, reshape222 sv = inr t /\ hdet t = RtoC 0.
Proof.
  intros Hk sv rhoA rhoB rhoC rhoAB.
  subst sv rhoA rhoB rhoC rhoAB N.
  destruct psiA as [a0 a1], psiB as [b0 b1], psiC as [c0 c1].
  repeat (apply elem_of_cons in Hk as [Hk|Hk]; [injection Hk as -> -> ->|]);
    try (inversion Hk; fail).
  all: repeat split; try (ceval; rewrite !Cconj_mult; ring).
  all: eexists; (split; [reflexivity|]).
  all: rewrite hdet_spec_h; unfold spec_h, Csqr; ceval; rewrite RtoC_2, RtoC_4; ring.
Qed.

End ProductStates.

Lemma rint_IZR (z : Z) : rint (IZR z) = z.
Proof.
  unfold rint.
  assert (E : Int_part (IZR z) = z).
  { symmetry. apply Int_part_spec. lra. }
  rewrite E. destruct (Rlt_dec (IZR z - IZR z) (1 / 2)) as [_|H]; [reflexivity|lra].
Qed.

Lemma round_0 (ndigits : nat) : Num.round 0 ndigits = 0.
Proof.
  unfold Num.round. rewrite Rmult_0_l, (rint_IZR 0). unfold Rdiv. apply Rmult_0_l.
Qed.

Lemma position_axes
      (result : SparseSimulatorStep) (qs : list Qid) (ks : list nat) :
  Forall2 (fun q k => position q (qubit_order result) = inr k) qs ks ->
  has_duplicates ks = false ->
  density_matrix_of result qs
  = inr (partial_trace (length (qubit_order result)) (state_vector result) ks).
Proof.
  intros H Hnd. unfold density_matrix_of.
  assert (E : axes_of (qubit_order result) qs = inr ks).
  { unfold axes_of. induction H as [|q k qs ks Hq _ IH]; [reflexivity|].
    cbn [Py.mapM]. rewrite Hq, IH; [reflexivity|].
    cbn [has_duplicates] in Hnd. apply orb_false_elim in Hnd as [_ Hnd]. exact Hnd. }
  rewrite E. cbn [Py.bind]. rewrite Hnd. reflexivity.
Qed.

Lemma has_duplicates_two (j k : nat) : j <> k -> has_duplicates [j; k] = false.
Proof.
  intros H. cbn [has_duplicates existsb]. apply Nat.eqb_neq in H. rewrite H.
  reflexivity.
Qed.

Lemma product_rounded_quantities
      (result : SparseSimulatorStep) (A B C : Qid) (kA kB kC : nat)
      (psiA psiB psiC : ket) :
  length (qubit_order result) = 3%nat ->
  position A (qubit_order result) = inr kA ->
  position B (qubit_order result) = inr kB ->
  position C (qubit_order result) = inr kC ->
  kA <> kB -> kA <> kC -> kB <> kC ->
  (kA < 3)%nat -> (kB < 3)%nat -> (kC < 3)%nat ->
  state_vector result = product_state kA kB kC psiA psiB psiC ->
  norm2 psiA * norm2 psiB * norm2 psiC = 1 ->
  rounded_quantities result [A; B; C] = inr (0, 0, 0, 0, 0).
Proof.
  intros Hn HA HB HC AB AC BC LA LB LC Hsv Hnorm.
  destruct (product_invariants psiA psiB psiC kA kB kC)
    as (E1 & E2 & E3 & E4 & t & Et & Eh);
    [apply three_axes; assumption|].
  rewrite !norm2_C, <- !RtoC_mult, Hnorm in E1, E2, E3, E4.
  replace (1 * 1) with 1 in E1, E2, E3, E4 by ring.
  rewrite <- RtoC_mult in E4. replace (1 * 1) with 1 in E4 by ring.
  unfold rounded_quantities, invariants.
  cbn [Py.getitem lookup list_lookup Py.bind Py.ret].
  rewrite (position_axes result [C] [kC]) by (repeat constructor; assumption).
  rewrite (position_axes result [A; B] [kA; kB])
    by first [apply has_duplicates_two; assumption | repeat constructor; assumption].
  rewrite (position_axes result [A] [kA]) by (repeat constructor; assumption).
  rewrite (position_axes result [B] [kB]) by (repeat constructor; assumption).
  cbn [Py.bind]. rewrite Hn, Hsv, Et. cbn [Py.bind].
  rewrite E1, E2, E3, E4, Eh, Cabs_0. unfold Num.float, Py.ret.
  cbn [Py.bind RtoC fst].
  replace (0 ^ 2) with 0 by ring.
  rewrite derived_spec_j by lra. cbn [Py.bind Py.ret].
  unfold spec_j, rounded. rewrite sqrt_0.
  replace ((1 + 1 - 1 - 1 - 2 * 0) / 4) with 0 by field.
  replace ((1 - 1 + 1 - 1 - 2 * 0) / 4) with 0 by field.
  replace ((1 - 1 - 1 + 1 - 2 * 0) / 4) with 0 by field.
  replace ((3 - 3 * 1 - 3 * 1 - 1 + 4 * 1 - 2 * 0) / 4) with 0 by field.
  rewrite round_0. reflexivity.
Qed.

(** C7. For every three-qubit product state psiA (x) psiB (x) psiC of norm
    one, whatever axes of the state vector the qubits A, B, C sit on, the
    five rounded quantities are zero and the tripartite witness returns the
    fully separable verdict. *)
Theorem product_states_fully_separable
        (result : SparseSimulatorStep) (A B C : Qid) (kA kB kC : nat)
        (psiA psiB psiC : ket) :
  length (qubit_order result) = 3%nat ->
  position A (qubit_order result) = inr kA ->
  position B (qubit_order result) = inr kB ->
  position C (qubit_order result) = inr kC ->
  kA <> kB -> kA <> kC -> kB <> kC ->
  (kA < 3)%nat -> (kB < 3)%nat -> (kC < 3)%nat ->
  state_vector result = product_state kA kB kC psiA psiB psiC ->
  norm2 psiA * norm2 psiB * norm2 psiC = 1 ->
  rounded_quantities result [A; B; C] = inr (0, 0, 0, 0, 0)
  /\ detect_entanglement_tripartite result [A; B; C]
     = inr (false, "fully_separable"%string, None).
Proof.
  intros Hn HA HB HC AB AC BC LA LB LC Hsv Hnorm.
  assert (Hrj : rounded_quantities result [A; B; C] = inr (0, 0, 0, 0, 0))
    by (eapply product_rounded_quantities; eassumption).
  split; [exact Hrj|].
  unfold detect_entanglement_tripartite. rewrite Hrj. cbn [Py.bind].
  rewrite classify_cases, Reqb_refl. reflexivity.
Qed.

Lemma sample_product_rounded :
  rounded_quantities sample_product_step
    [Py.NamedQubit "msg"; Py.NamedQubit "alice"; Py.NamedQubit "bob"]
  = inr (0, 0, 0, 0, 0).
Proof.
  apply (product_rounded_quantities _ _ _ _ 0 1 2
           (RtoC 1, RtoC 0) (RtoC 0, RtoC 1) (RtoC 0, (0, 1)));
    try reflexivity; try lia.
  unfold norm2. cbn [fst snd RtoC]. ring.
Qed.

Lemma product_states_fully_separable_witness :
  detect_entanglement_tripartite sample_product_step
    [Py.NamedQubit "msg"; Py.NamedQubit "alice"; Py.NamedQubit "bob"]
  = inr (false, "fully_separable"%string, None).
Proof.
  apply (product_states_fully_separable _ _ _ _ 0 1 2
           (RtoC 1, RtoC 0) (RtoC 0, RtoC 1) (RtoC 0, (0, 1)));
    try reflexivity; try lia.
  unfold norm2. cbn [fst snd RtoC]. ring.
Defined.

Lemma tripartite_priority_order_witness :
  detect_entanglement_tripartite sample_product_step
    [Py.NamedQubit "msg"; Py.NamedQubit "alice"; Py.NamedQubit "bob"]
  = inr (false, "fully_separable"%string, None).
Proof.
  apply (tripartite_priority_order _ _ _ _ 0 0 0 0 0 sample_product_rounded).
  repeat split; reflexivity.
Defined.

Lemma tripartite_formulas_witness :
  exists i1 i2 i3 i4 i5,
    invariants sample_product_step
      [Py.NamedQubit "msg"; Py.NamedQubit "alice"; Py.NamedQubit "bob"]
    = inr (i1, i2, i3, i4, i5).
Proof.
  do 5 eexists.
  apply (tripartite_formulas
           sample_product_step
           (Py.NamedQubit "msg") (Py.NamedQubit "alice") (Py.NamedQubit "bob")
           (partial_trace 3 (state_vector sample_product_step) [0%nat])
           (partial_trace 3 (state_vector sample_product_step) [1%nat])
           (partial_trace 3 (state_vector sample_product_step) [2%nat])
           (partial_trace 3 (state_vector sample_product_step) [0%nat; 1%nat]));
    reflexivity.
Defined.

Lemma detection_never_raises_witness :
  exists v,
    detect_entanglement_tripartite sample_product_step
      [Py.NamedQubit "msg"; Py.NamedQubit "alice"; Py.NamedQubit "bob"]
    = inr v
    /\ v ∈ five_verdicts (Py.NamedQubit "msg") (Py.NamedQubit "alice")
                         (Py.NamedQubit "bob").
Proof.
  apply (proj1 detection_never_raises sample_product_step);
    try reflexivity; try discriminate; cbn; set_solver.
Defined.
(** ** Running a scenario to its final check *)

Lemma bloch_vectors_total
      (self : SteppingSimInterface.object) (s : SparseSimulatorStep) :
  (forall q, q ∈ dict_values (qubits self) -> q ∈ qubit_order s) ->
  exists bv, bloch_vectors_of self s = inr bv.
Proof.
  unfold bloch_vectors_of. generalize (dict_values (qubits self)) as qs.
  induction qs as [|q qs IH]; intros Hin.
  - exists []. reflexivity.
  - cbn [Py.mapM]. unfold bloch_vector_of at 1.
    destruct (density_matrix_total s [q] (NoDup_one q)) as [rho ->].
    { intros p Hp. apply Hin. set_solver. }
    cbn [Py.bind Py.ret].
    destruct IH as [bv Hbv]; [intros; apply Hin; right; assumption|].
    rewrite Hbv. eexists. reflexivity.
Qed.

Lemma step_yields (self : SteppingSimInterface.object)
      s it entangled bv m ms d ds :
  _sim_iter self = s :: it ->
  detect_entanglement (cls self) (qubits self) s = inr entangled ->
  bloch_vectors_of self s = inr bv ->
  _measurements self = m :: ms ->
  _desc self = d :: ds ->
  let ce := remove_measured (add_all (currently_entangled self) entangled) m in
  step self
  = ({| cls := cls self; qubits := qubits self; circuit := circuit self;
        bloch_states := bloch_states self ++ [bv];
        _sim_iter := it; _desc := ds; _measurements := ms;
        currently_entangled := ce |},
     inr (s, d, ce)).
Proof.
  intros Hit Hdet Hbv Hms Hds ce. unfold step.
  rewrite Hit. cbn [Py.next Py.ret set_sim_iter cls qubits].
  rewrite Hdet.
  change (bloch_vectors_of (set_sim_iter self it) s) with (bloch_vectors_of self s).
  rewrite Hbv. unfold set_bloch_states, set_sim_iter.
  cbn [_measurements bloch_states cls qubits circuit _sim_iter _desc
       currently_entangled].
  rewrite Hms. unfold set_measurements, set_currently_entangled, set_desc.
  cbn [Py.next Py.ret _measurements bloch_states cls qubits circuit _sim_iter
       _desc currently_entangled].
  rewrite Hds. reflexivity.
Qed.

Lemma step_exhausted (self : SteppingSimInterface.object) :
  _sim_iter self = [] -> step self = (self, inl Py.StopIteration).
Proof. intros H. unfold step. rewrite H. reflexivity. Qed.

Lemma run_through (c : SteppingSimInterface.class) :
  scenario c ->
  forall steps self last_seen,
    cls self = c -> qubits self = make_qubits (names c) ->
    _sim_iter self = steps -> Forall (valid_step c) steps ->
    length (_measurements self) = length steps ->
    length (_desc self) = length steps ->
    exists self' bvs,
      Forall2 (fun s bv => bloch_vectors_of self s = inr bv) steps bvs
      /\ bloch_states self' = bloch_states self ++ bvs
      /\ BasicSimulationWindow.run
           (S (length steps))
           {| BasicSimulationWindow.sim := self;
              BasicSimulationWindow.last_state := last_seen |}
         = Some ({| BasicSimulationWindow.sim := self';
                    BasicSimulationWindow.last_state :=
                      match last steps with Some s => Some s | None => last_seen end |},
                 BasicSimulationWindow.outcome_of_check
                   (check_results c (bloch_states self')
                      (match last steps with Some s => Some s | None => last_seen end))).
Proof.
  intros Hc. induction steps as [|s steps IH]; intros self last_seen Hcls Hq Hit Hv Hm Hd.
  - exists self, []. split; [constructor|]. split; [symmetry; apply app_nil_r|].
    cbn [BasicSimulationWindow.run length BasicSimulationWindow.execute_step
         BasicSimulationWindow.sim].
    unfold BasicSimulationWindow.execute_step. cbn [BasicSimulationWindow.sim].
    rewrite (step_exhausted self Hit). cbn [last BasicSimulationWindow.last_state].
    rewrite Hcls. destruct (check_results c (bloch_states self) last_seen); reflexivity.
  - apply Forall_cons in Hv as [Hs Hv].
    destruct (scenario_detect_total c s Hc Hs) as [entangled Hdet].
    destruct (bloch_vectors_total self s) as [bv Hbv].
    { rewrite Hq. apply Hs. }
    destruct (_measurements self) as [|m ms] eqn:Eqn1; [discriminate|].
    destruct (_desc self) as [|d ds] eqn:Eqn2; [discriminate|].
    assert (Hdet' : detect_entanglement (cls self) (qubits self) s = inr entangled)
      by (rewrite Hcls, Hq; exact Hdet).
    pose proof (step_yields self s steps entangled bv m ms d ds Hit Hdet' Hbv Eqn1 Eqn2)
      as Hstep.
    cbn zeta in Hstep.
    set (self1 := {| cls := cls self; qubits := qubits self; circuit := circuit self;
                     bloch_states := bloch_states self ++ [bv];
                     _sim_iter := steps; _desc := ds; _measurements := ms;
                     currently_entangled :=
                       remove_measured (add_all (currently_entangled self) entangled) m |})
      in Hstep.
    destruct (IH self1 (Some s)) as (self' & bvs & Hbvs & Hbs & Hrun);
      try reflexivity; try assumption.
    { cbn in Hm |- *. lia. }
    { cbn in Hd |- *. lia. }
    exists self', (bv :: bvs). split; [|split].
    + constructor; [exact Hbv|]. exact Hbvs.
    + rewrite Hbs. cbn [bloch_states self1]. rewrite <- app_assoc. reflexivity.
    + cbn [BasicSimulationWindow.run length].
      cbn [BasicSimulationWindow.run length] in Hrun.
      unfold BasicSimulationWindow.execute_step at 1.
      cbn [BasicSimulationWindow.sim]. rewrite Hstep.
      rewrite Hrun, (last_cons s steps). destruct (last steps); reflexivity.
Qed.
(** ** The teleportation circuit, gate by gate *)

Lemma sqrt_half_pos : 0 < R_sqrt.sqrt (1 / 2).
Proof. apply sqrt_lt_R0. lra. Qed.

Lemma sqrt_half_sq : R_sqrt.sqrt (1 / 2) * R_sqrt.sqrt (1 / 2) = 1 / 2.
Proof. apply sqrt_sqrt. lra. Qed.

(** Complex goals through their real and imaginary parts, with [s] standing
    for the square root of one half. *)
Ltac reals :=
  unfold half, RtoC, Cplus, Cmult, Cminus, Copp, Cconj; cbn [fst snd];
  generalize sqrt_half_pos sqrt_half_sq;
  generalize (R_sqrt.sqrt (1 / 2)); intros s Hs0 Hs2.

(** Lists of complex numbers, entry by entry and part by part. *)
Ltac entries :=
  repeat match goal with
         | |- cons _ _ = cons _ _ => apply (f_equal2 cons)
         | |- pair _ _ = pair _ _ => apply (f_equal2 pair)
         end;
  try reflexivity.

Section TeleportationStates.

Variables (al be : C).

Lemma tele_gate_1 :
  apply_unitary 3 H_unitary [0%nat] (tele_0 al be) = tele_1 al be.
Proof. ceval. repeat f_equal; ring. Qed.

Lemma tele_gate_2 :
  apply_unitary 3 CNOT_unitary [0%nat; 1%nat] (tele_1 al be) = tele_2 al be.
Proof. ceval. repeat f_equal; ring. Qed.

Lemma tele_gate_3 :
  apply_unitary 3 CNOT_unitary [2%nat; 0%nat] (tele_2 al be) = tele_3 al be.
Proof. ceval. repeat f_equal; ring. Qed.

Lemma tele_gate_4 :
  apply_unitary 3 H_unitary [2%nat] (tele_3 al be) = tele_4 al be.
Proof. ceval. repeat f_equal; ring. Qed.

Lemma tele_gate_7 (m a : bool) :
  apply_unitary 3 CNOT_unitary [0%nat; 1%nat] (tele_6 al be m a)
  = tele_7 al be m a.
Proof. destruct m, a; ceval; repeat f_equal; ring. Qed.

Lemma tele_gate_8 (m a : bool) :
  apply_unitary 3 CZ_unitary [2%nat; 1%nat] (tele_7 al be m a)
  = tele_8 al be m a.
Proof.
  destruct m, a; ceval; repeat f_equal; try ring.
  all: unfold RtoC, Cplus, Cmult, Copp; destruct be; cbn [fst snd]; f_equal; ring.
Qed.

Hypothesis norm : norm2 (al, be) = 1.

Lemma tele_prob_5 (m : bool) : probability 3 2 m (tele_4 al be) = 1 / 2.
Proof.
  revert norm. destruct al as [ar ai], be as [br bi]. unfold norm2. cbn [fst snd].
  intros norm. destruct m; ceval; reals; rewrite ?Hs2; nra.
Qed.

Lemma tele_measure_5 (m : bool) :
  collapse 3 2 m (tele_4 al be) = tele_5 al be m.
Proof.
  unfold collapse. rewrite tele_prob_5.
  destruct al as [ar ai], be as [br bi].
  destruct m; ceval; reals; entries; field; lra.
Qed.

Lemma tele_prob_6 (m a : bool) : probability 3 0 a (tele_5 al be m) = 1 / 2.
Proof.
  revert norm. destruct al as [ar ai], be as [br bi]. unfold norm2. cbn [fst snd].
  intros norm. destruct m, a; ceval; reals; rewrite ?Hs2; nra.
Qed.

Lemma tele_measure_6 (m a : bool) :
  collapse 3 0 a (tele_5 al be m) = tele_6 al be m a.
Proof.
  unfold collapse. rewrite tele_prob_6.
  destruct al as [ar ai], be as [br bi].
  destruct m, a; ceval; reals; entries; field; lra.
Qed.

End TeleportationStates.
(** ** Unfolding the simulation one moment at a time *)

Lemma simulate_from_gate u qs axes (c : list (list operation)) samples s :
  axes_of (qubit_order s) qs = inr axes ->
  simulate_from ([GateOperation u qs] :: c) samples s
  = let s' := {| qubit_order := qubit_order s;
                 state_vector :=
                   apply_unitary (length (qubit_order s)) u axes (state_vector s);
                 Cirq.measurements := Cirq.measurements s |} in
    match simulate_from c samples s' with
    | inl e => inl e
    | inr rest => inr (s' :: rest)
    end.
Proof.
  intros H. cbn [simulate_from act_on_moment act_on]. rewrite H. reflexivity.
Qed.

Lemma simulate_from_measure q key k (c : list (list operation)) samples s :
  position q (qubit_order s) = inr k ->
  simulate_from ([MeasurementOperation q key] :: c) samples s
  = let b := hd false samples in
    let s' := {| qubit_order := qubit_order s;
                 state_vector :=
                   collapse (length (qubit_order s)) k b (state_vector s);
                 Cirq.measurements :=
                   <[key := [bit_value b]]> (Cirq.measurements s) |} in
    match simulate_from c (tl samples) s' with
    | inl e => inl e
    | inr rest => inr (s' :: rest)
    end.
Proof.
  intros H. cbn [simulate_from act_on_moment act_on]. rewrite H. reflexivity.
Qed.

Ltac sim_gate axes :=
  match goal with
  | |- context [simulate_from ([GateOperation ?u ?qs] :: _) _ _] =>
      rewrite (simulate_from_gate u qs axes) by reflexivity;
      cbn [qubit_order state_vector Cirq.measurements length]
  end.

Ltac sim_measure k :=
  match goal with
  | |- context [simulate_from ([MeasurementOperation ?q ?key] :: _) _ _] =>
      rewrite (simulate_from_measure q key k) by reflexivity;
      cbn [qubit_order state_vector Cirq.measurements length]
  end.

Lemma message_ket_norm what_gate phase : norm2 (message_ket what_gate phase) = 1.
Proof.
  unfold message_ket, message_unitary, norm2.
  destruct (String.eqb what_gate "X").
  - unfold XPow_unitary, entry, Cexp_i, RtoC, Cmult, Cplus, Cminus.
    cbn [nth fst snd].
    pose proof (sin2_cos2 (PI * phase)) as H. unfold Rsqr in H. nra.
  - unfold ZPow_unitary, entry, RtoC. cbn [nth fst snd]. ring.
Qed.

Lemma message_gate what_gate phase :
  apply_unitary 3 (message_unitary what_gate phase) [2%nat] (zero_state 3)
  = tele_0 (fst (message_ket what_gate phase)) (snd (message_ket what_gate phase)).
Proof.
  unfold message_ket, message_unitary.
  destruct (String.eqb what_gate "X"); ceval; entries; ring.
Qed.

Lemma tele_simulation what_gate phase samples ops :
  QuantumTeleportation.circuit_definition what_gate phase
    (make_qubits ["msg"; "alice"; "bob"]%string) = inr ops ->
  simulate_moment_steps (Circuit_NEW ops) samples
  = inr (tele_steps (message_ket what_gate phase)
                    (hd false samples) (hd false (tl samples))).
Proof.
  intros Hops. cbn in Hops. injection Hops as <-.
  pose proof (message_ket_norm what_gate phase) as Hnorm.
  pose proof (message_gate what_gate phase) as Hgate.
  unfold simulate_moment_steps.
  assert (Hord : all_qubits_sorted
            (Circuit_NEW
               [QuantumTeleportation.setup_gate what_gate phase (Py.NamedQubit "msg");
                H_gate (Py.NamedQubit "alice");
                CNOT (Py.NamedQubit "alice") (Py.NamedQubit "bob");
                CNOT (Py.NamedQubit "msg") (Py.NamedQubit "alice");
                H_gate (Py.NamedQubit "msg"); measure (Py.NamedQubit "msg");
                measure (Py.NamedQubit "alice");
                CNOT (Py.NamedQubit "alice") (Py.NamedQubit "bob");
                CZ (Py.NamedQubit "msg") (Py.NamedQubit "bob")]) = tele_order).
  { unfold QuantumTeleportation.setup_gate.
    destruct (String.eqb what_gate "X"); reflexivity. }
  rewrite Hord. clear Hord.
  assert (Hsetup : QuantumTeleportation.setup_gate what_gate phase (Py.NamedQubit "msg")
                   = GateOperation (message_unitary what_gate phase) [Py.NamedQubit "msg"]).
  { unfold QuantumTeleportation.setup_gate, message_unitary.
    destruct (String.eqb what_gate "X"); reflexivity. }
  rewrite Hsetup. clear Hsetup.
  destruct (message_ket what_gate phase) as [al be] eqn:Eket.
  cbn [fst snd] in Hgate.
  unfold Circuit_NEW, tele_order, H_gate, CNOT, CZ, measure. cbn [map qubit_name].
  sim_gate ([2%nat]).
  rewrite Hgate.
  sim_gate ([0%nat]).
  rewrite tele_gate_1.
  sim_gate ([0%nat; 1%nat]).
  rewrite tele_gate_2.
  sim_gate ([2%nat; 0%nat]).
  rewrite tele_gate_3.
  sim_gate ([2%nat]).
  rewrite tele_gate_4.
  sim_measure (2%nat).
  rewrite (tele_measure_5 al be Hnorm).
  sim_measure (0%nat).
  rewrite (tele_measure_6 al be Hnorm).
  sim_gate ([0%nat; 1%nat]).
  rewrite tele_gate_7.
  sim_gate ([2%nat; 1%nat]).
  rewrite tele_gate_8.
  reflexivity.
Qed.
(** ** The final check of the teleportation scenario *)

Lemma all_eq_refl (l : list R) : all_eq l l = true.
Proof.
  unfold all_eq. induction l as [|x l IH]; [reflexivity|].
  cbn [combine forallb fst snd]. rewrite Reqb_refl. exact IH.
Qed.

Lemma bloch_vector_at (s : SparseSimulatorStep) (q : Qid) (k : nat) :
  position q (qubit_order s) = inr k ->
  bloch_vector_of s q = inr (bloch_at s k).
Proof.
  intros H. unfold bloch_vector_of.
  rewrite (position_axes s [q] [k]) by (repeat constructor; exact H).
  reflexivity.
Qed.

Lemma bloch_vectors_of_three (self : SteppingSimInterface.object)
      (s : SparseSimulatorStep) (q0 q1 q2 : Qid) (k0 k1 k2 : nat) :
  dict_values (qubits self) = [q0; q1; q2] ->
  position q0 (qubit_order s) = inr k0 ->
  position q1 (qubit_order s) = inr k1 ->
  position q2 (qubit_order s) = inr k2 ->
  bloch_vectors_of self s
  = inr [NumPy.around (bloch_at s k0) 6; NumPy.around (bloch_at s k1) 6;
         NumPy.around (bloch_at s k2) 6].
Proof.
  intros Hq H0 H1 H2. unfold bloch_vectors_of. rewrite Hq. cbn [Py.mapM].
  rewrite (bloch_vector_at s q0 k0 H0), (bloch_vector_at s q1 k1 H1),
    (bloch_vector_at s q2 k2 H2).
  reflexivity.
Qed.

(** The receiver ends with the Bloch vector the message started with. *)
Lemma tele_bloch_preserved (al be : C) (m a : bool) :
  bloch_at {| qubit_order := tele_order; state_vector := tele_8 al be m a;
              Cirq.measurements := <["alice" := [bit_value a]]>
                                     (<["msg" := [bit_value m]]> ∅) |} 1
  = bloch_at {| qubit_order := tele_order; state_vector := tele_0 al be;
                Cirq.measurements := ∅ |} 2.
Proof.
  destruct al as [ar ai], be as [br bi].
  unfold bloch_at. cbn [qubit_order state_vector length tele_order].
  destruct m, a; ceval; entries; unfold Cre, Cim, RtoC, Cplus, Cmult, Cminus, Cconj;
    cbn [fst snd]; ring.
Qed.

Lemma tele_steps_valid what_gate phase (psi : ket) (m a : bool) :
  Forall (valid_step (QuantumTeleportation.class what_gate phase))
         (tele_steps psi m a).
Proof.
  unfold tele_steps.
  repeat apply List.Forall_cons; try apply List.Forall_nil.
  all: split; [intros q Hq; cbn in Hq |- *; set_solver|].
  all: destruct m, a; reflexivity.
Qed.

Lemma tele_init what_gate phase samples :
  init (QuantumTeleportation.class what_gate phase) samples
  = inr {| cls := QuantumTeleportation.class what_gate phase;
           qubits := make_qubits ["msg"; "alice"; "bob"]%string;
           circuit :=
             Circuit_NEW
               [QuantumTeleportation.setup_gate what_gate phase (Py.NamedQubit "msg");
                H_gate (Py.NamedQubit "alice");
                CNOT (Py.NamedQubit "alice") (Py.NamedQubit "bob");
                CNOT (Py.NamedQubit "msg") (Py.NamedQubit "alice");
                H_gate (Py.NamedQubit "msg"); measure (Py.NamedQubit "msg");
                measure (Py.NamedQubit "alice");
                CNOT (Py.NamedQubit "alice") (Py.NamedQubit "bob");
                CZ (Py.NamedQubit "msg") (Py.NamedQubit "bob")];
           bloch_states := [];
           _sim_iter := tele_steps (message_ket what_gate phase)
                                   (hd false samples) (hd false (tl samples));
           _desc := QuantumTeleportation.description_sequence;
           _measurements :=
             [None; None; None; None; None; Some (Py.NamedQubit "msg");
              Some (Py.NamedQubit "alice"); None; None];
           currently_entangled := ∅ |}.
Proof.
  unfold init.
  cbn [names circuit_definition QuantumTeleportation.class].
  assert (Hops : QuantumTeleportation.circuit_definition what_gate phase
                   (make_qubits ["msg"; "alice"; "bob"]%string)
                 = inr [QuantumTeleportation.setup_gate what_gate phase (Py.NamedQubit "msg");
                        H_gate (Py.NamedQubit "alice");
                        CNOT (Py.NamedQubit "alice") (Py.NamedQubit "bob");
                        CNOT (Py.NamedQubit "msg") (Py.NamedQubit "alice");
                        H_gate (Py.NamedQubit "msg"); measure (Py.NamedQubit "msg");
                        measure (Py.NamedQubit "alice");
                        CNOT (Py.NamedQubit "alice") (Py.NamedQubit "bob");
                        CZ (Py.NamedQubit "msg") (Py.NamedQubit "bob")])
    by reflexivity.
  rewrite Hops. cbn [Py.bind].
  rewrite (tele_simulation what_gate phase samples _ Hops).
  reflexivity.
Qed.

(** C4. For every gate choice, every real phase and every pair of outcomes
    the simulator samples, the QuantumTeleportation scenario runs through
    its nine steps and its final check returns true: the Bloch vector of
    the message qubit recorded at step 0, [bloch_states[0][0]], equals the
    Bloch vector of the bob qubit recorded at the last step,
    [bloch_states[-1][2]], both rounded to 6 decimal places when they were
    recorded. *)
Theorem teleportation_final_check
        (what_gate : string) (phase : R) (samples : list bool) :
  exists self w,
    init (QuantumTeleportation.class what_gate phase) samples = inr self
    /\ BasicSimulationWindow.run 10 (BasicSimulationWindow.create self)
       = Some (w, BasicSimulationWindow.Checked true)
    /\ check_results (QuantumTeleportation.class what_gate phase)
         (bloch_states (BasicSimulationWindow.sim w))
         (BasicSimulationWindow.last_state w)
       = inr true
    /\ length (bloch_states (BasicSimulationWindow.sim w)) = 9%nat
    /\ exists (first final : list (list R)) (v : list R),
         bloch_states (BasicSimulationWindow.sim w) !! 0%nat = Some first
         /\ last (bloch_states (BasicSimulationWindow.sim w)) = Some final
         /\ first !! 0%nat = Some v
         /\ final !! 2%nat = Some v
         /\ length v = 3%nat.
Proof.
  set (c := QuantumTeleportation.class what_gate phase).
  set (m := hd false samples). set (a := hd false (tl samples)).
  destruct (message_ket what_gate phase) as [al be] eqn:Eket.
  pose proof (tele_init what_gate phase samples) as Hinit.
  fold c m a in Hinit. rewrite Eket in Hinit.
  match type of Hinit with _ = inr ?s => set (self := s) in Hinit end.
  destruct (run_through c (scenario_teleportation what_gate phase)
              (tele_steps (al, be) m a) self None)
    as (self' & bvs & Hbvs & Hbs & Hrun);
    try reflexivity.
  { apply tele_steps_valid. }
  assert (Hcheck : check_results c (bloch_states self')
                     (Some {| qubit_order := tele_order;
                              state_vector := tele_8 al be m a;
                              Cirq.measurements :=
                                <["alice" := [bit_value a]]>
                                  (<["msg" := [bit_value m]]> ∅) |})
                   = inr true
                   /\ length (bloch_states self') = 9%nat
                   /\ exists (first final : list (list R)) (v : list R),
                       bloch_states self' !! 0%nat = Some first
                       /\ last (bloch_states self') = Some final
                       /\ first !! 0%nat = Some v
                       /\ final !! 2%nat = Some v
                       /\ length v = 3%nat).
  { rewrite Hbs. cbn [bloch_states self app].
    unfold tele_steps in Hbvs. cbn [fst snd] in Hbvs.
    repeat match goal with
           | H : Forall2 _ (_ :: _) _ |- _ =>
               apply Forall2_cons_inv_l in H as (? & ? & ? & ? & ->)
           | H : Forall2 _ [] _ |- _ => apply Forall2_nil_inv_l in H as ->
           end.
    repeat match goal with
           | H : bloch_vectors_of self ?s = inr ?bv |- _ =>
               let E := fresh "E" in
               assert (E : bv = [NumPy.around (bloch_at s 2) 6;
                                 NumPy.around (bloch_at s 0) 6;
                                 NumPy.around (bloch_at s 1) 6])
                 by (assert (E' := bloch_vectors_of_three self s (Py.NamedQubit "msg")
                          (Py.NamedQubit "alice") (Py.NamedQubit "bob") 2 0 1
                          eq_refl eq_refl eq_refl eq_refl); congruence);
               clear H; subst bv
           end.
    split; [|split; [reflexivity|]].
    - change (check_results c) with (QuantumTeleportation.check_results).
      unfold QuantumTeleportation.check_results.
      cbn [Py.getitem Py.getlast lookup list_lookup last Py.bind Py.ret].
      rewrite tele_bloch_preserved. rewrite all_eq_refl. reflexivity.
    - do 3 eexists. cbn [lookup list_lookup last].
      split; [reflexivity|]. split; [reflexivity|]. split; [reflexivity|].
      split; [rewrite tele_bloch_preserved; reflexivity|].
      unfold bloch_at, NumPy.around. reflexivity. }
  destruct Hcheck as (Hcheck & Hlen & Hvec).
  exists self. eexists. split; [exact Hinit|].
  unfold BasicSimulationWindow.create.
  unfold tele_steps in Hrun. cbn [length last fst snd] in Hrun. rewrite Hcheck in Hrun.
  split; [exact Hrun|]. cbn [BasicSimulationWindow.sim BasicSimulationWindow.last_state].
  split; [exact Hcheck|]. split; [exact Hlen|exact Hvec].
Qed.
(** ** The Deutsch-Jozsa circuit, gate by gate *)

Lemma RtoC_m1 : RtoC (-1) = (- RtoC 1)%C.
Proof. unfold RtoC, Copp; cbn [fst snd]. f_equal; lra. Qed.

Lemma dj_gate_0 :
  apply_unitary 3 X_unitary [0%nat] (zero_state 3) = dj_0.
Proof. ceval. entries; ring. Qed.

Lemma dj_gate_1 : apply_unitary 3 H_unitary [1%nat] dj_0 = dj_1.
Proof. ceval. entries; ring. Qed.

Lemma dj_gate_2 : apply_unitary 3 H_unitary [2%nat] dj_1 = dj_2.
Proof. ceval. entries; ring. Qed.

Lemma dj_gate_3 : apply_unitary 3 H_unitary [0%nat] dj_2 = dj_3.
Proof. ceval. entries; ring. Qed.

Lemma dj_gate_4 (f00 f01 f10 f11 : bool) :
  apply_unitary 3 (oracle_of f00 f01 f10 f11)
                [1%nat; 2%nat; 0%nat] dj_3
  = dj_4 (RtoC (sign f00)) (RtoC (sign f01)) (RtoC (sign f10)) (RtoC (sign f11)).
Proof.
  destruct f00, f01, f10, f11; ceval; rewrite ?RtoC_m1; entries; ring.
Qed.

Section Signs.
Variables (s00 s01 s10 s11 : C).

Lemma dj_gate_5 :
  apply_unitary 3 H_unitary [1%nat] (dj_4 s00 s01 s10 s11) = dj_5 s00 s01 s10 s11.
Proof. ceval. entries; ring. Qed.

Lemma dj_gate_6 :
  apply_unitary 3 H_unitary [2%nat] (dj_5 s00 s01 s10 s11) = dj_6 s00 s01 s10 s11.
Proof. ceval. entries; ring. Qed.

Lemma dj_gate_7 :
  apply_unitary 3 H_unitary [0%nat] (dj_6 s00 s01 s10 s11) = dj_7 s00 s01 s10 s11.
Proof. ceval. rewrite RtoC_2. entries; ring. Qed.

End Signs.

Lemma half_sq : (half * half)%C = RtoC (1 / 2).
Proof.
  unfold half. rewrite <- RtoC_mult. f_equal. apply sqrt_half_sq.
Qed.

Lemma h6_eighth : h6 = RtoC (1 / 8).
Proof.
  unfold h6.
  replace (half * half * half * half * half * half)%C
    with ((half * half) * (half * half) * (half * half))%C by ring.
  rewrite half_sq, <- !RtoC_mult. f_equal. field.
Qed.

(** For an affine function, the constant and the balanced ones, the
    register ends in one basis state. *)
Lemma dj_7_affine (f00 f01 f10 : bool) :
  let f11 := xorb (xorb f00 f01) f10 in
  dj_7 (RtoC (sign f00)) (RtoC (sign f01)) (RtoC (sign f10)) (RtoC (sign f11))
  = dj_final (xorb f00 f10) (xorb f00 f01) (sign f00).
Proof.
  unfold dj_7. rewrite h6_eighth.
  destruct f00, f01, f10; cbn [xorb sign dj_final];
    unfold RtoC, Cplus, Cmult, Cminus; cbn [fst snd]; entries; field.
Qed.

Lemma sign_sq (b : bool) : sign b * sign b = 1.
Proof. destruct b; cbn [sign]; ring. Qed.

Section FinalMeasurements.

Variables (y1 y2 : bool) (sigma : R).
Hypothesis unit : sigma * sigma = 1.

Lemma dj_prob_q1 (b : bool) :
  probability 3 1 b (dj_final y1 y2 sigma) = if Bool.eqb b y1 then 1 else 0.
Proof.
  destruct b, y1, y2; ceval; unfold RtoC; cbn [fst snd]; nra.
Qed.

Lemma dj_prob_q2 (b : bool) :
  probability 3 2 b (dj_final y1 y2 sigma) = if Bool.eqb b y2 then 1 else 0.
Proof.
  destruct b, y1, y2; ceval; unfold RtoC; cbn [fst snd]; nra.
Qed.

Lemma dj_prob_control (b : bool) :
  probability 3 0 b (dj_final y1 y2 sigma) = if b then 1 else 0.
Proof.
  destruct b, y1, y2; ceval; unfold RtoC; cbn [fst snd]; nra.
Qed.

Lemma dj_collapse_q1 :
  collapse 3 1 y1 (dj_final y1 y2 sigma) = dj_final y1 y2 sigma.
Proof.
  unfold collapse. rewrite dj_prob_q1, Bool.eqb_reflx, sqrt_1.
  destruct y1, y2; ceval; unfold RtoC, Cmult; cbn [fst snd]; entries; field.
Qed.

Lemma dj_collapse_q2 :
  collapse 3 2 y2 (dj_final y1 y2 sigma) = dj_final y1 y2 sigma.
Proof.
  unfold collapse. rewrite dj_prob_q2, Bool.eqb_reflx, sqrt_1.
  destruct y1, y2; ceval; unfold RtoC, Cmult; cbn [fst snd]; entries; field.
Qed.

Lemma dj_collapse_control :
  collapse 3 0 true (dj_final y1 y2 sigma) = dj_final y1 y2 sigma.
Proof.
  unfold collapse. rewrite dj_prob_control, sqrt_1.
  destruct y1, y2; ceval; unfold RtoC, Cmult; cbn [fst snd]; entries; field.
Qed.

End FinalMeasurements.

(** ** The outcomes the simulator can sample *)

Lemma possible_from_gate u qs axes (c : list operation) samples s :
  axes_of (qubit_order s) qs = inr axes ->
  possible_from (GateOperation u qs :: c) samples s
  = possible_from c samples
      {| qubit_order := qubit_order s;
         state_vector :=
           apply_unitary (length (qubit_order s)) u axes (state_vector s);
         Cirq.measurements := Cirq.measurements s |}.
Proof.
  intros H. cbn [possible_from act_on]. rewrite H. reflexivity.
Qed.

Lemma possible_from_measure q key k (c : list operation) samples s :
  position q (qubit_order s) = inr k ->
  possible_from (MeasurementOperation q key :: c) samples s
  = (0 < probability (length (qubit_order s)) k (hd false samples)
                     (state_vector s)
     /\ possible_from c (tl samples)
          {| qubit_order := qubit_order s;
             state_vector :=
               collapse (length (qubit_order s)) k (hd false samples)
                        (state_vector s);
             Cirq.measurements :=
               <[key := [bit_value (hd false samples)]]> (Cirq.measurements s) |}).
Proof.
  intros H. cbn [possible_from act_on]. rewrite H. reflexivity.
Qed.

Ltac poss_gate H axes :=
  match type of H with
  | context [possible_from (GateOperation ?u ?qs :: _) _ _] =>
      rewrite (possible_from_gate u qs axes) in H by reflexivity;
      cbn [qubit_order state_vector Cirq.measurements length] in H
  end.

Ltac poss_measure H k :=
  match type of H with
  | context [possible_from (MeasurementOperation ?q ?key :: _) _ _] =>
      rewrite (possible_from_measure q key k) in H by reflexivity;
      cbn [qubit_order state_vector Cirq.measurements length] in H
  end.

Lemma positive_if (b : bool) : 0 < (if b then 1 else 0) -> b = true.
Proof. destruct b; [reflexivity|lra]. Qed.

Lemma dj_order_sorted oracle :
  all_qubits_sorted (Circuit_NEW (dj_ops oracle)) = dj_order.
Proof. reflexivity. Qed.

Lemma dj_possible (f00 f01 f10 : bool) (samples : list bool) :
  let f11 := xorb (xorb f00 f01) f10 in
  possible (Circuit_NEW
              (dj_ops (oracle_of f00 f01 f10 f11)))
           samples ->
  hd false samples = xorb f00 f10
  /\ hd false (tl samples) = xorb f00 f01
  /\ hd false (tl (tl samples)) = true.
Proof.
  intros f11 H. unfold possible in H. rewrite dj_order_sorted in H.
  unfold Circuit_NEW, dj_ops, dj_order, X_gate, H_gate, measure in H.
  cbn [map concat app qubit_name] in H.
  poss_gate H [0%nat]. rewrite dj_gate_0 in H.
  poss_gate H [1%nat]. rewrite dj_gate_1 in H.
  poss_gate H [2%nat]. rewrite dj_gate_2 in H.
  poss_gate H [0%nat]. rewrite dj_gate_3 in H.
  poss_gate H [1%nat; 2%nat; 0%nat]. rewrite dj_gate_4 in H.
  poss_gate H [1%nat]. rewrite dj_gate_5 in H.
  poss_gate H [2%nat]. rewrite dj_gate_6 in H.
  poss_gate H [0%nat]. rewrite dj_gate_7 in H.
  subst f11. rewrite dj_7_affine in H.
  pose proof (sign_sq f00) as Hunit.
  poss_measure H 1%nat. destruct H as [P1 H].
  rewrite (dj_prob_q1 _ _ _ Hunit) in P1.
  apply positive_if, Bool.eqb_prop in P1.
  rewrite P1 in H. rewrite (dj_collapse_q1 _ _ _ Hunit) in H.
  poss_measure H 2%nat. destruct H as [P2 H].
  rewrite (dj_prob_q2 _ _ _ Hunit) in P2.
  apply positive_if, Bool.eqb_prop in P2.
  rewrite P2 in H. rewrite (dj_collapse_q2 _ _ _ Hunit) in H.
  poss_measure H 0%nat. destruct H as [P3 H].
  rewrite (dj_prob_control _ _ _ Hunit) in P3.
  apply positive_if in P3.
  auto.
Qed.

Lemma dj_measure_q1 (f00 f01 f10 : bool) :
  collapse 3 1 (xorb f00 f10)
    (dj_7 (RtoC (sign f00)) (RtoC (sign f01)) (RtoC (sign f10))
          (RtoC (sign (xorb (xorb f00 f01) f10))))
  = dj_final (xorb f00 f10) (xorb f00 f01) (sign f00).
Proof.
  rewrite (dj_7_affine f00 f01 f10). apply dj_collapse_q1, sign_sq.
Qed.

Lemma dj_simulation (f00 f01 f10 : bool) (samples : list bool) :
  let f11 := xorb (xorb f00 f01) f10 in
  hd false samples = xorb f00 f10 ->
  hd false (tl samples) = xorb f00 f01 ->
  hd false (tl (tl samples)) = true ->
  simulate_moment_steps
    (Circuit_NEW
       (dj_ops (oracle_of f00 f01 f10 f11)))
    samples
  = inr (dj_steps (RtoC (sign f00)) (RtoC (sign f01)) (RtoC (sign f10))
                  (RtoC (sign f11)) (xorb f00 f10) (xorb f00 f01) (sign f00)).
Proof.
  intros f11 E1 E2 E3. subst f11. unfold simulate_moment_steps.
  rewrite dj_order_sorted.
  unfold Circuit_NEW, dj_ops, dj_order, X_gate, H_gate, measure.
  cbn [map qubit_name].
  pose proof (sign_sq f00) as Hunit.
  sim_gate [0%nat]. rewrite dj_gate_0.
  sim_gate [1%nat]. rewrite dj_gate_1.
  sim_gate [2%nat]. rewrite dj_gate_2.
  sim_gate [0%nat]. rewrite dj_gate_3.
  sim_gate [1%nat; 2%nat; 0%nat]. rewrite dj_gate_4.
  sim_gate [1%nat]. rewrite dj_gate_5.
  sim_gate [2%nat]. rewrite dj_gate_6.
  sim_gate [0%nat]. rewrite dj_gate_7.
  sim_measure 1%nat. rewrite E1, dj_measure_q1.
  sim_measure 2%nat. rewrite E2, (dj_collapse_q2 _ _ _ Hunit).
  sim_measure 0%nat. rewrite E3, (dj_collapse_control _ _ _ Hunit).
  reflexivity.
Qed.

Ltac goal_gate axes :=
  match goal with
  | |- context [possible_from (GateOperation ?u ?qs :: _) _ _] =>
      rewrite (possible_from_gate u qs axes) by reflexivity;
      cbn [qubit_order state_vector Cirq.measurements length]
  end.

Ltac goal_measure k :=
  match goal with
  | |- context [possible_from (MeasurementOperation ?q ?key :: _) _ _] =>
      rewrite (possible_from_measure q key k) by reflexivity;
      cbn [qubit_order state_vector Cirq.measurements length]
  end.

Lemma dj_possible_intro (f00 f01 f10 : bool) (samples : list bool) :
  let f11 := xorb (xorb f00 f01) f10 in
  hd false samples = xorb f00 f10 ->
  hd false (tl samples) = xorb f00 f01 ->
  hd false (tl (tl samples)) = true ->
  possible (Circuit_NEW
              (dj_ops (oracle_of f00 f01 f10 f11)))
           samples.
Proof.
  intros f11 E1 E2 E3. subst f11. unfold possible. rewrite dj_order_sorted.
  unfold Circuit_NEW, dj_ops, dj_order, X_gate, H_gate, measure.
  cbn [map concat app qubit_name].
  pose proof (sign_sq f00) as Hunit.
  goal_gate [0%nat]. rewrite dj_gate_0.
  goal_gate [1%nat]. rewrite dj_gate_1.
  goal_gate [2%nat]. rewrite dj_gate_2.
  goal_gate [0%nat]. rewrite dj_gate_3.
  goal_gate [1%nat; 2%nat; 0%nat]. rewrite dj_gate_4.
  goal_gate [1%nat]. rewrite dj_gate_5.
  goal_gate [2%nat]. rewrite dj_gate_6.
  goal_gate [0%nat]. rewrite dj_gate_7.
  rewrite dj_7_affine.
  goal_measure 1%nat. rewrite E1, (dj_prob_q1 _ _ _ Hunit), Bool.eqb_reflx.
  split; [lra|]. rewrite (dj_collapse_q1 _ _ _ Hunit).
  goal_measure 2%nat. rewrite E2, (dj_prob_q2 _ _ _ Hunit), Bool.eqb_reflx.
  split; [lra|]. rewrite (dj_collapse_q2 _ _ _ Hunit).
  goal_measure 0%nat. rewrite E3, (dj_prob_control _ _ _ Hunit).
  split; [lra|]. exact I.
Qed.

(** ** The final check of the Deutsch-Jozsa scenario *)

Lemma dj_steps_valid oracle s00 s01 s10 s11 y1 y2 sigma :
  Forall (valid_step (DeutschJozsa.class oracle))
         (dj_steps s00 s01 s10 s11 y1 y2 sigma).
Proof.
  unfold dj_steps.
  repeat apply List.Forall_cons; try apply List.Forall_nil.
  all: split; [intros q Hq; cbn in Hq |- *; set_solver|].
  all: destruct y1, y2; reflexivity.
Qed.

Lemma dj_check_iff bloch_states final :
  DeutschJozsa.check_results bloch_states (Some final) = inr true
  <-> DeutschJozsa.measured_bit (Cirq.measurements final) "q1" = inr 0%Z
      /\ DeutschJozsa.measured_bit (Cirq.measurements final) "q2" = inr 0%Z.
Proof.
  unfold DeutschJozsa.check_results.
  destruct (DeutschJozsa.measured_bit (Cirq.measurements final) "q1") as [e|b1];
    cbn [Py.bind].
  - split; [discriminate|intros [H _]; discriminate].
  - destruct (Z.eqb_spec b1 0) as [->|Hb1].
    + destruct (DeutschJozsa.measured_bit (Cirq.measurements final) "q2") as [e|b2];
        cbn [Py.bind Py.ret].
      * split; [discriminate|intros [_ H]; discriminate].
      * destruct (Z.eqb_spec b2 0) as [->|Hb2].
        -- split; auto.
        -- split; [discriminate|intros [_ H]; congruence].
    + split; [discriminate|intros [H _]; congruence].
Qed.

Lemma affine_of_constant_or_balanced (f00 f01 f10 f11 : bool) :
  is_constant f00 f01 f10 f11 || is_balanced f00 f01 f10 f11 = true ->
  f11 = xorb (xorb f00 f01) f10
  /\ is_constant f00 f01 f10 f11 = negb (xorb f00 f10) && negb (xorb f00 f01).
Proof. destruct f00, f01, f10, f11; cbn; intros H; try discriminate; auto. Qed.

Lemma array_def_oracle_text (f00 f01 f10 f11 : bool) :
  DeutschJozsaWindow.array_def (oracle_text f00 f01 f10 f11)
  = inr (oracle_of f00 f01 f10 f11).
Proof. destruct f00, f01, f10, f11; reflexivity. Qed.

Lemma oracle_text_acceptable (f00 f01 f10 f11 : bool) :
  DeutschSequenceValidator.validate (oracle_text f00 f01 f10 f11)
  = DeutschSequenceValidator.Acceptable.
Proof. destruct f00, f01, f10, f11; reflexivity. Qed.

Lemma dj_init (f00 f01 f10 : bool) (samples : list bool) :
  let f11 := xorb (xorb f00 f01) f10 in
  let oracle := oracle_of f00 f01 f10 f11 in
  possible (Circuit_NEW (dj_ops oracle)) samples ->
  init (DeutschJozsa.class oracle) samples
  = inr {| cls := DeutschJozsa.class oracle;
           qubits := make_qubits ["q1"; "q2"; "control"]%string;
           circuit := Circuit_NEW (dj_ops oracle);
           bloch_states := [];
           _sim_iter :=
             dj_steps (RtoC (sign f00)) (RtoC (sign f01)) (RtoC (sign f10))
                      (RtoC (sign f11)) (xorb f00 f10) (xorb f00 f01) (sign f00);
           _desc := DeutschJozsa.description_sequence;
           _measurements :=
             [Some Py.EmptyTuple; Some Py.EmptyTuple; Some Py.EmptyTuple;
              Some Py.EmptyTuple; Some Py.EmptyTuple; Some Py.EmptyTuple;
              Some Py.EmptyTuple; Some Py.EmptyTuple;
              Some (Py.NamedQubit "q1"); Some (Py.NamedQubit "q2");
              Some (Py.NamedQubit "control")];
           currently_entangled := ∅ |}.
Proof.
  intros f11 oracle Hposs.
  destruct (dj_possible f00 f01 f10 samples Hposs) as (E1 & E2 & E3).
  unfold init.
  cbn [names circuit_definition DeutschJozsa.class].
  change (DeutschJozsa.circuit_definition oracle
            (make_qubits ["q1"; "q2"; "control"]%string))
    with (@inr Py.exn _ (dj_ops oracle)).
  cbn [Py.bind]. subst oracle f11.
  rewrite (dj_simulation f00 f01 f10 samples E1 E2 E3).
  reflexivity.
Qed.

(** C6. The final check of the DeutschJozsa scenario returns true exactly
    when the record of the final step holds 0 for q1 and 0 for q2.  For the
    oracle built from the text of a constant function, "12345678" among
    them, every run the simulator can produce ends with the check returning
    true; for the text of a balanced function it ends with the check
    returning false. *)
Theorem deutsch_jozsa_final_check :
  (forall (bloch_states : list (list (list R))) (final : SparseSimulatorStep),
      DeutschJozsa.check_results bloch_states (Some final) = inr true
      <-> DeutschJozsa.measured_bit (Cirq.measurements final) "q1" = inr 0%Z
          /\ DeutschJozsa.measured_bit (Cirq.measurements final) "q2" = inr 0%Z)
  /\ oracle_text false false false false = "12345678"%string
  /\ (forall (f00 f01 f10 f11 : bool) (samples : list bool),
         is_constant f00 f01 f10 f11 || is_balanced f00 f01 f10 f11 = true ->
         possible (Circuit_NEW (dj_ops (oracle_of f00 f01 f10 f11))) samples ->
         exists w0 w,
           DeutschJozsaWindow.create_simulator
             (oracle_text f00 f01 f10 f11) samples = Some (inr w0)
           /\ BasicSimulationWindow.run 12 w0
              = Some (w, BasicSimulationWindow.Checked
                           (is_constant f00 f01 f10 f11))).
Proof.
  split; [exact dj_check_iff|]. split; [reflexivity|].
  intros f00 f01 f10 f11 samples Hf Hposs.
  destruct (affine_of_constant_or_balanced _ _ _ _ Hf) as [-> Hconst].
  rewrite Hconst.
  pose proof (dj_init f00 f01 f10 samples Hposs) as Hinit. cbn zeta in Hinit.
  set (f11 := xorb (xorb f00 f01) f10) in *.
  set (oracle := oracle_of f00 f01 f10 f11) in *.
  set (c := DeutschJozsa.class oracle) in *.
  set (y1 := xorb f00 f10) in *. set (y2 := xorb f00 f01) in *.
  match type of Hinit with _ = inr ?s => set (self := s) in Hinit end.
  destruct (run_through c (scenario_deutsch_jozsa oracle)
              (dj_steps (RtoC (sign f00)) (RtoC (sign f01)) (RtoC (sign f10))
                        (RtoC (sign f11)) y1 y2 (sign f00)) self None)
    as (self' & bvs & Hbvs & Hbs & Hrun);
    try reflexivity.
  { apply dj_steps_valid. }
  unfold dj_steps in Hrun. cbn [length last] in Hrun.
  assert (Hcheck :
            forall bs,
              check_results c bs
                (Some {| qubit_order := dj_order;
                         state_vector := dj_final y1 y2 (sign f00);
                         Cirq.measurements :=
                           <["control" := [1%Z]]>
                             (<["q2" := [bit_value y2]]>
                                (<["q1" := [bit_value y1]]> ∅)) |})
              = inr (negb y1 && negb y2)).
  { intros bs. change (check_results c) with DeutschJozsa.check_results.
    unfold DeutschJozsa.check_results, DeutschJozsa.measured_bit.
    cbn [Cirq.measurements].
    rewrite lookup_insert_ne by discriminate.
    rewrite lookup_insert_ne by discriminate.
    rewrite lookup_insert_eq.
    rewrite lookup_insert_ne by discriminate.
    rewrite lookup_insert_eq.
    destruct y1, y2; reflexivity. }
  rewrite Hcheck in Hrun.
  exists (BasicSimulationWindow.create self). eexists. split; [|exact Hrun].
  unfold DeutschJozsaWindow.create_simulator.
  rewrite oracle_text_acceptable, array_def_oracle_text. fold f11 oracle.
  cbn [Py.bind]. fold c. rewrite Hinit. reflexivity.
Qed.

Lemma deutsch_jozsa_final_check_witness :
  exists w0 w,
    DeutschJozsaWindow.create_simulator "12345678" [false; false; true]
    = Some (inr w0)
    /\ BasicSimulationWindow.run 12 w0
       = Some (w, BasicSimulationWindow.Checked true).
Proof.
  apply (proj2 (proj2 deutsch_jozsa_final_check)
           false false false false [false; false; true]).
  - reflexivity.
  - apply (dj_possible_intro false false false); reflexivity.
Defined.
(** ** The SimpleEntanglement circuit, gate by gate *)

Lemma simple_gate_0 : apply_unitary 2 H_unitary [0%nat] (zero_state 2) = simple_0.
Proof. ceval. entries; ring. Qed.

Lemma simple_gate_1 :
  apply_unitary 2 CNOT_unitary [0%nat; 1%nat] simple_0 = simple_1.
Proof. ceval. entries; ring. Qed.

Lemma simple_gate_2 : apply_unitary 2 Z_unitary [0%nat] simple_1 = simple_2.
Proof. ceval. rewrite RtoC_m1. entries; ring. Qed.

Lemma simple_gate_3 : apply_unitary 2 Z_unitary [1%nat] simple_2 = simple_3.
Proof. ceval. rewrite RtoC_m1. entries; ring. Qed.

Lemma simple_prob_4 (b : bool) : probability 2 0 b simple_3 = 1 / 2.
Proof. destruct b; ceval; reals; nra. Qed.

Lemma simple_measure_4 (b : bool) : collapse 2 0 b simple_3 = simple_4 b.
Proof.
  unfold collapse. rewrite simple_prob_4.
  destruct b; ceval; reals; entries; field; lra.
Qed.

Lemma simple_simulation (samples : list bool) ops :
  SimpleEntanglement.circuit_definition (make_qubits ["alice"; "bob"]%string)
  = inr ops ->
  simulate_moment_steps (Circuit_NEW ops) samples = inr (simple_steps samples).
Proof.
  intros Hops. cbn in Hops. injection Hops as <-.
  unfold simulate_moment_steps.
  change (all_qubits_sorted _) with simple_order.
  unfold Circuit_NEW, simple_order, H_gate, CNOT, Z_gate, measure.
  cbn [map qubit_name].
  sim_gate [0%nat]. rewrite simple_gate_0.
  sim_gate [0%nat; 1%nat]. rewrite simple_gate_1.
  sim_gate [0%nat]. rewrite simple_gate_2.
  sim_gate [1%nat]. rewrite simple_gate_3.
  sim_measure 0%nat. rewrite simple_measure_4.
  sim_measure 1%nat.
  reflexivity.
Qed.

(** ** The entangled set of the SimpleEntanglement scenario *)

Section SimpleRun.

Variable schmidt : vector -> nat * nat -> list R * matrix * matrix.

Let c := SimpleEntanglement.class schmidt.
Let verdict (s : SparseSimulatorStep) := detect_entanglement_bipartite schmidt s.

Lemma simple_step_yields (self : SteppingSimInterface.object) s it m ms d ds :
  cls self = c -> qubits self = make_qubits (names c) ->
  _sim_iter self = s :: it -> valid_step c s ->
  _measurements self = m :: ms -> _desc self = d :: ds ->
  exists bv,
    let ce := simple_update (currently_entangled self) (verdict s) m in
    step self
    = ({| cls := cls self; qubits := qubits self; circuit := circuit self;
          bloch_states := bloch_states self ++ [bv];
          _sim_iter := it; _desc := ds; _measurements := ms;
          currently_entangled := ce |},
       inr (s, d, ce)).
Proof.
  intros Hcls Hq Hit Hv Hm Hd.
  destruct (bloch_vectors_total self s) as [bv Hbv].
  { rewrite Hq. apply Hv. }
  exists bv.
  apply (step_yields self s it _ bv m ms d ds Hit); try assumption.
  rewrite Hcls, Hq. subst c. cbn [detect_entanglement SimpleEntanglement.class].
  apply (simple_detect_returns schmidt s).
Qed.

Lemma simple_run (n : nat) :
  forall (self : SteppingSimInterface.object) steps ms ds ver s d m v,
    cls self = c -> qubits self = make_qubits (names c) ->
    _sim_iter self = steps -> _measurements self = ms -> _desc self = ds ->
    Forall (valid_step c) steps ->
    Forall2 (fun s v => verdict s = v) steps ver ->
    steps !! n = Some s -> ds !! n = Some d -> ms !! n = Some m ->
    ver !! n = Some v ->
    (forall k, (k < n)%nat -> is_Some (ms !! k) /\ is_Some (ds !! k)) ->
    let before :=
      fold_left (fun ce vm => simple_update ce (fst vm) (snd vm))
                (zip (take n ver) (take n ms))
                (currently_entangled self) in
    currently_entangled (after_steps n self) = before
    /\ snd (step (after_steps n self)) = inr (s, d, simple_update before v m).
Proof.
  induction n as [|n IH];
    intros self steps ms ds ver s d m v Hcls Hq Hit Hm Hd Hv Hver Es Ed Em Ev Hk.
  - destruct steps as [|s0 steps]; try discriminate Es.
    destruct ms as [|m0 ms]; try discriminate Em.
    destruct ds as [|d0 ds]; try discriminate Ed.
    cbn in Es, Ed, Em. injection Es as ->. injection Ed as ->. injection Em as ->.
    apply Forall2_cons_inv_l in Hver as (v0 & ver' & Ev0 & Hver & ->).
    cbn in Ev. injection Ev as ->.
    apply Forall_cons in Hv as [Hs _].
    destruct (simple_step_yields self s steps m ms d ds Hcls Hq Hit Hs Hm Hd)
      as [bv Hstep].
    split; [reflexivity|].
    change (after_steps 0 self) with self. rewrite Hstep. cbn [snd].
    rewrite Ev0. reflexivity.
  - destruct steps as [|s0 steps]; try discriminate Es.
    apply Forall2_cons_inv_l in Hver as (v0 & ver' & Ev0 & Hver & ->).
    destruct (Hk O) as [[m0 Em0] [d0 Ed0]]; [lia|].
    destruct ms as [|m0' ms]; try discriminate Em0.
    destruct ds as [|d0' ds]; try discriminate Ed0.
    cbn in Es, Ed, Em, Ev.
    apply Forall_cons in Hv as [Hs Hv].
    destruct (simple_step_yields self s0 steps m0' ms d0' ds Hcls Hq Hit Hs Hm Hd)
      as [bv Hstep].
    cbn zeta in Hstep.
    match type of Hstep with _ = (?s1, _) => set (self1 := s1) in Hstep end.
    assert (Hiter : after_steps (S n) self = after_steps n self1).
    { unfold after_steps. rewrite Nat.iter_succ_r, Hstep. reflexivity. }
    rewrite Hiter. cbn [take zip zip_with fold_left fst snd].
    rewrite <- Ev0.
    apply (IH self1 steps ms ds ver'); try reflexivity; try assumption.
    intros k Hlt. apply (Hk (S k)). lia.
Qed.

End SimpleRun.

Lemma simple_steps_valid schmidt samples :
  Forall (valid_step (SimpleEntanglement.class schmidt)) (simple_steps samples).
Proof.
  unfold simple_steps.
  repeat apply List.Forall_cons; try apply List.Forall_nil.
  all: split; [intros q Hq; cbn in Hq |- *; set_solver|].
  all: try reflexivity.
  destruct (hd false samples); reflexivity.
Qed.

Lemma simple_init schmidt samples :
  init (SimpleEntanglement.class schmidt) samples
  = inr {| cls := SimpleEntanglement.class schmidt;
           qubits := make_qubits ["alice"; "bob"]%string;
           circuit :=
             Circuit_NEW
               [H_gate (Py.NamedQubit "alice");
                CNOT (Py.NamedQubit "alice") (Py.NamedQubit "bob");
                Z_gate (Py.NamedQubit "alice"); Z_gate (Py.NamedQubit "bob");
                measure (Py.NamedQubit "alice"); measure (Py.NamedQubit "bob")];
           bloch_states := [];
           _sim_iter := simple_steps samples;
           _desc := SimpleEntanglement.description_sequence;
           _measurements :=
             [None; None; None; None; Some (Py.NamedQubit "alice");
              Some (Py.NamedQubit "bob")];
           currently_entangled := ∅ |}.
Proof.
  unfold init. cbn [names circuit_definition SimpleEntanglement.class].
  assert (Hops : SimpleEntanglement.circuit_definition
                   (make_qubits ["alice"; "bob"]%string)
                 = inr [H_gate (Py.NamedQubit "alice");
                        CNOT (Py.NamedQubit "alice") (Py.NamedQubit "bob");
                        Z_gate (Py.NamedQubit "alice"); Z_gate (Py.NamedQubit "bob");
                        measure (Py.NamedQubit "alice");
                        measure (Py.NamedQubit "bob")])
    by reflexivity.
  rewrite Hops. cbn [Py.bind]. rewrite (simple_simulation samples _ Hops).
  reflexivity.
Qed.

Lemma emitted_after_alice (v0 v2 v3 : bool) :
  simple_update
    (simple_update
       (simple_update
          (simple_update (simple_update ∅ v0 None) true None) v2 None)
       v3 None)
    false (Some (Py.NamedQubit "alice"))
  = {[Py.EmptyTuple; Py.NamedQubit "bob"]}.
Proof. destruct v0, v2, v3; vm_compute; reflexivity. Qed.

(** C10. In the SimpleEntanglement scenario a step on which the bipartite
    witness reports no entanglement adds the empty tuple to the entangled
    set as a member that counts toward its size.  When the witness reports
    entanglement on the Bell state of step 1 and none on the state left by
    the measurement of alice, the step that measures alice emits the set
    holding the empty tuple and bob: size 2, not cleared, non-empty, and
    with one actual qubit. *)
Theorem simple_entanglement_keeps_empty_tuple
        (schmidt : vector -> nat * nat -> list R * matrix * matrix)
        (samples : list bool) :
  (forall (ce : gset Py.value) (simulation_step : SparseSimulatorStep),
      detect_entanglement_bipartite schmidt simulation_step = false ->
      exists entangled,
        SimpleEntanglement.detect_entanglement
          schmidt (make_qubits ["alice"; "bob"]%string) simulation_step
        = inr entangled
        /\ Py.EmptyTuple ∈ add_all ce entangled
        /\ size (add_all ∅ entangled) = 2%nat)
  /\ (forall s1 s4 : SparseSimulatorStep,
         simple_steps samples !! 1%nat = Some s1 ->
         simple_steps samples !! 4%nat = Some s4 ->
         detect_entanglement_bipartite schmidt s1 = true ->
         detect_entanglement_bipartite schmidt s4 = false ->
         exists self emitted,
           init (SimpleEntanglement.class schmidt) samples = inr self
           /\ snd (step (after_steps 4 self))
              = inr (s4, "Pomiar kubitu Alicji"%string, emitted)
           /\ emitted = {[Py.EmptyTuple; Py.NamedQubit "bob"]}
           /\ size emitted = 2%nat
           /\ size (actual_qubits emitted) = 1%nat).
Proof.
  split.
  - intros ce simulation_step Hv.
    pose proof (simple_detect_returns schmidt simulation_step) as Hd.
    cbn zeta in Hd. rewrite Hv in Hd.
    eexists. split; [exact Hd|]. split.
    + rewrite add_all_union. set_solver.
    + vm_compute. reflexivity.
  - intros s1 s4 E1 E4 V1 V4.
    pose proof (simple_init schmidt samples) as Hinit.
    match type of Hinit with _ = inr ?s => set (self := s) in Hinit end.
    exists self, {[Py.EmptyTuple; Py.NamedQubit "bob"]}.
    split; [exact Hinit|].
    assert (Hver : exists ver,
               Forall2 (fun s v => detect_entanglement_bipartite schmidt s = v)
                       (simple_steps samples) ver).
    { exists (map (detect_entanglement_bipartite schmidt) (simple_steps samples)).
      apply Forall2_fmap_r, Forall_Forall2_diag, Forall_forall. reflexivity. }
    destruct Hver as [ver Hver].
    assert (Hver' := Hver). unfold simple_steps in Hver'.
    repeat match goal with
           | H : Forall2 _ (_ :: _) _ |- _ =>
               apply Forall2_cons_inv_l in H as (? & ? & ? & ? & ->)
           | H : Forall2 _ [] _ |- _ => apply Forall2_nil_inv_l in H as ->
           end.
    cbn in E1, E4. injection E1 as <-. injection E4 as <-.
    match goal with
    | H : detect_entanglement_bipartite schmidt
            {| qubit_order := _; state_vector := simple_1; Cirq.measurements := _ |}
          = ?v |- _ => rewrite V1 in H; subst v
    end.
    match goal with
    | H : detect_entanglement_bipartite schmidt
            {| qubit_order := _; state_vector := simple_4 _; Cirq.measurements := _ |}
          = ?v |- _ => rewrite V4 in H; subst v
    end.
    edestruct (simple_run schmidt 4 self (simple_steps samples)) as [Hce Hout];
      try exact Hver; try reflexivity.
    { apply simple_steps_valid. }
    { intros k Hk. do 4 (destruct k as [|k]; [split; eexists; reflexivity|]). lia. }
    unfold self in Hout at 2 3.
    cbn [take zip zip_with fold_left fst snd currently_entangled _measurements] in Hout.
    rewrite emitted_after_alice in Hout.
    split; [exact Hout|]. split; [reflexivity|].
    split; vm_compute; reflexivity.
Qed.
(** ** The singular values of the Bell state and of a basis state *)

Lemma Cabs_sq (z : C) : Cabs z ^ 2 = fst z * fst z + snd z * snd z.
Proof.
  unfold Cabs. rewrite <- Rsqr_pow2, Rsqr_sqrt; [reflexivity|].
  nra.
Qed.

Lemma round_1 : Num.round 1 6 = 1.
Proof.
  unfold Num.round.
  replace (1 * 10 ^ 6) with (IZR 1000000) by (simpl; lra).
  rewrite rint_IZR. simpl. lra.
Qed.

Lemma svd_bell :
  fst (fst (svd_schmidt simple_1 (2, 2)%nat))
  = [R_sqrt.sqrt (1 / 2); R_sqrt.sqrt (1 / 2)].
Proof.
  unfold svd_schmidt, simple_1. cbn [nth fst]. rewrite !Cabs_sq.
  unfold half, RtoC, Cmult, Cminus. cbn [fst snd].
  pose proof sqrt_half_sq as Hs.
  replace (R_sqrt.sqrt (1 / 2) * R_sqrt.sqrt (1 / 2) + 0 * 0 + (0 * 0 + 0 * 0)
           + (0 * 0 + 0 * 0)
           + (R_sqrt.sqrt (1 / 2) * R_sqrt.sqrt (1 / 2) + 0 * 0))
    with 1 by lra.
  match goal with
  | |- context [R_sqrt.sqrt (1 ^ 2 - 4 * ?d)] =>
      replace (1 ^ 2 - 4 * d) with 0 by (rewrite !Hs; lra)
  end.
  rewrite sqrt_0.
  replace ((1 + 0) / 2) with (1 / 2) by lra.
  replace ((1 - 0) / 2) with (1 / 2) by lra.
  reflexivity.
Qed.

Lemma svd_basis (b : bool) :
  fst (fst (svd_schmidt (simple_4 b) (2, 2)%nat)) = [1; 0].
Proof.
  unfold svd_schmidt, simple_4.
  destruct b; cbn [nth fst]; rewrite !Cabs_sq;
    unfold RtoC, Cmult, Cminus; cbn [fst snd].
  all: match goal with
       | |- context [R_sqrt.sqrt (?t ^ 2 - 4 * ?d)] =>
           replace (t ^ 2 - 4 * d) with 1 by lra;
           replace t with 1 by lra
       end.
  all: rewrite sqrt_1.
  all: replace ((1 + 1) / 2) with 1 by lra; replace ((1 - 1) / 2) with 0 by lra.
  all: rewrite sqrt_1, sqrt_0; reflexivity.
Qed.

Lemma svd_detects_bell order ms :
  detect_entanglement_bipartite
    svd_schmidt
    {| qubit_order := order; state_vector := simple_1; Cirq.measurements := ms |}
  = true.
Proof.
  destruct (detect_entanglement_bipartite _ _) eqn:E; [reflexivity|].
  apply detect_bipartite_one_hot in E. cbn [state_vector] in E.
  rewrite svd_bell in E. cbn [NumPy.around map] in E.
  apply one_hot_cons in E as [[E1 F]|[E0 E]].
  - inversion F; subst. lra.
  - apply one_hot_cons in E as [[E1 _]|[_ (l1 & l2 & E & _)]]; [lra|].
    destruct l1; discriminate.
Qed.

Lemma svd_product_after_alice order ms (b : bool) :
  detect_entanglement_bipartite
    svd_schmidt
    {| qubit_order := order; state_vector := simple_4 b; Cirq.measurements := ms |}
  = false.
Proof.
  apply detect_bipartite_one_hot. cbn [state_vector].
  rewrite svd_basis. cbn [NumPy.around map]. rewrite round_1, round_0.
  exists [], [0]. repeat split; repeat constructor.
Qed.

Lemma simple_entanglement_keeps_empty_tuple_witness :
  exists self emitted,
    init (SimpleEntanglement.class svd_schmidt) [false; false] = inr self
    /\ snd (step (after_steps 4 self))
       = inr ({| qubit_order := simple_order; state_vector := simple_4 false;
                 Cirq.measurements := <["alice" := [0%Z]]> ∅ |},
              "Pomiar kubitu Alicji"%string, emitted)
    /\ emitted = {[Py.EmptyTuple; Py.NamedQubit "bob"]}
    /\ size emitted = 2%nat
    /\ size (actual_qubits emitted) = 1%nat.
Proof.
  apply (proj2 (simple_entanglement_keeps_empty_tuple svd_schmidt [false; false])
           {| qubit_order := simple_order; state_vector := simple_1;
              Cirq.measurements := ∅ |}
           {| qubit_order := simple_order; state_vector := simple_4 false;
              Cirq.measurements := <["alice" := [0%Z]]> ∅ |}).
  - reflexivity.
  - reflexivity.
  - apply svd_detects_bell.
  - apply svd_product_after_alice.
Defined.
(** ** The witness on the GHZ state and on a Bell pair beside a free qubit *)

Lemma round_quarter : Num.round (1 / 4) 6 = 1 / 4.
Proof.
  unfold Num.round.
  replace (1 / 4 * 10 ^ 6) with (IZR 250000) by (simpl; lra).
  rewrite rint_IZR. simpl. lra.
Qed.

Lemma sqrt_sixteenth : R_sqrt.sqrt (1 / 16) = 1 / 4.
Proof.
  replace (1 / 16) with ((1 / 4) * (1 / 4)) by lra.
  apply sqrt_square. lra.
Qed.

(** Entries of a density matrix: sums of products of the amplitudes, with
    the square of [sqrt (1/2)] rewritten. *)
Ltac density :=
  ceval; reals; entries;
  match goal with Hsq : ?s * ?s = 1 / 2 |- _ => rewrite ?Hsq end; lra.

(** Traces of products of density matrices with rational entries. *)
Ltac rational_trace :=
  ceval; unfold RtoC, Cplus, Cmult, Cre; cbn [fst snd]; lra.

Lemma ghz_densities :
  let v := state_vector ghz_step in
  let mixed := [[RtoC (1 / 2); RtoC 0]; [RtoC 0; RtoC (1 / 2)]] in
  partial_trace 3 v [0%nat] = mixed
  /\ partial_trace 3 v [1%nat] = mixed
  /\ partial_trace 3 v [2%nat] = mixed
  /\ partial_trace 3 v [0%nat; 1%nat]
     = [[RtoC (1 / 2); RtoC 0; RtoC 0; RtoC 0];
        [RtoC 0; RtoC 0; RtoC 0; RtoC 0];
        [RtoC 0; RtoC 0; RtoC 0; RtoC 0];
        [RtoC 0; RtoC 0; RtoC 0; RtoC (1 / 2)]].
Proof. repeat split; density. Qed.

Lemma ghz_invariants :
  invariants ghz_step [Py.NamedQubit "A"; Py.NamedQubit "B"; Py.NamedQubit "C"]
  = inr (1 / 2, 1 / 2, 1 / 2, 1 / 4, 1 / 16).
Proof.
  destruct ghz_densities as (EA & EB & EC & EAB).
  unfold invariants. cbn [Py.getitem lookup list_lookup Py.bind Py.ret].
  rewrite (position_axes ghz_step [_] [2%nat]) by (repeat constructor).
  rewrite (position_axes ghz_step [_; _] [0%nat; 1%nat]) by (repeat constructor).
  rewrite (position_axes ghz_step [_] [0%nat]) by (repeat constructor).
  rewrite (position_axes ghz_step [_] [1%nat]) by (repeat constructor).
  change (length (qubit_order ghz_step)) with 3%nat.
  rewrite EA, EB, EC, EAB.
  unfold ghz_step, pure_step. cbn [state_vector reshape222].
  unfold Py.ret. cbn [Py.bind]. rewrite hdet_spec_h, Cabs_sq.
  unfold Num.float. apply f_equal. repeat apply f_equal2.
  all: try rational_trace.
  all: ceval; unfold Csqr; reals; rewrite ?Hs2; lra.
Qed.

Example ghz_is_tripartite :
  detect_entanglement_tripartite
    ghz_step [Py.NamedQubit "A"; Py.NamedQubit "B"; Py.NamedQubit "C"]
  = inr (true, "tripartite"%string,
         Some [Py.NamedQubit "A"; Py.NamedQubit "B"; Py.NamedQubit "C"]).
Proof.
  unfold detect_entanglement_tripartite, rounded_quantities.
  rewrite ghz_invariants. cbn [Py.bind].
  rewrite derived_spec_j by lra. cbn [Py.bind Py.ret].
  unfold spec_j, rounded. rewrite sqrt_sixteenth.
  replace ((1 + 1 / 2 - 1 / 2 - 1 / 2 - 2 * (1 / 4)) / 4) with 0 by lra.
  replace ((1 - 1 / 2 + 1 / 2 - 1 / 2 - 2 * (1 / 4)) / 4) with 0 by lra.
  replace ((1 - 1 / 2 - 1 / 2 + 1 / 2 - 2 * (1 / 4)) / 4) with 0 by lra.
  rewrite round_0, round_quarter, classify_cases, Reqb_refl.
  assert (E : Reqb (1 / 4) 0 = false) by (apply Reqb_false; lra).
  rewrite E. reflexivity.
Qed.

Lemma bell_ab_densities :
  let v := state_vector bell_ab_step in
  let mixed := [[RtoC (1 / 2); RtoC 0]; [RtoC 0; RtoC (1 / 2)]] in
  partial_trace 3 v [0%nat] = mixed
  /\ partial_trace 3 v [1%nat] = mixed
  /\ partial_trace 3 v [2%nat] = [[RtoC 1; RtoC 0]; [RtoC 0; RtoC 0]]
  /\ partial_trace 3 v [0%nat; 1%nat]
     = [[RtoC (1 / 2); RtoC 0; RtoC 0; RtoC (1 / 2)];
        [RtoC 0; RtoC 0; RtoC 0; RtoC 0];
        [RtoC 0; RtoC 0; RtoC 0; RtoC 0];
        [RtoC (1 / 2); RtoC 0; RtoC 0; RtoC (1 / 2)]].
Proof. repeat split; density. Qed.

Lemma bell_ab_invariants :
  invariants bell_ab_step
    [Py.NamedQubit "A"; Py.NamedQubit "B"; Py.NamedQubit "C"]
  = inr (1 / 2, 1 / 2, 1, 1 / 4, 0).
Proof.
  destruct bell_ab_densities as (EA & EB & EC & EAB).
  unfold invariants. cbn [Py.getitem lookup list_lookup Py.bind Py.ret].
  rewrite (position_axes bell_ab_step [_] [2%nat]) by (repeat constructor).
  rewrite (position_axes bell_ab_step [_; _] [0%nat; 1%nat]) by (repeat constructor).
  rewrite (position_axes bell_ab_step [_] [0%nat]) by (repeat constructor).
  rewrite (position_axes bell_ab_step [_] [1%nat]) by (repeat constructor).
  change (length (qubit_order bell_ab_step)) with 3%nat.
  rewrite EA, EB, EC, EAB.
  unfold bell_ab_step, pure_step. cbn [state_vector reshape222].
  unfold Py.ret. cbn [Py.bind]. rewrite hdet_spec_h, Cabs_sq.
  unfold Num.float. apply f_equal. repeat apply f_equal2.
  all: try rational_trace.
  all: ceval; unfold Csqr; reals; rewrite ?Hs2; lra.
Qed.

Example bell_ab_is_bipartite :
  detect_entanglement_tripartite
    bell_ab_step [Py.NamedQubit "A"; Py.NamedQubit "B"; Py.NamedQubit "C"]
  = inr (true, "bipartite"%string,
         Some [Py.NamedQubit "A"; Py.NamedQubit "B"]).
Proof.
  unfold detect_entanglement_tripartite, rounded_quantities.
  rewrite bell_ab_invariants. cbn [Py.bind].
  rewrite derived_spec_j by lra. cbn [Py.bind Py.ret].
  unfold spec_j, rounded. rewrite sqrt_0.
  replace ((1 + 1 / 2 - 1 / 2 - 1 - 2 * 0) / 4) with 0 by lra.
  replace ((1 - 1 / 2 + 1 / 2 - 1 - 2 * 0) / 4) with 0 by lra.
  replace ((1 - 1 / 2 - 1 / 2 + 1 - 2 * 0) / 4) with (1 / 4) by lra.
  replace ((3 - 3 * (1 / 2) - 3 * (1 / 2) - 1 + 4 * (1 / 4) - 2 * 0) / 4)
    with 0 by lra.
  rewrite round_0, round_quarter, classify_cases, Reqb_refl.
  assert (E : Reqb (1 / 4) 0 = false) by (apply Reqb_false; lra).
  rewrite E. reflexivity.
Qed.

(* ===================================================================== *)
(** * Part III: further properties *)
(* ===================================================================== *)

(** ** The validator of the oracle text *)

Section Validator.
Import DeutschSequenceValidator.

Lemma in_alphabet_symbols (c : ascii) : in_alphabet c = true <-> c ∈ symbols.
Proof.
  split.
  - unfold in_alphabet. intros H.
    apply andb_prop in H as [H1 H2].
    apply Nat.leb_le in H1, H2.
    rewrite <- (ascii_nat_embedding c).
    assert (E : nat_of_ascii c ∈ seq 49 8) by (apply elem_of_seq; lia).
    cbn in E. revert E. generalize (nat_of_ascii c). intros n E.
    repeat (apply elem_of_cons in E as [->|E]; [vm_compute; set_solver|]).
    inversion E.
  - intros H. unfold symbols in H. cbn in H.
    repeat (apply elem_of_cons in H as [->|H]; [reflexivity|]).
    inversion H.
Qed.

Lemma count_le_length (arg : list ascii) (x : ascii) :
  (count arg x <= length arg)%nat.
Proof. unfold count. apply length_filter. Qed.

Lemma count_cons (c x : ascii) (arg : list ascii) :
  count (c :: arg) x = ((if bool_decide (c = x) then 1 else 0) + count arg x)%nat.
Proof.
  unfold count. rewrite filter_cons. case_bool_decide; case_decide; try tauto; reflexivity.
Qed.

Lemma count_zero (arg : list ascii) (x : ascii) : x ∉ arg -> count arg x = 0%nat.
Proof.
  induction arg as [|c arg IH]; intros H; [reflexivity|].
  rewrite count_cons, IH by set_solver.
  case_bool_decide; [subst; set_solver|reflexivity].
Qed.

Lemma count_pos (arg : list ascii) (x : ascii) : x ∈ arg -> (0 < count arg x)%nat.
Proof.
  induction arg as [|c arg IH]; intros H; [inversion H|].
  rewrite count_cons. case_bool_decide; [lia|].
  apply elem_of_cons in H as [->|H]; [congruence|]. specialize (IH H). lia.
Qed.

Lemma NoDup_count (arg : list ascii) :
  NoDup arg <-> forall x, (count arg x <= 1)%nat.
Proof.
  induction arg as [|c arg IH].
  - split; [intros _ x; cbn; lia|constructor].
  - rewrite NoDup_cons, IH. split.
    + intros [Hc H] x. rewrite count_cons. case_bool_decide.
      * subst. rewrite count_zero by assumption. lia.
      * specialize (H x). lia.
    + intros H. split.
      * intros Hc. apply count_pos in Hc. specialize (H c).
        rewrite count_cons, bool_decide_eq_true_2 in H by reflexivity. lia.
      * intros x. specialize (H x). rewrite count_cons in H. lia.
Qed.

Lemma count_Permutation (a b : list ascii) (x : ascii) :
  a ≡ₚ b -> count a x = count b x.
Proof. intros H. unfold count. rewrite H. reflexivity. Qed.

Lemma has_repeats_iff (chars : list ascii) :
  existsb (fun x => (1 <? count chars x)%nat) symbols = true
  <-> exists x, x ∈ symbols /\ (2 <= count chars x)%nat.
Proof.
  rewrite existsb_exists. split; intros (x & Hx & H); exists x.
  - apply list_elem_of_In in Hx. apply Nat.ltb_lt in H. split; [assumption|lia].
  - split; [apply list_elem_of_In; assumption|apply Nat.ltb_lt; lia].
Qed.

Lemma symbols_iff (chars : list ascii) :
  forallb in_alphabet chars = true <-> Forall (fun c => c ∈ symbols) chars.
Proof.
  rewrite forallb_forall, Forall_forall.
  split; intros H c Hc.
  - apply in_alphabet_symbols, H, list_elem_of_In, Hc.
  - apply in_alphabet_symbols, H, list_elem_of_In, Hc.
Qed.

(** The full pattern matches eight symbols, and eight symbols followed by
    one line feed. *)
Lemma full_iff (chars : list ascii) :
  _regexp chars = true
  <-> exists d, Forall (fun c => c ∈ symbols) d /\ length d = 8%nat
                /\ (chars = d \/ chars = d ++ ["010"%char]).
Proof.
  unfold _regexp. rewrite !andb_true_iff, Nat.eqb_eq, symbols_iff. split.
  - intros [[Hs Hl] He]. exists (take 8 chars). split; [exact Hs|]. split; [exact Hl|].
    rewrite <- (take_drop 8 chars) at 1 3.
    destruct (drop 8 chars) as [|c [|c' rest]]; cbn [at_end] in He.
    + left. apply app_nil_r.
    + right. apply Ascii.eqb_eq in He. subst c. reflexivity.
    + discriminate.
  - intros (d & Hs & Hl & [->| ->]).
    + rewrite (take_ge d 8), (drop_ge d 8) by lia. auto.
    + rewrite take_app_length', drop_app_length' by (symmetry; exact Hl).
      auto.
Qed.

Lemma full_short (chars : list ascii) :
  (length chars < 8)%nat -> _regexp chars = false.
Proof.
  intros H. unfold _regexp.
  replace (length (take 8 chars) =? 8)%nat with false.
  - rewrite andb_false_r. reflexivity.
  - symmetry. apply Nat.eqb_neq. rewrite length_take. lia.
Qed.

Lemma validate_cases (text : string) :
  let chars := list_ascii_of_string text in
  validate text
  = if existsb (fun x => (1 <? count chars x)%nat) symbols then Invalid
    else if _regexp chars then Acceptable
         else Intermediate.
Proof.
  unfold validate, _partial_regexp. cbn zeta.
  destruct (existsb _ symbols), (_regexp _); reflexivity.
Qed.

(** X1. A text is rejected exactly when one of the digits 1 to 8 occurs in
    it more than once; neither its length nor a character outside 1 to 8
    makes it invalid. *)
Theorem validate_invalid_iff_repeated_digit (text : string) :
  validate text = Invalid
  <-> exists x, x ∈ symbols /\ (2 <= count (list_ascii_of_string text) x)%nat.
Proof.
  rewrite validate_cases. cbn zeta. rewrite <- has_repeats_iff.
  destruct (existsb _ symbols); [tauto|].
  destruct (_regexp _); split; discriminate.
Qed.

Lemma count_line_feed (d : list ascii) (x : ascii) :
  x ∈ symbols -> count (d ++ ["010"%char]) x = count d x.
Proof.
  intros Hx. unfold count. rewrite filter_app, length_app.
  rewrite (filter_cons_False _ "010"%char).
  - rewrite filter_nil. cbn [length]. lia.
  - intros E. subst x. unfold symbols in Hx. cbn in Hx.
    repeat (apply elem_of_cons in Hx as [Hx|Hx]; [discriminate|]). inversion Hx.
Qed.

Lemma has_repeats_line_feed (d : list ascii) :
  existsb (fun x => (1 <? count (d ++ ["010"%char]) x)%nat) symbols
  = existsb (fun x => (1 <? count d x)%nat) symbols.
Proof.
  assert (H : forall l, (forall x, x ∈ l -> x ∈ symbols) ->
                        existsb (fun x => (1 <? count (d ++ ["010"%char]) x)%nat) l
                        = existsb (fun x => (1 <? count d x)%nat) l).
  { induction l as [|x l IH]; intros Hl; [reflexivity|].
    cbn [existsb]. rewrite count_line_feed by (apply Hl; left).
    rewrite IH; [reflexivity|]. intros y Hy. apply Hl. right. exact Hy. }
  apply H. auto.
Qed.

(** Eight symbols without a repeated one are the eight symbols. *)
Lemma symbols_Permutation (d : list ascii) :
  Forall (fun c => c ∈ symbols) d -> length d = 8%nat ->
  existsb (fun x => (1 <? count d x)%nat) symbols = false ->
  d ≡ₚ symbols.
Proof.
  intros Hin Hlen Er.
  assert (Hnd : NoDup d).
  { apply NoDup_count. intros x.
    destruct (decide (x ∈ d)) as [Hx|Hx]; [|rewrite count_zero by assumption; lia].
    destruct (le_lt_dec (count d x) 1) as [|Hgt]; [assumption|].
    assert (existsb (fun x => (1 <? count d x)%nat) symbols = true); [|congruence].
    apply has_repeats_iff. exists x. split; [|lia].
    rewrite Forall_forall in Hin. apply Hin, Hx. }
  apply submseteq_length_Permutation.
  - apply NoDup_submseteq; [assumption|]. rewrite Forall_forall in Hin. exact Hin.
  - rewrite Hlen. reflexivity.
Qed.

Lemma Permutation_symbols (d : list ascii) :
  d ≡ₚ symbols ->
  Forall (fun c => c ∈ symbols) d /\ length d = 8%nat
  /\ existsb (fun x => (1 <? count d x)%nat) symbols = false.
Proof.
  intros Hp. split; [|split].
  - apply Forall_forall. intros c Hc. rewrite <- Hp. exact Hc.
  - rewrite Hp. reflexivity.
  - destruct (existsb _ symbols) eqn:Er; [|reflexivity].
    apply has_repeats_iff in Er as (x & Hx & Hc).
    rewrite (count_Permutation _ _ x Hp) in Hc.
    unfold symbols in Hx. cbn in Hx.
    repeat (apply elem_of_cons in Hx as [->|Hx]; [vm_compute in Hc; lia|]).
    inversion Hx.
Qed.

(** The acceptable texts: the permutations of the eight symbols, and these
    followed by one line feed. *)
Lemma acceptable_cases (text : string) :
  validate text = Acceptable
  <-> exists d, d ≡ₚ symbols
                /\ (list_ascii_of_string text = d
                    \/ list_ascii_of_string text = d ++ ["010"%char]).
Proof.
  rewrite validate_cases. cbn zeta.
  set (chars := list_ascii_of_string text). split.
  - intros H.
    destruct (existsb _ symbols) eqn:Er; [discriminate|].
    destruct (_regexp chars) eqn:Ef; [|discriminate].
    apply full_iff in Ef as (d & Hin & Hlen & Hd).
    exists d. split; [|exact Hd].
    apply symbols_Permutation; try assumption.
    destruct Hd as [Hd|Hd]; rewrite Hd in Er; [exact Er|].
    rewrite has_repeats_line_feed in Er. exact Er.
  - intros (d & Hp & Hd).
    destruct (Permutation_symbols d Hp) as (Hin & Hlen & Er).
    assert (Ef : _regexp chars = true) by (apply full_iff; exists d; auto).
    rewrite Ef.
    destruct Hd as [Hd|Hd]; rewrite Hd; [|rewrite has_repeats_line_feed];
      rewrite Er; reflexivity.
Qed.

Lemma single_line_app (d : list ascii) (text : string) :
  list_ascii_of_string text = d ++ ["010"%char] -> ~ single_line text.
Proof.
  intros E H. apply H. rewrite E. apply elem_of_app. right. left.
Qed.

Lemma symbols_single_line (d : list ascii) (text : string) :
  d ≡ₚ symbols -> list_ascii_of_string text = d -> single_line text.
Proof.
  intros Hp E. unfold single_line. rewrite E, Hp. unfold symbols. cbn. intros H.
  repeat (apply elem_of_cons in H as [H|H]; [discriminate|]). inversion H.
Qed.

Lemma acceptable_iff (text : string) :
  single_line text ->
  validate text = Acceptable <-> list_ascii_of_string text ≡ₚ symbols.
Proof.
  intros Hs. rewrite acceptable_cases. split.
  - intros (d & Hp & [E|E]); [rewrite E; exact Hp|].
    destruct (single_line_app d text E Hs).
  - intros Hp. exists (list_ascii_of_string text). auto.
Qed.

(** An acceptable text that holds a line feed ends with it. *)
Lemma acceptable_line_feed (text : string) :
  validate text = Acceptable -> ~ single_line text ->
  exists d, d ≡ₚ symbols /\ list_ascii_of_string text = d ++ ["010"%char].
Proof.
  intros Ha Hs. apply acceptable_cases in Ha as (d & Hp & [E|E]).
  - destruct Hs. exact (symbols_single_line d text Hp E).
  - exists d. auto.
Qed.

(** X2. A single-line text is acceptable exactly when it is a permutation of
    the digits 12345678: each digit once and nothing else. *)
Theorem validate_acceptable_iff_permutation (text : string) :
  single_line text ->
  (validate text = Acceptable <-> list_ascii_of_string text ≡ₚ symbols).
Proof. apply acceptable_iff. Qed.

Lemma validate_acceptable_iff_permutation_witness :
  validate "35172846" = Acceptable
  <-> list_ascii_of_string "35172846" ≡ₚ symbols.
Proof.
  apply (validate_acceptable_iff_permutation "35172846").
  unfold single_line. cbn. intros H.
  repeat (apply elem_of_cons in H as [H|H]; [discriminate|]). inversion H.
Defined.

Lemma list_ascii_app (a b : string) :
  list_ascii_of_string (a ++ b) = list_ascii_of_string a ++ list_ascii_of_string b.
Proof.
  induction a as [|c a IH]; [reflexivity|].
  change (c :: list_ascii_of_string (a ++ b)
          = c :: (list_ascii_of_string a ++ list_ascii_of_string b)).
  f_equal. exact IH.
Qed.

Lemma count_app (a b : list ascii) (x : ascii) :
  count (a ++ b) x = (count a x + count b x)%nat.
Proof. unfold count. rewrite filter_app, length_app. reflexivity. Qed.

(** X3. Typing is never blocked on the way to an acceptable text: every
    proper prefix of an acceptable single-line text is intermediate. *)
Theorem validate_prefix_intermediate (typed rest : string) :
  single_line (typed ++ rest) ->
  validate (typed ++ rest) = Acceptable ->
  rest <> ""%string ->
  validate typed = Intermediate.
Proof.
  intros Hs Hacc Hrest.
  assert (Hp := proj1 (acceptable_iff _ Hs) Hacc).
  rewrite list_ascii_app in Hp.
  rewrite validate_cases. cbn zeta.
  set (chars := list_ascii_of_string typed) in *.
  assert (Er : existsb (fun x => (1 <? count chars x)%nat) symbols = false).
  { destruct (existsb _ symbols) eqn:Er; [|reflexivity].
    apply has_repeats_iff in Er as (x & Hx & Hc).
    assert (Hc' : (2 <= count symbols x)%nat).
    { rewrite <- (count_Permutation _ _ x Hp), count_app. lia. }
    unfold symbols in Hx. cbn in Hx.
    repeat (apply elem_of_cons in Hx as [->|Hx]; [vm_compute in Hc'; lia|]).
    inversion Hx. }
  rewrite Er.
  assert (Hlen : (length chars < 8)%nat).
  { apply Permutation_length in Hp. rewrite length_app in Hp.
    change (length symbols) with 8%nat in Hp.
    destruct rest as [|c rest]; [congruence|]. cbn in Hp. lia. }
  rewrite (full_short chars Hlen). reflexivity.
Qed.

Lemma validate_prefix_intermediate_witness :
  validate "3517" = Intermediate.
Proof.
  apply (validate_prefix_intermediate "3517" "2846").
  - unfold single_line. cbn. intros H.
    repeat (apply elem_of_cons in H as [H|H]; [discriminate|]). inversion H.
  - reflexivity.
  - discriminate.
Defined.

End Validator.

Section OracleMatrix.
Import DeutschSequenceValidator.



(** ** The oracle matrix of the Deutsch-Jozsa window *)

(** The value of a digit. *)
Lemma int_symbol (c : ascii) :
  c ∈ symbols -> DeutschJozsaWindow.int c = inr (nat_of_ascii c - 48)%nat.
Proof.
  intros Hc. unfold symbols in Hc. cbn in Hc.
  repeat (apply elem_of_cons in Hc as [->|Hc]; [reflexivity|]).
  inversion Hc.
Qed.

Lemma mapM_int_symbols (d : list ascii) :
  Forall (fun c => c ∈ symbols) d ->
  Py.mapM DeutschJozsaWindow.int d
  = inr (map (fun c => (nat_of_ascii c - 48)%nat) d).
Proof.
  induction 1 as [|c d Hc _ IH]; [reflexivity|].
  cbn [Py.mapM map]. rewrite (int_symbol c Hc), IH. reflexivity.
Qed.

(** [int] raises on the line feed, after the digits before it. *)
Lemma mapM_int_line_feed (d : list ascii) :
  Forall (fun c => c ∈ symbols) d ->
  Py.mapM DeutschJozsaWindow.int (d ++ ["010"%char]) = inl Py.ValueError.
Proof.
  induction 1 as [|c d Hc _ IH]; [reflexivity|].
  cbn [Py.mapM app]. rewrite (int_symbol c Hc), IH. reflexivity.
Qed.

Lemma array_def_single_line (text : string) :
  validate text = Acceptable -> single_line text ->
  DeutschJozsaWindow.array_def text
  = inr (DeutschJozsaWindow.rows
           (map (fun c => (nat_of_ascii c - 48)%nat) (list_ascii_of_string text)))
  /\ map (fun c => (nat_of_ascii c - 48)%nat) (list_ascii_of_string text)
     ≡ₚ seq 1 8.
Proof.
  intros H Hs. apply (acceptable_iff _ Hs) in H. split.
  - unfold DeutschJozsaWindow.array_def. rewrite mapM_int_symbols; [reflexivity|].
    apply Forall_forall. intros c Hc. rewrite <- H. exact Hc.
  - rewrite H. reflexivity.
Qed.

Lemma array_def_line_feed (text : string) :
  validate text = Acceptable -> ~ single_line text ->
  DeutschJozsaWindow.array_def text = inl Py.ValueError.
Proof.
  intros H Hs. destruct (acceptable_line_feed text H Hs) as (d & Hp & E).
  unfold DeutschJozsaWindow.array_def. rewrite E, mapM_int_line_feed; [reflexivity|].
  apply Forall_forall. intros c Hc. rewrite <- Hp. exact Hc.
Qed.

Lemma rows_entry (row_nums : list nat) (i j : nat) :
  (i < length row_nums)%nat -> (j < 8)%nat ->
  entry (DeutschJozsaWindow.rows row_nums) i j
  = if (S j =? nth i row_nums O)%nat then RtoC 1 else RtoC 0.
Proof.
  intros Hlen Hj. unfold entry, DeutschJozsaWindow.rows.
  set (f := fun row_num : nat =>
              map (fun c : nat => if (c =? row_num)%nat then RtoC 1 else RtoC 0) (seq 1 8)).
  rewrite (nth_indep (map f row_nums) [] (f O)) by (rewrite length_map; exact Hlen).
  rewrite (map_nth f row_nums O i). unfold f.
  set (g := fun c : nat => if (c =? nth i row_nums O)%nat then RtoC 1 else RtoC 0).
  rewrite (nth_indep (map g (seq 1 8)) (RtoC 0) (g O))
    by (rewrite length_map, length_seq; exact Hj).
  rewrite (map_nth g (seq 1 8) O j), seq_nth by exact Hj.
  reflexivity.
Qed.

Lemma array_def_structure (text : string) :
  validate text = Acceptable -> single_line text ->
  exists m,
    DeutschJozsaWindow.array_def text = inr m
    /\ length m = 8%nat
    /\ Forall (fun row => length row = 8%nat) m
    /\ exists sigma : nat -> nat,
        (forall i, (i < 8)%nat -> (sigma i < 8)%nat)
        /\ (forall i i', (i < 8)%nat -> (i' < 8)%nat -> sigma i = sigma i' -> i = i')
        /\ (forall i, (i < 8)%nat ->
              nth i (list_ascii_of_string text) "0"%char
              = ascii_of_nat (49 + sigma i))
        /\ forall i j, (i < 8)%nat -> (j < 8)%nat ->
             entry m i j = if (j =? sigma i)%nat then RtoC 1 else RtoC 0.
Proof.
  intros Hacc Hs.
  destruct (array_def_single_line text Hacc Hs) as [Hdef Hrows].
  assert (Hp := proj1 (acceptable_iff _ Hs) Hacc).
  set (chars := list_ascii_of_string text) in *.
  set (digit := fun c : ascii => (nat_of_ascii c - 48)%nat) in *.
  set (row_nums := map digit chars) in *.
  exists (DeutschJozsaWindow.rows row_nums). split; [exact Hdef|].
  assert (Hlen : length row_nums = 8%nat) by (rewrite Hrows; reflexivity).
  assert (Hclen : length chars = 8%nat) by (rewrite Hp; reflexivity).
  assert (Hnd : NoDup row_nums) by (rewrite Hrows; apply NoDup_seq).
  assert (Hin : forall i, (i < 8)%nat -> (1 <= nth i row_nums O <= 8)%nat).
  { intros i Hi.
    assert (E : nth i row_nums O ∈ seq 1 8).
    { rewrite <- Hrows. apply list_elem_of_In, nth_In. lia. }
    apply elem_of_seq in E. lia. }
  split; [|split].
  - unfold DeutschJozsaWindow.rows. rewrite length_map. exact Hlen.
  - unfold DeutschJozsaWindow.rows. apply Forall_map, Forall_forall.
    intros row _. cbn. reflexivity.
  - exists (fun i => (nth i row_nums O - 1)%nat). split; [|split; [|split]].
    + intros i Hi. specialize (Hin i Hi). lia.
    + intros i i' Hi Hi' E.
      assert (E' : nth i row_nums O = nth i' row_nums O).
      { pose proof (Hin i Hi). pose proof (Hin i' Hi'). lia. }
      destruct (lookup_lt_is_Some_2 row_nums i) as [x Hx]; [lia|].
      destruct (lookup_lt_is_Some_2 row_nums i') as [x' Hx']; [lia|].
      rewrite (nth_lookup_Some _ _ O _ Hx), (nth_lookup_Some _ _ O _ Hx') in E'.
      subst x'. exact (NoDup_lookup row_nums i i' x Hnd Hx Hx').
    + intros i Hi. cbn beta.
      assert (Hc : nth i chars "0"%char ∈ symbols).
      { rewrite <- Hp. apply list_elem_of_In, nth_In. lia. }
      unfold row_nums.
      change O with (digit "0"%char).
      rewrite (map_nth digit chars "0"%char i).
      revert Hc. generalize (nth i chars "0"%char). intros c Hc.
      unfold symbols in Hc. cbn in Hc.
      repeat (apply elem_of_cons in Hc as [->|Hc]; [reflexivity|]).
      inversion Hc.
    + intros i j Hi Hj.
      rewrite rows_entry by lia.
      specialize (Hin i Hi).
      destruct (Nat.eqb_spec (S j) (nth i row_nums O)) as [E|E];
        destruct (Nat.eqb_spec j (nth i row_nums O - 1)) as [E'|E']; try reflexivity; lia.
Qed.

(** X4. From an acceptable text without a line feed [create_simulator]
    builds an 8 x 8 permutation matrix: row i holds 1.0 in the column of
    its digit and 0.0 elsewhere, and no two rows hold their 1.0 in the same
    column.  For the other acceptable texts, eight digits and a line feed,
    no matrix is built: [int] raises [ValueError] on the line feed. *)
Theorem array_def_permutation_matrix (text : string) :
  validate text = Acceptable ->
  (single_line text ->
   exists m,
     DeutschJozsaWindow.array_def text = inr m
     /\ length m = 8%nat
     /\ Forall (fun row => length row = 8%nat) m
     /\ exists sigma : nat -> nat,
         (forall i, (i < 8)%nat -> (sigma i < 8)%nat)
         /\ (forall i i', (i < 8)%nat -> (i' < 8)%nat -> sigma i = sigma i' -> i = i')
         /\ (forall i, (i < 8)%nat ->
               nth i (list_ascii_of_string text) "0"%char
               = ascii_of_nat (49 + sigma i))
         /\ forall i j, (i < 8)%nat -> (j < 8)%nat ->
              entry m i j = if (j =? sigma i)%nat then RtoC 1 else RtoC 0)
  /\ (~ single_line text ->
      DeutschJozsaWindow.array_def text = inl Py.ValueError).
Proof.
  intros Hacc. split.
  - apply array_def_structure. exact Hacc.
  - apply array_def_line_feed. exact Hacc.
Qed.

Lemma array_def_permutation_matrix_witness :
  DeutschJozsaWindow.array_def (String.append "35172846" (String "010" EmptyString))
  = inl Py.ValueError.
Proof.
  apply (array_def_permutation_matrix
           (String.append "35172846" (String "010" EmptyString))).
  - reflexivity.
  - unfold single_line. intros H. apply H. cbn.
    do 8 (apply elem_of_cons; right). apply elem_of_cons. left. reflexivity.
Defined.

Lemma indicator_sum (a b : nat) :
  (a < 8)%nat -> (b < 8)%nat ->
  Csum (map (fun k => ((if (k =? a)%nat then RtoC 1 else RtoC 0)
                       * Cconj (if (k =? b)%nat then RtoC 1 else RtoC 0))%C)
            (seq 0 8))
  = if (b =? a)%nat then RtoC 1 else RtoC 0.
Proof.
  intros Ha Hb.
  do 8 (destruct a as [|a]; [do 8 (destruct b as [|b]; [cbn; unfold Cplus, Cmult, Cconj, RtoC; cbn [fst snd]; f_equal; ring|]); lia|]).
  lia.
Qed.

Lemma array_def_unitary_matrix (text : string) :
  validate text = Acceptable -> single_line text ->
  exists m,
    DeutschJozsaWindow.array_def text = inr m
    /\ length m = 8%nat
    /\ Forall (fun row => length row = 8%nat) m
    /\ matmul m (adjoint 8 m) = identity 8.
Proof.
  intros Hacc Hs.
  destruct (array_def_structure text Hacc Hs)
    as (m & Hdef & Hlen & Hrow & sigma & Hb & Hinj & _ & Hent).
  exists m. split; [exact Hdef|]. split; [exact Hlen|]. split; [exact Hrow|].
  assert (Hncols : ncols (adjoint 8 m) = 8%nat).
  { unfold ncols, adjoint. cbn [seq map nth]. rewrite length_map. exact Hlen. }
  assert (Hadj : forall k j, (k < 8)%nat -> (j < 8)%nat ->
                   entry (adjoint 8 m) k j = Cconj (entry m j k)).
  { intros k j Hk Hj. unfold entry, adjoint.
    set (f := fun j0 : nat => map (fun row : list C => Cconj (nth j0 row (RtoC 0))) m).
    rewrite (nth_indep (map f (seq 0 8)) [] (f O)) by (rewrite length_map, length_seq; lia).
    rewrite (map_nth f (seq 0 8) O k), seq_nth by lia. unfold f. cbn [Nat.add].
    set (g := fun row : list C => Cconj (nth k row (RtoC 0))).
    rewrite (nth_indep (map g m) (RtoC 0) (g [])) by (rewrite length_map; lia).
    rewrite (map_nth g m [] j). reflexivity. }
  unfold matmul. rewrite Hncols.
  apply (nth_ext _ _ [] []).
  { rewrite length_map. unfold identity. rewrite length_map, length_seq. exact Hlen. }
  intros i Hi. rewrite length_map, Hlen in Hi.
  set (f := fun row : list C => map _ (seq 0 8)).
  rewrite (nth_indep (map f m) [] (f [])) by (rewrite length_map; lia).
  rewrite (map_nth f m [] i). unfold f.
  assert (Hri : length (nth i m []) = 8%nat).
  { rewrite Forall_forall in Hrow. apply Hrow, list_elem_of_In, nth_In. lia. }
  rewrite Hri.
  unfold identity.
  set (h := fun i0 : nat => map (fun j : nat => if (j =? i0)%nat then RtoC 1 else RtoC 0) (seq 0 8)).
  rewrite (nth_indep (map h (seq 0 8)) [] (h O)) by (rewrite length_map, length_seq; lia).
  rewrite (map_nth h (seq 0 8) O i), seq_nth by lia. unfold h. cbn [Nat.add].
  apply map_ext_in. intros j Hj. apply in_seq in Hj.
  transitivity (Csum (map (fun k => ((if (k =? sigma i)%nat then RtoC 1 else RtoC 0)
                                      * Cconj (if (k =? sigma j)%nat then RtoC 1 else RtoC 0))%C)
                          (seq 0 8))).
  - f_equal. apply map_ext_in. intros k Hk. apply in_seq in Hk.
    rewrite Hadj by lia.
    change (nth k (nth i m []) (RtoC 0)) with (entry m i k).
    rewrite !Hent by lia. reflexivity.
  - rewrite indicator_sum by (apply Hb; lia).
    destruct (Nat.eqb_spec (sigma j) (sigma i)) as [E|E];
      destruct (Nat.eqb_spec j i) as [E'|E']; try reflexivity.
    + exfalso. apply E'. apply Hinj; [lia|lia|exact E].
    + exfalso. apply E. rewrite E'. reflexivity.
Qed.

(** X5. The oracle matrix built from an acceptable text without a line feed
    is unitary: its product with its conjugate transpose is the identity. *)
Theorem array_def_unitary (text : string) :
  validate text = Acceptable -> single_line text ->
  exists m,
    DeutschJozsaWindow.array_def text = inr m
    /\ matmul m (adjoint 8 m) = identity 8.
Proof.
  intros Hacc Hs.
  destruct (array_def_unitary_matrix text Hacc Hs) as (m & Hdef & _ & _ & Hu).
  exists m. auto.
Qed.

Lemma array_def_unitary_witness :
  exists m,
    DeutschJozsaWindow.array_def "35172846" = inr m
    /\ matmul m (adjoint 8 m) = identity 8.
Proof.
  apply (array_def_unitary "35172846"); [reflexivity|].
  unfold single_line. cbn. intros H.
  repeat (apply elem_of_cons in H as [H|H]; [discriminate|]). inversion H.
Defined.

End OracleMatrix.

(** ** The dictionary of qubits *)

Lemma dict_get_filter (d : dict) (k n : string) :
  dict_get (List.filter (fun item => negb (String.eqb (fst item) k)) d) n
  = if String.eqb k n then inl Py.KeyError else dict_get d n.
Proof.
  induction d as [|[k' v] d IH]; cbn [List.filter dict_get fst].
  - destruct (String.eqb k n); reflexivity.
  - destruct (String.eqb_spec k' k) as [->|Hk]; cbn [negb].
    + rewrite IH. destruct (String.eqb k n); reflexivity.
    + cbn [dict_get]. rewrite IH.
      destruct (String.eqb_spec k' n) as [->|Hn]; [|reflexivity].
      destruct (String.eqb_spec k n) as [->|_]; [contradiction|reflexivity].
Qed.

Lemma dict_get_make_qubits (names : list string) (n : string) :
  dict_get (make_qubits names) n
  = if bool_decide (n ∈ names) then inr (Py.NamedQubit n) else inl Py.KeyError.
Proof.
  induction names as [|k names IH]; cbn [make_qubits dict_get].
  - rewrite bool_decide_eq_false_2 by (intros H; inversion H). reflexivity.
  - rewrite dict_get_filter.
    destruct (String.eqb_spec k n) as [->|Hne].
    + rewrite bool_decide_eq_true_2 by (left). reflexivity.
    + rewrite IH.
      destruct (decide (n ∈ names)) as [Hin|Hin].
      * rewrite !bool_decide_eq_true_2; [reflexivity|right; exact Hin|exact Hin].
      * rewrite !bool_decide_eq_false_2; [reflexivity| |exact Hin].
        intros H. apply elem_of_cons in H as [->|H]; [congruence|contradiction].
Qed.

Lemma elem_of_make_qubits (names : list string) (m : string) (q : Qid) :
  (m, q) ∈ make_qubits names <-> m ∈ names /\ q = Py.NamedQubit m.
Proof.
  induction names as [|k names IH]; cbn [make_qubits].
  - split; [intros H; inversion H|intros [H _]; inversion H].
  - rewrite !elem_of_cons, list_elem_of_In, filter_In, <- list_elem_of_In, IH.
    cbn [fst]. rewrite negb_true_iff, String.eqb_neq. split.
    + intros [E|[[Hm ->] Hne]]; [injection E as -> ->; auto|auto].
    + intros [[->|Hm] ->]; [left; reflexivity|].
      destruct (String.eqb_spec m k) as [->|Hne]; [left; reflexivity|right; auto].
Qed.

Lemma dict_values_make_qubits (names : list string) (n : string) :
  n ∈ names -> Py.NamedQubit n ∈ dict_values (make_qubits names).
Proof.
  intros H. unfold dict_values. apply list_elem_of_fmap.
  exists (n, Py.NamedQubit n). split; [reflexivity|].
  apply elem_of_make_qubits. auto.
Qed.

(** X6. After construction [self.qubits[n]] is the qubit named [n] for
    every registered name, and raises [KeyError] for any other key. *)
Theorem qubits_lookup (names : list string) (n : string) :
  dict_get (make_qubits names) n
  = if bool_decide (n ∈ names) then inr (Py.NamedQubit n) else inl Py.KeyError.
Proof. apply dict_get_make_qubits. Qed.

(** ** Rounding *)

Lemma Int_part_bounds (y : R) : IZR (Int_part y) <= y < IZR (Int_part y) + 1.
Proof. destruct (base_Int_part y). lra. Qed.

Lemma rint_even (y : R) (n : Z) :
  Z.even n = true ->
  rint y = n <-> IZR n - 1 / 2 <= y <= IZR n + 1 / 2.
Proof.
  intros Hev. unfold rint.
  pose proof (Int_part_bounds y) as Hb.
  set (f := Int_part y) in *.
  assert (Hodd : Z.even (n - 1) = false).
  { rewrite Z.even_sub, Hev. reflexivity. }
  split.
  - destruct (Rlt_dec (y - IZR f) (1 / 2)) as [Hd|Hd].
    { intros ->. lra. }
    destruct (Rlt_dec (1 / 2) (y - IZR f)) as [Hd'|Hd'].
    { intros <-. rewrite plus_IZR. lra. }
    destruct (Z.even f) eqn:Ef.
    + intros ->. lra.
    + intros <-. rewrite plus_IZR. lra.
  - intros [Hlo Hhi].
    assert (Hf : (f = n \/ f = n - 1)%Z).
    { assert (f < n + 1)%Z by (apply lt_IZR; rewrite plus_IZR; lra).
      assert (n - 1 < f + 1)%Z by (apply lt_IZR; rewrite plus_IZR, minus_IZR; lra).
      lia. }
    destruct Hf as [Hf|Hf].
    + destruct (Rlt_dec (y - IZR f) (1 / 2)) as [Hd|Hd]; [exact Hf|].
      destruct (Rlt_dec (1 / 2) (y - IZR f)) as [Hd'|Hd']; [rewrite Hf in Hd'; lra|].
      rewrite Hf, Hev. reflexivity.
    + assert (E : IZR f = IZR n - 1) by (rewrite Hf, minus_IZR; reflexivity).
      destruct (Rlt_dec (y - IZR f) (1 / 2)) as [Hd|Hd]; [lra|].
      destruct (Rlt_dec (1 / 2) (y - IZR f)) as [Hd'|Hd']; [lia|].
      rewrite Hf, Hodd. lia.
Qed.

Lemma Rabs_le_iff (x y : R) : Rabs x <= y <-> - y <= x <= y.
Proof. unfold Rabs. destruct (Rcase_abs x); lra. Qed.

Lemma round_6_even (x : R) (n : Z) :
  Z.even n = true ->
  Num.round x 6 = IZR n / 10 ^ 6 <-> Rabs (x - IZR n / 10 ^ 6) <= tolerance.
Proof.
  intros Hev. unfold Num.round, tolerance.
  assert (Hpos : 0 < 10 ^ 6) by (simpl; lra).
  split.
  - intros H.
    assert (E : rint (x * 10 ^ 6) = n).
    { apply eq_IZR. apply (Rmult_eq_reg_r (/ 10 ^ 6)); [exact H|].
      apply Rinv_neq_0_compat. lra. }
    apply (rint_even _ _ Hev) in E.
    apply Rabs_le_iff. simpl in *. lra.
  - intros H. apply Rabs_le_iff in H.
    assert (E : rint (x * 10 ^ 6) = n).
    { apply (rint_even _ _ Hev). simpl in *. split; lra. }
    rewrite E. reflexivity.
Qed.

Lemma round_6_zero (x : R) : Num.round x 6 = 0 <-> Rabs x <= tolerance.
Proof.
  pose proof (round_6_even x 0 eq_refl) as H.
  replace (IZR 0 / 10 ^ 6) with 0 in H by (simpl; lra).
  rewrite Rminus_0_r in H. exact H.
Qed.

Lemma round_6_one (x : R) : Num.round x 6 = 1 <-> Rabs (x - 1) <= tolerance.
Proof.
  pose proof (round_6_even x 1000000 eq_refl) as H.
  replace (IZR 1000000 / 10 ^ 6) with 1 in H by (simpl; lra).
  exact H.
Qed.

(** X7. The bipartite witness answers "not entangled" exactly when one
    Schmidt coefficient lies within 5e-7 of 1 and every other one within
    5e-7 of 0. *)
Theorem bipartite_tolerance
        (schmidt : vector -> nat * nat -> list R * matrix * matrix)
        (result : SparseSimulatorStep) :
  let coefficients := fst (fst (schmidt (state_vector result) (2, 2)%nat)) in
  detect_entanglement_bipartite schmidt result = false
  <-> exists l1 c l2,
        coefficients = l1 ++ c :: l2
        /\ Rabs (c - 1) <= tolerance
        /\ Forall (fun y => Rabs y <= tolerance) l1
        /\ Forall (fun y => Rabs y <= tolerance) l2.
Proof.
  intros coefficients. rewrite detect_bipartite_one_hot. fold coefficients.
  unfold one_hot, NumPy.around. split.
  - intros (r1 & r2 & E & H1 & H2).
    apply fmap_app_inv in E as (l1 & l' & -> & E & ->).
    symmetry in E. apply fmap_cons_inv in E as (c & l2 & Ec & -> & ->).
    exists l1, c, l2. split; [reflexivity|]. split; [apply round_6_one; symmetry; exact Ec|].
    split.
    + apply Forall_fmap in H1. eapply Forall_impl; [exact H1|].
      intros y Hy. apply round_6_zero. exact Hy.
    + apply Forall_fmap in H2. eapply Forall_impl; [exact H2|].
      intros y Hy. apply round_6_zero. exact Hy.
  - intros (l1 & c & l2 & -> & Hc & H1 & H2).
    exists (map (fun x => Num.round x 6) l1), (map (fun x => Num.round x 6) l2).
    rewrite map_app. cbn [map]. apply round_6_one in Hc. rewrite Hc.
    split; [reflexivity|]. split.
    + apply Forall_fmap. eapply Forall_impl; [exact H1|].
      intros y Hy. apply round_6_zero. exact Hy.
    + apply Forall_fmap. eapply Forall_impl; [exact H2|].
      intros y Hy. apply round_6_zero. exact Hy.
Qed.

(** X8. The tripartite witness answers "fully separable" exactly when each
    of the five derived quantities lies within 5e-7 of zero. *)
Theorem tripartite_tolerance
        (result : SparseSimulatorStep) (A B C : Qid)
        (i : R * R * R * R * R) (j1 j2 j3 j4 j5 : R) :
  invariants result [A; B; C] = inr i ->
  derived i = inr (j1, j2, j3, j4, j5) ->
  detect_entanglement_tripartite result [A; B; C]
  = inr (false, "fully_separable"%string, None)
  <-> Rabs j1 <= tolerance /\ Rabs j2 <= tolerance /\ Rabs j3 <= tolerance
      /\ Rabs j4 <= tolerance /\ Rabs j5 <= tolerance.
Proof.
  intros Hi Hj. unfold detect_entanglement_tripartite, rounded_quantities.
  rewrite Hi. cbn [Py.bind]. rewrite Hj. cbn [Py.bind Py.ret rounded].
  rewrite classify_cases. rewrite <- !round_6_zero.
  destruct (Reqb (Num.round j1 6) 0) eqn:E1;
    [apply Reqb_true in E1|apply Reqb_false in E1];
    (destruct (Reqb (Num.round j2 6) 0) eqn:E2;
     [apply Reqb_true in E2|apply Reqb_false in E2]);
    (destruct (Reqb (Num.round j3 6) 0) eqn:E3;
     [apply Reqb_true in E3|apply Reqb_false in E3]);
    (destruct (Reqb (Num.round j4 6) 0) eqn:E4;
     [apply Reqb_true in E4|apply Reqb_false in E4]);
    (destruct (Reqb (Num.round j5 6) 0) eqn:E5;
     [apply Reqb_true in E5|apply Reqb_false in E5]);
    cbn [andb negb]; split; try discriminate; try tauto.
Qed.

Lemma tripartite_tolerance_witness :
  exists i j1 j2 j3 j4 j5,
    invariants sample_product_step
      [Py.NamedQubit "msg"; Py.NamedQubit "alice"; Py.NamedQubit "bob"] = inr i
    /\ derived i = inr (j1, j2, j3, j4, j5)
    /\ (detect_entanglement_tripartite sample_product_step
          [Py.NamedQubit "msg"; Py.NamedQubit "alice"; Py.NamedQubit "bob"]
        = inr (false, "fully_separable"%string, None)
        <-> Rabs j1 <= tolerance /\ Rabs j2 <= tolerance /\ Rabs j3 <= tolerance
            /\ Rabs j4 <= tolerance /\ Rabs j5 <= tolerance).
Proof.
  destruct (invariants_total sample_product_step (Py.NamedQubit "msg")
              (Py.NamedQubit "alice") (Py.NamedQubit "bob"))
    as (i1 & i2 & i3 & i4 & i5 & Hinv & H5);
    [discriminate|cbn; set_solver|cbn; set_solver|cbn; set_solver|reflexivity|].
  pose proof (derived_spec_j i1 i2 i3 i4 i5 H5) as Hd.
  eexists _, _, _, _, _, _. split; [exact Hinv|]. split; [exact Hd|].
  exact (tripartite_tolerance _ _ _ _ _ _ _ _ _ _ Hinv Hd).
Defined.

(** X9. The tripartite witness reads the first three entries of [qubits]
    and nothing else: a shorter tuple raises [IndexError] before the state
    is looked at, further entries are ignored; and a state vector that does
    not hold eight amplitudes raises [ValueError] at the reshape. *)
Theorem tripartite_bounds (result : SparseSimulatorStep) :
  (forall qubits : list Qid,
      (length qubits < 3)%nat ->
      detect_entanglement_tripartite result qubits = inl Py.IndexError)
  /\ (forall (A B C : Qid) (rest : list Qid),
         detect_entanglement_tripartite result (A :: B :: C :: rest)
         = detect_entanglement_tripartite result [A; B; C])
  /\ (forall A B C : Qid,
         A ∈ qubit_order result -> B ∈ qubit_order result ->
         C ∈ qubit_order result ->
         length (state_vector result) <> 8%nat ->
         detect_entanglement_tripartite result [A; B; C] = inl Py.ValueError).
Proof.
  split; [|split].
  - intros qubits Hlen.
    unfold detect_entanglement_tripartite, rounded_quantities, invariants.
    destruct qubits as [|A [|B [|C rest]]]; try reflexivity; cbn in Hlen; lia.
  - reflexivity.
  - intros A B C HA HB HC Hlen.
    unfold detect_entanglement_tripartite, rounded_quantities, invariants.
    cbn [Py.getitem lookup list_lookup Py.bind Py.ret].
    destruct (density_matrix_total result [C] (NoDup_one C)) as [rhoC ->];
      [set_solver|].
    cbn [Py.bind].
    destruct (decide (A = B)) as [->|HAB];
      [rewrite (density_matrix_repeated result B HB); reflexivity|].
    destruct (density_matrix_total result [A; B] (NoDup_two A B HAB)) as [rhoAB ->];
      [set_solver|].
    destruct (density_matrix_total result [A] (NoDup_one A)) as [rhoA ->];
      [set_solver|].
    destruct (density_matrix_total result [B] (NoDup_one B)) as [rhoB ->];
      [set_solver|].
    cbn [Py.bind].
    assert (E : reshape222 (state_vector result) = inl Py.ValueError).
    { destruct (state_vector result) as [|? [|? [|? [|? [|? [|? [|? [|? [|? v]]]]]]]]];
        try reflexivity. cbn in Hlen. congruence. }
    rewrite E. reflexivity.
Qed.

Lemma tripartite_bounds_witness :
  detect_entanglement_tripartite sample_product_step [Py.NamedQubit "msg"]
  = inl Py.IndexError
  /\ detect_entanglement_tripartite zero_step2
       [Py.NamedQubit "alice"; Py.NamedQubit "bob"; Py.NamedQubit "alice"]
     = inl Py.ValueError.
Proof.
  split.
  - apply (proj1 (tripartite_bounds sample_product_step)). cbn. lia.
  - apply (proj2 (proj2 (tripartite_bounds zero_step2))).
    + cbn. left.
    + cbn. right. left.
    + cbn. left.
    + cbn. lia.
Defined.

(** ** Members of the entangled set *)

Lemma tripartite_members result (A B C : Qid) b kind qids :
  detect_entanglement_tripartite result [A; B; C] = inr (b, kind, Some qids) ->
  forall v, v ∈ qids -> v ∈ [A; B; C].
Proof.
  intros H. unfold detect_entanglement_tripartite in H.
  destruct (rounded_quantities result [A; B; C]) as [e|[[[[rj1 rj2] rj3] rj4] rj5]];
    [discriminate|].
  cbn [Py.bind] in H. rewrite classify_cases in H.
  repeat match type of H with
         | context [if ?c then _ else _] => destruct c
         end;
    try discriminate; injection H as <- <- <-; intros v Hv; set_solver.
Qed.

Lemma tripartite_scenario_members c sim_step qids :
  tripartite_scenario c ->
  detect_entanglement c (make_qubits (names c)) sim_step = inr (Some qids) ->
  forall v, v ∈ qids -> v ∈ dict_values (make_qubits (names c)).
Proof.
  intros [what_gate phase | oracle] H.
  - cbn in H. unfold QuantumTeleportation.detect_entanglement in H.
    cbn [make_qubits map dict_values snd fst List.filter negb andb
         String.eqb Ascii.eqb Bool.eqb] in H.
    destruct (detect_entanglement_tripartite _ _) as [e|[[b kind] ent]] eqn:E;
      [discriminate|].
    cbn in H. destruct b; [|discriminate]. injection H as ->.
    exact (tripartite_members _ _ _ _ _ _ _ E).
  - cbn in H. unfold DeutschJozsa.detect_entanglement in H.
    cbn [make_qubits map dict_values snd fst List.filter negb andb
         String.eqb Ascii.eqb Bool.eqb] in H.
    destruct (detect_entanglement_tripartite _ _) as [e|[[b kind] ent]] eqn:E;
      [discriminate|].
    cbn in H. destruct b; [|discriminate]. injection H as ->.
    exact (tripartite_members _ _ _ _ _ _ _ E).
Qed.

Lemma remove_measured_subseteq (ce : gset Py.value) (measured : option Py.value) :
  remove_measured ce measured ⊆ ce.
Proof.
  unfold remove_measured. destruct measured as [m|]; [|reflexivity].
  destruct (bool_decide (m ∈ ce)); [|reflexivity].
  destruct (size (ce ∖ {[m]}) <=? 1)%nat; set_solver.
Qed.

Lemma step_members c self :
  tripartite_scenario c -> cls self = c -> qubits self = make_qubits (names c) ->
  (forall v, v ∈ currently_entangled self -> v ∈ dict_values (make_qubits (names c))) ->
  forall v, v ∈ currently_entangled (fst (step self)) ->
            v ∈ dict_values (make_qubits (names c)).
Proof.
  intros Hc Hcls Hq Hce. unfold step.
  destruct (Py.next (_sim_iter self)) as [e|[sim_step it]]; [exact Hce|].
  cbn [set_sim_iter cls qubits].
  destruct (detect_entanglement _ _ _) as [e|entangled] eqn:Hd; [exact Hce|].
  destruct (bloch_vectors_of _ _) as [e|bv]; [exact Hce|].
  cbn [set_bloch_states _measurements].
  destruct (Py.next _) as [e|[measured ms]]; [exact Hce|].
  cbn [set_measurements set_currently_entangled _desc currently_entangled].
  assert (Hnew : forall v,
             v ∈ remove_measured (add_all (currently_entangled self) entangled) measured ->
             v ∈ dict_values (make_qubits (names c))).
  { intros v Hv. apply remove_measured_subseteq in Hv.
    destruct entangled as [qids|]; [|apply Hce, Hv].
    rewrite add_all_union in Hv. apply elem_of_union in Hv as [Hv|Hv]; [apply Hce, Hv|].
    rewrite Hcls, Hq in Hd.
    apply (tripartite_scenario_members c sim_step qids Hc Hd).
    apply elem_of_list_to_set in Hv. exact Hv. }
  destruct (Py.next _) as [e|[d ds]]; exact Hnew.
Qed.

(** X10. In the teleportation and the Deutsch-Jozsa scenario every member of
    the entangled set, in every reachable state of the stepper, is one of
    the three qubits of the scenario; the empty tuple is never a member. *)
Theorem entangled_members_are_qubits
        (c : SteppingSimInterface.class) (self : SteppingSimInterface.object) :
  tripartite_scenario c -> reachable c self ->
  (forall v, v ∈ currently_entangled self ->
             v ∈ dict_values (make_qubits (names c)))
  /\ Py.EmptyTuple ∉ currently_entangled self.
Proof.
  intros Hc Hr.
  enough (H : cls self = c /\ qubits self = make_qubits (names c)
              /\ forall v, v ∈ currently_entangled self ->
                           v ∈ dict_values (make_qubits (names c))).
  { destruct H as (_ & _ & H). split; [exact H|].
    intros Hin. apply H in Hin. destruct Hc; cbn in Hin; set_solver. }
  induction Hr as [self (Hcls & Hq & _ & Hce) | self Hr (Hcls & Hq & Hce)].
  - rewrite Hce. repeat split; try assumption. intros v Hv. set_solver.
  - destruct (step_keeps_class self) as [Ec Eq].
    rewrite Ec, Eq. repeat split; try assumption.
    eapply step_members; eassumption.
Qed.

Lemma entangled_members_are_qubits_witness :
  let after := fst (step tele_one_step) in
  (forall v, v ∈ currently_entangled after ->
             v ∈ [Py.NamedQubit "msg"; Py.NamedQubit "alice"; Py.NamedQubit "bob"])
  /\ Py.EmptyTuple ∉ currently_entangled after.
Proof.
  apply (entangled_members_are_qubits (QuantumTeleportation.class "X" 0)).
  - constructor.
  - apply reachable_step, reachable_fresh. repeat split.
Defined.

Lemma remove_measured_cases (before : gset Py.value) (measured : option Py.value) :
  let ce' := remove_measured before measured in
  (ce' = before /\ forall m, measured = Some m -> m ∉ before)
  \/ exists m,
       measured = Some m /\ m ∈ before /\ (m ∉ ce')
       /\ ((ce' = before ∖ {[m]} /\ (2 <= size ce')%nat)
           \/ (ce' = ∅ /\ (size (before ∖ {[m]}) <= 1)%nat)).
Proof.
  cbn zeta. unfold remove_measured. destruct measured as [m|].
  - case_bool_decide as Hm.
    + right. exists m. split; [reflexivity|]. split; [exact Hm|].
      destruct (Nat.leb_spec (size (before ∖ {[m]})) 1) as [Hle|Hgt].
      * split; [set_solver|]. right. split; [reflexivity|exact Hle].
      * split; [set_solver|]. left. split; [reflexivity|lia].
    + left. split; [reflexivity|]. intros m' E. injection E as <-. exact Hm.
  - left. split; [reflexivity|]. intros m' E. discriminate E.
Qed.

Lemma step_entangled_update
      (self self' : SteppingSimInterface.object)
      (s : SparseSimulatorStep) (d : string) (ce' : gset Py.value) :
  step self = (self', inr (s, d, ce')) ->
  exists (entangled : option (list Py.value)) (measured : option Py.value),
    head (_sim_iter self) = Some s
    /\ detect_entanglement (cls self) (qubits self) s = inr entangled
    /\ head (_measurements self) = Some measured
    /\ currently_entangled self' = ce'
    /\ ce' = remove_measured
               (currently_entangled self ∪ list_to_set (default [] entangled))
               measured.
Proof.
  unfold step.
  destruct (_sim_iter self) as [|sim_step it]; [cbv zeta; discriminate|].
  cbn [Py.next Py.ret set_sim_iter cls qubits head].
  destruct (detect_entanglement _ _ _) as [e|entangled] eqn:Hd;
    [cbv zeta; discriminate|].
  destruct (bloch_vectors_of _ _) as [e|bv]; [cbv zeta; discriminate|].
  cbn [set_bloch_states set_sim_iter _measurements].
  destruct (_measurements self) as [|measured ms]; [cbv zeta; discriminate|].
  cbn [Py.next Py.ret set_measurements set_currently_entangled _desc
       set_bloch_states set_sim_iter currently_entangled head].
  destruct (_desc self) as [|d0 ds]; [cbv zeta; discriminate|].
  cbn [Py.next Py.ret set_desc currently_entangled].
  cbv zeta. intros H. injection H as <- <- <- <-. cbn [currently_entangled].
  exists entangled, measured.
  split; [reflexivity|]. split; [exact Hd|]. split; [reflexivity|].
  split; [reflexivity|].
  f_equal. destruct entangled as [qids|].
  - apply add_all_union.
  - cbn [add_all default list_to_set]. set_solver.
Qed.

(** X11. How a step updates the entangled set.  The qubits the detector
    names on the step result are added to the set; then at most the qubit
    scheduled as measured on this step leaves it, and only if it is a
    member; the set is cleared when at most one member would remain.  The
    result is emitted.  So a member never leaves the set because the state
    stopped being entangled. *)
Theorem members_leave_only_by_measurement
        (self self' : SteppingSimInterface.object)
        (s : SparseSimulatorStep) (d : string) (ce' : gset Py.value) :
  step self = (self', inr (s, d, ce')) ->
  exists (entangled : option (list Py.value)) (measured : option Py.value),
    head (_sim_iter self) = Some s
    /\ detect_entanglement (cls self) (qubits self) s = inr entangled
    /\ head (_measurements self) = Some measured
    /\ currently_entangled self' = ce'
    /\ let before : gset Py.value :=
         currently_entangled self ∪ list_to_set (default [] entangled) in
       (ce' = before /\ forall m, measured = Some m -> m ∉ before)
       \/ exists m,
            measured = Some m /\ m ∈ before /\ (m ∉ ce')
            /\ ((ce' = before ∖ {[m]} /\ (2 <= size ce')%nat)
                \/ (ce' = ∅ /\ (size (before ∖ {[m]}) <= 1)%nat)).
Proof.
  intros H.
  destruct (step_entangled_update self self' s d ce' H)
    as (entangled & measured & Hs & Hd & Hm & Hce & E).
  exists entangled, measured.
  split; [exact Hs|]. split; [exact Hd|]. split; [exact Hm|]. split; [exact Hce|].
  cbn zeta. rewrite E.
  apply (remove_measured_cases
           (currently_entangled self ∪ list_to_set (default [] entangled)) measured).
Qed.

Lemma members_leave_only_by_measurement_witness :
  exists self' s d ce',
    step simple_one_step = (self', inr (s, d, ce'))
    /\ currently_entangled self' = ce'.
Proof.
  destruct (simple_step_yields product_schmidt simple_one_step zero_step2 [] None []
              "Ustawienie kubitów w stan Bella"
              (tail SimpleEntanglement.description_sequence))
    as [bv Hstep]; try reflexivity.
  { split; [cbn; set_solver|reflexivity]. }
  cbn zeta in Hstep.
  eexists _, _, _, _. split; [exact Hstep|].
  destruct (members_leave_only_by_measurement _ _ _ _ _ Hstep)
    as (entangled & measured & _ & _ & _ & Hce & _).
  exact Hce.
Defined.

(** ** Every scenario yields one step per operation *)

Lemma dj_simulation_any (oracle : matrix) (samples : list bool) :
  simulate_moment_steps (Circuit_NEW (dj_ops oracle)) samples
  = inr (dj_trace oracle samples).
Proof.
  unfold simulate_moment_steps. rewrite dj_order_sorted.
  unfold dj_ops, Circuit_NEW, dj_order, X_gate, H_gate, measure.
  cbn [map qubit_name].
  sim_gate [0%nat]. sim_gate [1%nat]. sim_gate [2%nat]. sim_gate [0%nat].
  sim_gate [1%nat; 2%nat; 0%nat].
  sim_gate [1%nat]. sim_gate [2%nat]. sim_gate [0%nat].
  sim_measure 1%nat. sim_measure 2%nat. sim_measure 0%nat.
  reflexivity.
Qed.

Lemma dj_trace_valid (oracle : matrix) (samples : list bool) :
  Forall (valid_step (DeutschJozsa.class oracle)) (dj_trace oracle samples).
Proof.
  unfold dj_trace.
  repeat apply List.Forall_cons; try apply List.Forall_nil.
  all: split; [intros q Hq; cbn in Hq |- *; set_solver|].
  all: cbn [state_vector]; unfold apply_unitary, collapse; rewrite length_map;
    reflexivity.
Qed.

Lemma dj_init_any (oracle : matrix) (samples : list bool) :
  init (DeutschJozsa.class oracle) samples
  = inr {| cls := DeutschJozsa.class oracle;
           qubits := make_qubits ["q1"; "q2"; "control"]%string;
           circuit := Circuit_NEW (dj_ops oracle);
           bloch_states := [];
           _sim_iter := dj_trace oracle samples;
           _desc := DeutschJozsa.description_sequence;
           _measurements :=
             [Some Py.EmptyTuple; Some Py.EmptyTuple; Some Py.EmptyTuple;
              Some Py.EmptyTuple; Some Py.EmptyTuple; Some Py.EmptyTuple;
              Some Py.EmptyTuple; Some Py.EmptyTuple;
              Some (Py.NamedQubit "q1"); Some (Py.NamedQubit "q2");
              Some (Py.NamedQubit "control")];
           currently_entangled := ∅ |}.
Proof.
  unfold init.
  cbn [names circuit_definition DeutschJozsa.class].
  change (DeutschJozsa.circuit_definition oracle
            (make_qubits ["q1"; "q2"; "control"]%string))
    with (@inr Py.exn _ (dj_ops oracle)).
  cbn [Py.bind]. rewrite dj_simulation_any. reflexivity.
Qed.

Lemma running_step c self s it :
  scenario c -> running c self -> _sim_iter self = s :: it ->
  exists d ds ce,
    _desc self = d :: ds
    /\ snd (step self) = inr (s, d, ce)
    /\ currently_entangled (fst (step self)) = ce
    /\ running c (fst (step self))
    /\ _sim_iter (fst (step self)) = it
    /\ _desc (fst (step self)) = ds
    /\ exists bv,
        bloch_vectors_of self s = inr bv
        /\ bloch_states (fst (step self)) = bloch_states self ++ [bv].
Proof.
  intros Hc (Hcls & Hq & Hv & Hm & Hd) Hit.
  rewrite Hit in Hv, Hm, Hd. apply Forall_cons in Hv as [Hs Hv].
  destruct (scenario_detect_total c s Hc Hs) as [entangled Hdet].
  destruct (bloch_vectors_total self s) as [bv Hbv].
  { rewrite Hq. apply Hs. }
  destruct (_measurements self) as [|m ms] eqn:Em; [discriminate|].
  destruct (_desc self) as [|d ds] eqn:Ed; [discriminate|].
  assert (Hdet' : detect_entanglement (cls self) (qubits self) s = inr entangled)
    by (rewrite Hcls, Hq; exact Hdet).
  pose proof (step_yields self s it entangled bv m ms d ds Hit Hdet' Hbv Em Ed) as Hstep.
  cbn zeta in Hstep. rewrite Hstep. cbn [fst snd].
  exists d, ds. eexists. split; [reflexivity|]. split; [reflexivity|].
  split; [reflexivity|]. split; [|split; [reflexivity|split; [reflexivity|]]].
  - unfold running. cbn [cls qubits _sim_iter _measurements _desc].
    cbn in Hm, Hd. repeat split; try assumption; lia.
  - exists bv. split; [exact Hbv|reflexivity].
Qed.

Lemma exhausted_forever (self : SteppingSimInterface.object) (k : nat) :
  _sim_iter self = [] -> after_steps k self = self.
Proof.
  intros H. induction k as [|k IH]; [reflexivity|].
  unfold after_steps in *. rewrite Nat.iter_succ, IH, (step_exhausted self H).
  reflexivity.
Qed.

Lemma after_steps_S (k : nat) (self : SteppingSimInterface.object) :
  after_steps (S k) self = after_steps k (fst (step self)).
Proof. exact (Nat.iter_succ_r k (fun s => fst (step s)) self). Qed.

Lemma running_through c :
  scenario c ->
  forall steps self,
    running c self -> _sim_iter self = steps ->
    (forall k s d, steps !! k = Some s -> _desc self !! k = Some d ->
       exists ce, snd (step (after_steps k self)) = inr (s, d, ce))
    /\ (forall k, (k <= length steps)%nat ->
          length (bloch_states (after_steps k self))
          = (length (bloch_states self) + k)%nat)
    /\ (forall k, (length steps <= k)%nat ->
          step (after_steps k self) = (after_steps k self, inl Py.StopIteration)
          /\ length (bloch_states (after_steps k self))
             = (length (bloch_states self) + length steps)%nat).
Proof.
  intros Hc. induction steps as [|s steps IH]; intros self Hrun Hit.
  - split; [|split].
    + intros k s d Hs. destruct k; discriminate Hs.
    + intros k Hk. cbn in Hk. assert (k = O) by lia. subst k. cbn. lia.
    + intros k _. rewrite (exhausted_forever self k Hit).
      split; [apply step_exhausted, Hit|]. cbn. lia.
  - destruct (running_step c self s steps Hc Hrun Hit)
      as (d0 & ds & ce & Ed & Hstep & _ & Hrun' & Hit' & Hd' & bv & _ & Hbs).
    assert (Hlen : length (bloch_states (fst (step self)))
                   = S (length (bloch_states self)))
      by (rewrite Hbs, length_app; cbn; lia).
    destruct (IH (fst (step self)) Hrun' Hit') as (IH1 & IH2 & IH3).
    split; [|split].
    + intros k s' d Hs Hd. destruct k as [|k].
      * cbn in Hs. injection Hs as <-. rewrite Ed in Hd. cbn in Hd. injection Hd as <-.
        exists ce. exact Hstep.
      * rewrite after_steps_S. apply IH1; [exact Hs|].
        rewrite Hd'. rewrite Ed in Hd. exact Hd.
    + intros k Hk. destruct k as [|k]; [cbn; lia|].
      rewrite after_steps_S, IH2 by (cbn in Hk; lia). lia.
    + intros k Hk. destruct k as [|k]; [cbn in Hk; lia|].
      rewrite after_steps_S.
      destruct (IH3 k) as [E1 E2]; [cbn in Hk; lia|].
      split; [exact E1|]. rewrite E2. cbn. lia.
Qed.

Lemma init_running c samples :
  scenario c ->
  exists self,
    init c samples = inr self /\ running c self
    /\ bloch_states self = [] /\ currently_entangled self = ∅
    /\ _desc self = description_sequence c
    /\ length (_sim_iter self) = length (description_sequence c).
Proof.
  intros [schmidt | what_gate phase | oracle].
  - eexists. split; [apply simple_init|].
    split; [|repeat split].
    repeat split; cbn [_sim_iter]. apply simple_steps_valid.
  - eexists. split; [apply tele_init|].
    split; [|repeat split].
    repeat split; cbn [_sim_iter]. apply tele_steps_valid.
  - eexists. split; [apply dj_init_any|].
    split; [|repeat split].
    repeat split; cbn [_sim_iter]. apply dj_trace_valid.
Qed.

Lemma simulable_scenario (c : SteppingSimInterface.class) :
  simulable c -> scenario c.
Proof. intros [schmidt | what_gate phase | oracle _ _ _]; constructor. Qed.

(** X12. Each of the three scenarios, the Deutsch-Jozsa one with an oracle
    that is an 8 x 8 unitary matrix, is constructed without an exception
    for any parameters and sampled outcomes and yields exactly one step per
    operation of its circuit (6, 9 and 11), step [k] with the description
    of index [k]; after that every call ends in [StopIteration] and changes
    nothing.  [bloch_states] holds one entry per yielded step. *)
Theorem scenario_yields_one_step_per_operation
        (c : SteppingSimInterface.class) (samples : list bool) :
  simulable c ->
  exists self,
    init c samples = inr self
    /\ let n := length (description_sequence c) in
       n ∈ [6; 9; 11]%nat
       /\ (forall k d, description_sequence c !! k = Some d ->
             exists s ce, snd (step (after_steps k self)) = inr (s, d, ce))
       /\ (forall k, (n <= k)%nat ->
             step (after_steps k self)
             = (after_steps k self, inl Py.StopIteration))
       /\ (forall k, length (bloch_states (after_steps k self)) = Nat.min k n).
Proof.
  intros Hs. pose proof (simulable_scenario c Hs) as Hc.
  destruct (init_running c samples Hc) as (self & Hinit & Hrun & Hbs & _ & Hd & Hlen).
  exists self. split; [exact Hinit|]. cbn zeta.
  destruct (running_through c Hc (_sim_iter self) self Hrun eq_refl) as (H1 & H2 & H3).
  rewrite Hlen in H2, H3. rewrite Hbs in H2, H3. cbn [length Nat.add] in H2, H3.
  split; [|split; [|split]].
  - clear - Hc. destruct Hc; [left|right; left|right; right; left].
  - intros k d Hk.
    destruct (lookup_lt_is_Some_2 (_sim_iter self) k) as [s Hs'].
    { rewrite Hlen. apply lookup_lt_Some in Hk. exact Hk. }
    rewrite <- Hd in Hk. destruct (H1 k s d Hs' Hk) as [ce Hce].
    exists s, ce. exact Hce.
  - intros k Hk. apply H3, Hk.
  - intros k. destruct (le_lt_dec k (length (description_sequence c))) as [Hk|Hk].
    + rewrite H2 by exact Hk. lia.
    + destruct (H3 k) as [_ E]; [lia|]. rewrite E. lia.
Qed.

Lemma scenario_yields_one_step_per_operation_witness :
  exists self,
    init (DeutschJozsa.class (DeutschJozsaWindow.rows [2; 1; 3; 4; 5; 6; 8; 7]%nat))
         [true; false; true]
    = inr self
    /\ (forall k, (11 <= k)%nat ->
          step (after_steps k self)
          = (after_steps k self, inl Py.StopIteration)).
Proof.
  destruct (scenario_yields_one_step_per_operation
              (DeutschJozsa.class (DeutschJozsaWindow.rows [2; 1; 3; 4; 5; 6; 8; 7]%nat))
              [true; false; true])
    as (self & Hinit & _ & _ & Hstop & _).
  - constructor.
    + reflexivity.
    + repeat constructor.
    + ceval. entries; unfold Cplus, Cmult, Cconj, RtoC; cbn [fst snd]; f_equal; ring.
  - exists self. split; [exact Hinit|]. exact Hstop.
Defined.
Import Windows Windows.Base.

(** ** The slot of the step button *)

Lemma mapM_name (l : list Py.value) :
  Py.mapM name l
  = if bool_decide (Py.EmptyTuple ∈ l) then inl Py.AttributeError
    else inr (map qubit_name l).
Proof.
  induction l as [|v l IH]; cbn [Py.mapM map].
  - rewrite bool_decide_eq_false_2 by (intros H; inversion H). reflexivity.
  - destruct v as [n|]; cbn [name Py.ret Py.raise].
    + rewrite IH. case_bool_decide as H.
      * rewrite bool_decide_eq_true_2 by (right; exact H). reflexivity.
      * rewrite bool_decide_eq_false_2; [reflexivity|].
        intros H'. apply elem_of_cons in H' as [H'|H']; [discriminate|contradiction].
    + rewrite bool_decide_eq_true_2 by left. reflexivity.
Qed.

Lemma execute_step_yields (w : window) (s : SteppingSimInterface.object)
      state d ce plots :
  sim w = Some s ->
  snd (step s) = inr (state, d, ce) ->
  update_ui w (Some (fst (step s))) state ce = inr plots ->
  execute_step w
  = let w' := shown w (fst (step s)) state d plots in
    if bool_decide (ce = ∅) then (w', None)
    else if bool_decide (Py.EmptyTuple ∈ ce) then (w', Some Py.AttributeError)
         else (add_line_to_log w' (EntanglementFound (map qubit_name (elements ce))),
               None).
Proof.
  intros Hsim Hstep Hui. unfold execute_step, fetch_simulation_step.
  rewrite Hsim. destruct (step s) as [s' r] eqn:Es. cbn [fst snd] in *. subst r.
  cbn [Py.bind Py.ret].
  unfold add_line_to_log, set_stateVectorLabel, set_listWidget, set_last_state, set_sim.
  cbn [update_ui success_message failure_message sim last_state listWidget
       stateVectorLabel bloch_space step_button setup_button].
  rewrite Hui. unfold set_bloch_space.
  cbn [update_ui success_message failure_message sim last_state listWidget
       stateVectorLabel bloch_space step_button setup_button].
  case_bool_decide as Hempty.
  - subst ce. rewrite size_empty. reflexivity.
  - assert (Hpos : (0 <? size ce)%nat = true).
    { apply Nat.ltb_lt. destruct (size ce) eqn:E; [|lia].
      apply size_empty_iff in E. exfalso. apply Hempty. apply leibniz_equiv, E. }
    rewrite Hpos, mapM_name.
    case_bool_decide as H1; case_bool_decide as H2; try reflexivity.
    + exfalso. apply H2. apply elem_of_elements, H1.
    + exfalso. apply H1. apply elem_of_elements, H2.
Qed.

Lemma execute_step_exhausted (w : window) (s : SteppingSimInterface.object) :
  sim w = Some s -> _sim_iter s = [] ->
  execute_step w
  = let w' := set_step_button w false in
    match check_results (cls s) (bloch_states s) (last_state w) with
    | inl e => (w', Some e)
    | inr true => (add_line_to_log w' (Text (success_message w)), None)
    | inr false => (add_line_to_log w' (Text (failure_message w)), None)
    end.
Proof.
  intros Hsim Hit. unfold execute_step, fetch_simulation_step.
  rewrite Hsim, (step_exhausted s Hit). cbn [Py.bind Py.raise].
  unfold final_check, set_step_button, set_sim.
  cbn [update_ui success_message failure_message sim last_state listWidget
       stateVectorLabel bloch_space step_button setup_button].
  rewrite Hsim.
  destruct (check_results _ _ _) as [e|[|]]; reflexivity.
Qed.

Lemma plot_qubit_total (s : SteppingSimInterface.object) (names : list string)
      (state : SparseSimulatorStep) (ce : gset Py.value) (key : string) :
  qubits s = make_qubits names -> key ∈ names ->
  Py.NamedQubit key ∈ qubit_order state ->
  exists p, plot_qubit (Some s) state ce key = inr p.
Proof.
  intros Hq Hkey Hin. unfold plot_qubit. rewrite Hq, dict_get_make_qubits.
  rewrite bool_decide_eq_true_2 by exact Hkey. cbn [Py.bind].
  unfold bloch_vector_of.
  destruct (density_matrix_total state (@cons Qid (Py.NamedQubit key) (@nil Qid))
              (NoDup_one (Py.NamedQubit key)))
    as [rho ->].
  { intros q Hq'. apply list_elem_of_singleton in Hq'. subst q. exact Hin. }
  cbn [Py.bind Py.ret]. eexists. reflexivity.
Qed.

(** ** The window of the SimpleEntanglement scenario *)

Section SimpleWindow.
Import Windows Windows.Base.

Variable schmidt : vector -> nat * nat -> list R * matrix * matrix.

Let c := SimpleEntanglement.class schmidt.

Lemma simple_update_ui_total (s : SteppingSimInterface.object)
      (state : SparseSimulatorStep) (ce : gset Py.value) :
  qubits s = make_qubits (names c) -> valid_step c state ->
  exists plots, Simple.update_ui (Some s) state ce = inr plots.
Proof.
  intros Hq [Hin _]. unfold Simple.update_ui.
  destruct (plot_qubit_total s (names c) state ce "alice" Hq) as [p1 ->];
    [cbn; set_solver|apply Hin; cbn; set_solver|].
  destruct (plot_qubit_total s (names c) state ce "bob" Hq) as [p2 ->];
    [cbn; set_solver|apply Hin; cbn; set_solver|].
  eexists. reflexivity.
Qed.

Lemma simple_press_raises (w : window) (self : SteppingSimInterface.object)
      s it d ds ms :
  sim w = Some self -> update_ui w = Simple.update_ui ->
  cls self = c -> qubits self = make_qubits (names c) ->
  _sim_iter self = s :: it -> valid_step c s ->
  _measurements self = None :: ms -> _desc self = d :: ds ->
  Py.EmptyTuple ∈ currently_entangled self
  \/ detect_entanglement_bipartite schmidt s = false ->
  exists w',
    execute_step w = (w', Some Py.AttributeError)
    /\ sim w' = Some (fst (step self))
    /\ update_ui w' = update_ui w
    /\ listWidget w' = listWidget w ++ [Text d]
    /\ cls (fst (step self)) = c
    /\ qubits (fst (step self)) = make_qubits (names c)
    /\ _sim_iter (fst (step self)) = it
    /\ _measurements (fst (step self)) = ms
    /\ _desc (fst (step self)) = ds
    /\ Py.EmptyTuple ∈ currently_entangled (fst (step self)).
Proof.
  intros Hsim Hui Hcls Hq Hit Hv Hm Hd Hempty.
  destruct (simple_step_yields schmidt self s it None ms d ds Hcls Hq Hit Hv Hm Hd)
    as [bv Hstep].
  cbn zeta in Hstep.
  set (ce := simple_update (currently_entangled self)
                           (detect_entanglement_bipartite schmidt s) None) in *.
  assert (Hin : Py.EmptyTuple ∈ ce).
  { unfold ce, simple_update, remove_measured. rewrite add_all_union.
    destruct Hempty as [H|H]; [set_solver|]. rewrite H. set_solver. }
  destruct (simple_update_ui_total (fst (step self)) s ce) as [plots Hplots].
  { rewrite Hstep. exact Hq. }
  { exact Hv. }
  assert (Hsnd : snd (step self) = inr (s, d, ce)) by (rewrite Hstep; reflexivity).
  assert (Hplots' : update_ui w (Some (fst (step self))) s ce = inr plots)
    by (rewrite Hui; exact Hplots).
  rewrite (execute_step_yields w self s d ce plots Hsim Hsnd Hplots').
  cbn zeta.
  rewrite bool_decide_eq_false_2 by (intros E; rewrite E in Hin; set_solver).
  rewrite bool_decide_eq_true_2 by exact Hin.
  eexists. split; [reflexivity|].
  rewrite Hstep. cbn. repeat split; assumption.
Qed.

Lemma simple_first_presses (samples : list bool) (step_enabled setup_enabled : bool) :
  detect_entanglement_bipartite schmidt (pure_step simple_order simple_0) = false ->
  exists w1 w,
    Simple.create_simulator schmidt samples
                            (Simple.__init__ step_enabled setup_enabled)
    = (w1, None)
    /\ press 4 w1
       = (w, [Some Py.AttributeError; Some Py.AttributeError;
              Some Py.AttributeError; Some Py.AttributeError])
    /\ listWidget w = map Text (take 4 SimpleEntanglement.description_sequence).
Proof.
  intros Hfirst.
  unfold Simple.create_simulator. rewrite simple_init. cbn [install].
  match goal with
  | |- exists w1 w, (?x, None) = (w1, None) /\ _ => exists x; set (w1 := x)
  end.
  assert (V := simple_steps_valid schmidt samples). unfold simple_steps in V.
  cbn zeta in V.
  apply Forall_cons in V as [V0 V]. apply Forall_cons in V as [V1 V].
  apply Forall_cons in V as [V2 V]. apply Forall_cons in V as [V3 V].
  destruct (simple_press_raises w1 _ _ _ _ _ _ eq_refl eq_refl eq_refl eq_refl
              eq_refl V0 eq_refl eq_refl (or_intror Hfirst))
    as (w2 & E1 & S1 & U1 & L1 & C1 & Q1 & I1 & M1 & D1 & T1).
  destruct (simple_press_raises w2 _ _ _ _ _ _ S1 U1 C1 Q1 I1 V1 M1 D1 (or_introl T1))
    as (w3 & E2 & S2 & U2 & L2 & C2 & Q2 & I2 & M2 & D2 & T2).
  destruct (simple_press_raises w3 _ _ _ _ _ _ S2 (eq_trans U2 U1) C2 Q2 I2 V2 M2 D2
              (or_introl T2))
    as (w4 & E3 & S3 & U3 & L3 & C3 & Q3 & I3 & M3 & D3 & T3).
  destruct (simple_press_raises w4 _ _ _ _ _ _ S3 (eq_trans U3 (eq_trans U2 U1))
              C3 Q3 I3 V3 M3 D3 (or_introl T3))
    as (w5 & E4 & S4 & U4 & L4 & _).
  exists w5. split; [reflexivity|].
  cbn [press]. rewrite E1, E2, E3, E4.
  split; [reflexivity|].
  rewrite L4, L3, L2, L1. reflexivity.
Qed.

End SimpleWindow.

Lemma svd_plus_zero :
  fst (fst (svd_schmidt simple_0 (2, 2)%nat)) = [1; 0].
Proof.
  unfold svd_schmidt, simple_0. cbn [nth fst]. rewrite !Cabs_sq.
  unfold half, RtoC, Cmult, Cminus. cbn [fst snd].
  pose proof sqrt_half_sq as Hs.
  match goal with
  | |- context [R_sqrt.sqrt (?t ^ 2 - 4 * ?d)] =>
      replace (t ^ 2 - 4 * d) with 1 by (rewrite ?Hs; nra);
      replace t with 1 by (rewrite ?Hs; nra)
  end.
  rewrite sqrt_1.
  replace ((1 + 1) / 2) with 1 by lra. replace ((1 - 1) / 2) with 0 by lra.
  rewrite sqrt_1, sqrt_0. reflexivity.
Qed.

Lemma svd_product_first_step order ms :
  detect_entanglement_bipartite
    svd_schmidt
    {| qubit_order := order; state_vector := simple_0; Cirq.measurements := ms |}
  = false.
Proof.
  apply detect_bipartite_one_hot. cbn [state_vector].
  rewrite svd_plus_zero. cbn [NumPy.around map]. rewrite round_1, round_0.
  exists [], [0]. repeat split; repeat constructor.
Qed.

(** X13. In the window of the SimpleEntanglement scenario, when the Schmidt
    routine finds the product state of the first step not entangled, each
    of the first four presses of the step button logs the description of
    its step and then leaves the slot with [AttributeError]: the entangled
    set holds the empty tuple, which has no [name].  No line announcing
    entanglement is logged. *)
Theorem simple_window_raises_attribute_error
        (schmidt : vector -> nat * nat -> list R * matrix * matrix)
        (samples : list bool) (step_enabled setup_enabled : bool) :
  detect_entanglement_bipartite schmidt (pure_step simple_order simple_0) = false ->
  exists w1 w,
    Windows.Simple.create_simulator
      schmidt samples (Windows.Simple.__init__ step_enabled setup_enabled)
    = (w1, None)
    /\ Windows.press 4 w1
       = (w, [Some Py.AttributeError; Some Py.AttributeError;
              Some Py.AttributeError; Some Py.AttributeError])
    /\ Windows.Base.listWidget w
       = map Windows.Text (take 4 SimpleEntanglement.description_sequence).
Proof. apply simple_first_presses. Qed.

Lemma simple_window_raises_attribute_error_witness :
  exists w1 w,
    Windows.Simple.create_simulator
      svd_schmidt [false; false] (Windows.Simple.__init__ false true)
    = (w1, None)
    /\ Windows.press 4 w1
       = (w, [Some Py.AttributeError; Some Py.AttributeError;
              Some Py.AttributeError; Some Py.AttributeError])
    /\ Windows.Base.listWidget w
       = map Windows.Text (take 4 SimpleEntanglement.description_sequence).
Proof.
  apply (simple_window_raises_attribute_error svd_schmidt [false; false] false true).
  apply svd_product_first_step.
Defined.

(** ** The windows of the teleportation and of the Deutsch-Jozsa scenario *)

Lemma tripartite_is_scenario c : tripartite_scenario c -> scenario c.
Proof. intros [what_gate phase | oracle]; constructor. Qed.

Section TripartiteWindows.
Import Windows Windows.Base.

Lemma press_app (n m : nat) (w : window) :
  press (n + m) w
  = let (w1, es1) := press n w in
    let (w2, es2) := press m w1 in
    (w2, es1 ++ es2).
Proof.
  revert w. induction n as [|n IH]; intros w; cbn [press Nat.add].
  - destruct (press m w). reflexivity.
  - destruct (execute_step w) as [w1 e]. rewrite IH.
    destruct (press n w1) as [w2 es1]. destruct (press m w2) as [w3 es2].
    reflexivity.
Qed.

Lemma texts_app (l1 l2 : list line) : texts (l1 ++ l2) = texts l1 ++ texts l2.
Proof. unfold texts. apply omap_app. Qed.

Lemma texts_Text (ds : list string) : texts (map Text ds) = ds.
Proof. induction ds as [|d ds IH]; [reflexivity|]. cbn. f_equal. exact IH. Qed.

Lemma tripartite_press c (w : window) (self : SteppingSimInterface.object) s it :
  tripartite_scenario c -> sim w = Some self -> running c self ->
  _sim_iter self = s :: it -> members_are_qubits c self -> drawable c w ->
  exists w' d ds,
    _desc self = d :: ds
    /\ execute_step w = (w', None)
    /\ sim w' = Some (fst (step self))
    /\ update_ui w' = update_ui w
    /\ success_message w' = success_message w
    /\ failure_message w' = failure_message w
    /\ step_button w' = step_button w
    /\ last_state w' = Some s
    /\ texts (listWidget w') = texts (listWidget w) ++ [d]
    /\ (currently_entangled (fst (step self)) = ∅ ->
        listWidget w' = listWidget w ++ [Text d]).
Proof.
  intros Hc Hsim Hrun Hit Hmem Hdraw.
  destruct (running_step c self s it (tripartite_is_scenario c Hc) Hrun Hit)
    as (d & ds & ce & Ed & Hstep & Hce & Hrun' & _).
  exists (fst (execute_step w)), d, ds. split; [exact Ed|].
  destruct Hrun as (Hcls & Hq & Hv & _).
  rewrite Hit in Hv. apply Forall_cons in Hv as [Hv _].
  assert (Hmem' : members_are_qubits c (fst (step self)))
    by (exact (step_members c self Hc Hcls Hq Hmem)).
  assert (Hno : Py.EmptyTuple ∉ ce).
  { intros Hin. rewrite <- Hce in Hin. apply Hmem' in Hin.
    destruct Hc; cbn in Hin; set_solver. }
  destruct (Hdraw (fst (step self)) s ce) as [plots Hplots].
  { apply Hrun'. }
  { exact Hv. }
  rewrite (execute_step_yields w self s d ce plots Hsim Hstep Hplots). cbn zeta.
  case_bool_decide as Hempty.
  - cbn [fst]. unfold shown.
    cbn [sim update_ui success_message failure_message step_button last_state
         listWidget].
    repeat split; try reflexivity.
    rewrite texts_app. reflexivity.
  - rewrite bool_decide_eq_false_2 by exact Hno. cbn [fst].
    unfold add_line_to_log, set_listWidget, shown.
    cbn [sim update_ui success_message failure_message step_button last_state
         listWidget].
    repeat split; try reflexivity.
    + rewrite <- app_assoc, texts_app. cbn. reflexivity.
    + intros E. rewrite Hce in E. contradiction.
Qed.

Lemma tripartite_window_run c :
  tripartite_scenario c ->
  forall steps (w : window) (self : SteppingSimInterface.object),
    sim w = Some self -> running c self -> _sim_iter self = steps ->
    members_are_qubits c self -> drawable c w ->
    exists w',
      press (length steps) w = (w', repeat None (length steps))
      /\ sim w' = Some (after_steps (length steps) self)
      /\ _sim_iter (after_steps (length steps) self) = []
      /\ cls (after_steps (length steps) self) = c
      /\ update_ui w' = update_ui w
      /\ success_message w' = success_message w
      /\ failure_message w' = failure_message w
      /\ step_button w' = step_button w
      /\ last_state w' = match last steps with
                         | Some s => Some s
                         | None => last_state w
                         end
      /\ texts (listWidget w') = texts (listWidget w) ++ _desc self
      /\ (exists bvs,
             Forall2 (fun s bv => bloch_vectors_of self s = inr bv) steps bvs
             /\ bloch_states (after_steps (length steps) self)
                = bloch_states self ++ bvs)
      /\ ((forall k, (k < length steps)%nat ->
              currently_entangled (after_steps (S k) self) = ∅) ->
          listWidget w' = listWidget w ++ map Text (_desc self)).
Proof.
  intros Hc. induction steps as [|s steps IH]; intros w self Hsim Hrun Hit Hmem Hdraw.
  - exists w. cbn [press length repeat last].
    assert (Hd : _desc self = []).
    { destruct Hrun as (_ & _ & _ & _ & Hd). rewrite Hit in Hd.
      destruct (_desc self); [reflexivity|discriminate]. }
    rewrite Hd, !app_nil_r.
    repeat split; try reflexivity; try assumption; try apply Hrun.
    exists []. split; [constructor|]. rewrite app_nil_r. reflexivity.
  - destruct (tripartite_press c w self s steps Hc Hsim Hrun Hit Hmem Hdraw)
      as (w1 & d & ds & Ed & Hex & Hsim1 & Hui1 & Hok1 & Hfail1 & Hbtn1 & Hlast1
          & Htexts1 & Hlog1).
    destruct (running_step c self s steps (tripartite_is_scenario c Hc) Hrun Hit)
      as (d' & ds' & ce & Ed' & _ & _ & Hrun1 & Hit1 & Hd1 & bv & Hbv & Hbs1).
    rewrite Ed in Ed'. injection Ed' as <- <-.
    assert (Hmem1 : members_are_qubits c (fst (step self))).
    { destruct Hrun as (Hcls & Hq & _).
      exact (step_members c self Hc Hcls Hq Hmem). }
    assert (Hdraw1 : drawable c w1).
    { intros s0 state ce0 H1 H2. rewrite Hui1. apply Hdraw; assumption. }
    destruct (IH w1 (fst (step self)) Hsim1 Hrun1 Hit1 Hmem1 Hdraw1)
      as (w' & Hpress & Hsim' & Hit' & Hcls' & Hui' & Hok' & Hfail' & Hbtn' & Hlast'
          & Htexts' & (bvs & Hbvs & Hbs') & Hlog').
    exists w'. cbn [press length repeat]. rewrite Hex, Hpress, !after_steps_S.
    split; [reflexivity|]. split; [exact Hsim'|]. split; [exact Hit'|].
    split; [exact Hcls'|].
    split; [congruence|]. split; [congruence|]. split; [congruence|].
    split; [congruence|].
    split.
    { rewrite Hlast', Hlast1, last_cons. destruct (last steps); reflexivity. }
    split.
    { rewrite Htexts', Htexts1, Hd1, Ed, <- app_assoc. reflexivity. }
    split.
    { exists (bv :: bvs). split.
      - constructor; [exact Hbv|].
        eapply Forall2_impl; [exact Hbvs|].
        intros s0 bv0 H0. rewrite <- H0. unfold bloch_vectors_of.
        destruct (step_keeps_class self) as [_ ->]. reflexivity.
      - rewrite Hbs', Hbs1, <- app_assoc. reflexivity. }
    intros Hall. rewrite Hlog', Hlog1, Hd1, Ed.
    + rewrite <- app_assoc. reflexivity.
    + exact (Hall O (Nat.lt_0_succ _)).
    + intros k Hk. rewrite <- after_steps_S. apply Hall. cbn. lia.
Qed.

(** The last press: the simulator is exhausted and the final check
    decides the message. *)
Lemma tripartite_window_end c (samples : list bool) (w0 : window)
      (self : SteppingSimInterface.object) :
  tripartite_scenario c ->
  init c samples = inr self ->
  sim w0 = Some self -> drawable c w0 ->
  let n := length (description_sequence c) in
  exists w' bvs final,
    Forall2 (fun s bv => bloch_vectors_of self s = inr bv) (_sim_iter self) bvs
    /\ last (_sim_iter self) = Some final
    /\ press n w0 = (w', repeat None n)
    /\ texts (listWidget w') = texts (listWidget w0) ++ description_sequence c
    /\ ((forall k, (k < n)%nat -> currently_entangled (after_steps (S k) self) = ∅) ->
        listWidget w' = listWidget w0 ++ map Text (description_sequence c))
    /\ forall b,
        check_results c bvs (Some final) = inr b ->
        exists w,
          press (S n) w0 = (w, repeat None (S n))
          /\ step_button w = false
          /\ listWidget w
             = listWidget w'
               ++ [Text (if b then success_message w0 else failure_message w0)].
Proof.
  intros Hc Hinit Hsim Hdraw n.
  destruct (init_running c samples (tripartite_is_scenario c Hc))
    as (self' & Hinit' & Hrun & Hbs & Hce & Hd & Hlen).
  rewrite Hinit in Hinit'. injection Hinit' as <-.
  assert (Hmem : members_are_qubits c self).
  { intros v Hv. rewrite Hce in Hv. set_solver. }
  destruct (tripartite_window_run c Hc (_sim_iter self) w0 self Hsim Hrun eq_refl
              Hmem Hdraw)
    as (w' & Hpress & Hsim' & Hit' & Hcls' & Hui' & Hok' & Hfail' & Hbtn' & Hlast'
        & Htexts' & (bvs & Hbvs & Hbs') & Hlog').
  rewrite Hlen in *. fold n in Hpress, Hsim', Hit', Hcls', Hbs', Hlog'.
  rewrite Hbs in Hbs'. cbn [app] in Hbs'. rewrite Hd in Htexts', Hlog'.
  destruct (last (_sim_iter self)) as [final|] eqn:Elast.
  2:{ apply last_None in Elast. rewrite Elast in Hlen. subst n.
      destruct Hc; discriminate Hlen. }
  exists w', bvs, final.
  split; [exact Hbvs|]. split; [reflexivity|]. split; [exact Hpress|].
  split; [exact Htexts'|]. split; [exact Hlog'|].
  intros b Hb.
  replace (S n) with (n + 1)%nat by lia.
  rewrite press_app, Hpress. cbn [press].
  rewrite (execute_step_exhausted w' _ Hsim' Hit'). cbn zeta.
  rewrite Hcls', Hbs', Hlast', Hb.
  rewrite repeat_app.
  destruct b; (eexists; split; [reflexivity|]);
    cbn; rewrite ?Hok', ?Hfail'; split; reflexivity.
Qed.

End TripartiteWindows.

Section WindowRuns.
Import Windows Windows.Base.

Lemma three_plots_total c (k1 k2 k3 : string)
      (s : SteppingSimInterface.object) (state : SparseSimulatorStep)
      (ce : gset Py.value) :
  names c = [k1; k2; k3] ->
  qubits s = make_qubits (names c) -> valid_step c state ->
  exists plots,
    (let* bloch1 := plot_qubit (Some s) state ce k1 in
     let* bloch2 := plot_qubit (Some s) state ce k2 in
     let* bloch3 := plot_qubit (Some s) state ce k3 in
     Py.ret [bloch1; bloch2; bloch3]) = inr plots.
Proof.
  intros Hn Hq [Hin _].
  destruct (plot_qubit_total s (names c) state ce k1 Hq) as [p1 ->];
    [rewrite Hn; set_solver
    |apply Hin, dict_values_make_qubits; rewrite Hn; set_solver|].
  destruct (plot_qubit_total s (names c) state ce k2 Hq) as [p2 ->];
    [rewrite Hn; set_solver
    |apply Hin, dict_values_make_qubits; rewrite Hn; set_solver|].
  destruct (plot_qubit_total s (names c) state ce k3 Hq) as [p3 ->];
    [rewrite Hn; set_solver
    |apply Hin, dict_values_make_qubits; rewrite Hn; set_solver|].
  eexists. reflexivity.
Qed.

Lemma teleportation_drawable what_gate phase (w : window) :
  update_ui w = Teleportation.update_ui ->
  drawable (QuantumTeleportation.class what_gate phase) w.
Proof.
  intros Hui s0 state ce Hq Hv. rewrite Hui. unfold Teleportation.update_ui.
  exact (three_plots_total (QuantumTeleportation.class what_gate phase)
           "msg" "alice" "bob" s0 state ce eq_refl Hq Hv).
Qed.

Lemma deutsch_drawable oracle (w : window) :
  update_ui w = Deutsch.update_ui ->
  drawable (DeutschJozsa.class oracle) w.
Proof.
  intros Hui s0 state ce Hq Hv. rewrite Hui. unfold Deutsch.update_ui.
  exact (three_plots_total (DeutschJozsa.class oracle)
           "q1" "q2" "control" s0 state ce eq_refl Hq Hv).
Qed.

Lemma tele_check_true what_gate phase (self : SteppingSimInterface.object)
      (al be : C) (m a : bool) bvs final :
  qubits self = make_qubits ["msg"; "alice"; "bob"]%string ->
  Forall2 (fun s bv => bloch_vectors_of self s = inr bv) (tele_steps (al, be) m a) bvs ->
  check_results (QuantumTeleportation.class what_gate phase) bvs final = inr true.
Proof.
  intros Hq Hbvs.
  unfold tele_steps in Hbvs. cbn [fst snd] in Hbvs.
  repeat match goal with
         | H : Forall2 _ (_ :: _) _ |- _ =>
             apply Forall2_cons_inv_l in H as (? & ? & ? & ? & ->)
         | H : Forall2 _ [] _ |- _ => apply Forall2_nil_inv_l in H as ->
         end.
  repeat match goal with
         | H : bloch_vectors_of self ?s = inr ?bv |- _ =>
             let E := fresh "E" in
             assert (E : bv = [NumPy.around (bloch_at s 2) 6;
                               NumPy.around (bloch_at s 0) 6;
                               NumPy.around (bloch_at s 1) 6])
               by (assert (E' := bloch_vectors_of_three self s (Py.NamedQubit "msg")
                        (Py.NamedQubit "alice") (Py.NamedQubit "bob") 2 0 1
                        (f_equal dict_values Hq) eq_refl eq_refl eq_refl); congruence);
             clear H; subst bv
         end.
  change (check_results (QuantumTeleportation.class what_gate phase))
    with QuantumTeleportation.check_results.
  unfold QuantumTeleportation.check_results.
  cbn [Py.getitem Py.getlast lookup list_lookup last Py.bind Py.ret].
  rewrite tele_bloch_preserved. rewrite all_eq_refl. reflexivity.
Qed.

Lemma teleportation_window_through (xGateRadio : bool) (phaseSlider : Z)
      (samples : list bool) (step_enabled setup_enabled : bool) :
  exists w1 w,
    Teleportation.create_simulator
      xGateRadio phaseSlider samples (Teleportation.__init__ step_enabled setup_enabled)
    = (w1, None)
    /\ press 10 w1 = (w, repeat None 10)
    /\ texts (listWidget w)
       = QuantumTeleportation.description_sequence ++ ["Teleportacja udana!"%string]
    /\ step_button w = false.
Proof.
  unfold Teleportation.create_simulator.
  set (what_gate := if xGateRadio then "X"%string else "T"%string).
  set (phase := IZR phaseSlider / 100).
  pose proof (tele_init what_gate phase samples) as Hinit.
  rewrite Hinit. cbn [install].
  match goal with
  | |- exists w1 w, (?x, None) = (w1, None) /\ _ => exists x; set (w1 := x)
  end.
  match type of Hinit with _ = inr ?s => set (self := s) in * end.
  destruct (tripartite_window_end
              (QuantumTeleportation.class what_gate phase) samples w1 self
              (tripartite_teleportation what_gate phase) Hinit eq_refl
              (teleportation_drawable what_gate phase w1 eq_refl))
    as (w' & bvs & final & Hbvs & Hlast & Hpress & Htexts & _ & Hend).
  destruct (Hend true) as (w & Hw & Hbtn & Hlog).
  { apply (tele_check_true what_gate phase self
             (fst (message_ket what_gate phase)) (snd (message_ket what_gate phase))
             (hd false samples) (hd false (tl samples))); [reflexivity|].
    exact Hbvs. }
  exists w. split; [reflexivity|]. split; [exact Hw|]. split; [|exact Hbtn].
  rewrite Hlog, texts_app, Htexts. reflexivity.
Qed.

Lemma deutsch_check (oracle : matrix) (samples : list bool) bvs final :
  last (dj_trace oracle samples) = Some final ->
  check_results (DeutschJozsa.class oracle) bvs (Some final)
  = inr (negb (hd false samples) && negb (hd false (tl samples))).
Proof.
  intros Hlast. unfold dj_trace in Hlast. cbn [last] in Hlast. injection Hlast as <-.
  change (check_results (DeutschJozsa.class oracle)) with DeutschJozsa.check_results.
  unfold DeutschJozsa.check_results, DeutschJozsa.measured_bit.
  cbn [Cirq.measurements].
  rewrite lookup_insert_ne by discriminate.
  rewrite lookup_insert_ne by discriminate.
  rewrite lookup_insert_eq.
  rewrite lookup_insert_ne by discriminate.
  rewrite lookup_insert_eq.
  destruct (hd false samples), (hd false (tl samples)); reflexivity.
Qed.

Lemma deutsch_window_through (text : string) (samples : list bool)
      (step_enabled setup_enabled : bool) :
  DeutschSequenceValidator.validate text = DeutschSequenceValidator.Acceptable ->
  single_line text ->
  exists w1 w,
    Deutsch.create_simulator text samples (Deutsch.__init__ step_enabled setup_enabled)
    = (w1, None)
    /\ press 12 w1 = (w, repeat None 12)
    /\ texts (listWidget w)
       = DeutschJozsa.description_sequence
         ++ [if negb (hd false samples) && negb (hd false (tl samples))
             then "Funkcja jest stała"%string
             else "Funkcja jest zbilansowana"%string]
    /\ step_button w = false.
Proof.
  intros Hacc Hline. unfold Deutsch.create_simulator. rewrite Hacc.
  destruct (array_def_structure text Hacc Hline) as (oracle & -> & _).
  pose proof (dj_init_any oracle samples) as Hinit.
  rewrite Hinit. cbn [install].
  match goal with
  | |- exists w1 w, (?x, None) = (w1, None) /\ _ => exists x; set (w1 := x)
  end.
  match type of Hinit with _ = inr ?s => set (self := s) in * end.
  destruct (tripartite_window_end
              (DeutschJozsa.class oracle) samples w1 self
              (tripartite_deutsch_jozsa oracle) Hinit eq_refl
              (deutsch_drawable oracle w1 eq_refl))
    as (w' & bvs & final & Hbvs & Hlast & Hpress & Htexts & _ & Hend).
  cbn [_sim_iter self] in Hlast.
  destruct (Hend _ (deutsch_check oracle samples bvs final Hlast))
    as (w & Hw & Hbtn & Hlog).
  exists w. split; [reflexivity|]. split; [exact Hw|]. split; [|exact Hbtn].
  rewrite Hlog, texts_app, Htexts.
  destruct (negb _ && negb _); reflexivity.
Qed.

(** Without a simulator every call of the slot leaves with
    [AttributeError] and changes nothing. *)
Lemma press_without_simulator (w : window) (n : nat) :
  sim w = None -> press n w = (w, repeat (Some Py.AttributeError) n).
Proof.
  intros Hsim. induction n as [|n IH]; [reflexivity|].
  cbn [press repeat]. unfold execute_step, fetch_simulation_step.
  rewrite Hsim. cbn [Py.raise]. rewrite IH. reflexivity.
Qed.

Lemma deutsch_window_line_feed (text : string) (samples : list bool) (w : window) :
  DeutschSequenceValidator.validate text = DeutschSequenceValidator.Acceptable ->
  ~ single_line text ->
  Deutsch.create_simulator text samples w = (w, Some Py.ValueError).
Proof.
  intros Hacc Hline. unfold Deutsch.create_simulator.
  rewrite Hacc, (array_def_line_feed text Hacc Hline). reflexivity.
Qed.

End WindowRuns.

(** X14. In the teleportation window, whatever the radio button, the slider
    and the sampled outcomes are, the simulator is created, none of ten
    presses of the step button raises, the log receives, beside the lines
    that announce entanglement, the nine descriptions in order and then
    "Teleportacja udana!", and the step button ends disabled. *)
Theorem teleportation_window_always_succeeds
        (xGateRadio : bool) (phaseSlider : Z) (samples : list bool)
        (step_enabled setup_enabled : bool) :
  exists w1 w,
    Windows.Teleportation.create_simulator
      xGateRadio phaseSlider samples
      (Windows.Teleportation.__init__ step_enabled setup_enabled)
    = (w1, None)
    /\ Windows.press 10 w1 = (w, repeat None 10)
    /\ Windows.texts (Windows.Base.listWidget w)
       = QuantumTeleportation.description_sequence ++ ["Teleportacja udana!"%string]
    /\ Windows.Base.step_button w = false.
Proof. apply teleportation_window_through. Qed.

(** X15. In the Deutsch-Jozsa window with an acceptable text without a line
    feed, none of twelve presses of the step button raises; the log
    receives, beside the lines that announce entanglement, the eleven
    descriptions in order and then "Funkcja jest stała" when the outcomes
    sampled for q1 and q2 are both 0, "Funkcja jest zbilansowana"
    otherwise; the step button ends disabled.  With an acceptable text that
    ends in a line feed [create_simulator] raises [ValueError] and leaves
    the window as it was, without a simulator: every call of
    [execute_step] then raises [AttributeError] and changes nothing. *)
Theorem deutsch_window_message
        (text : string) (samples : list bool) (step_enabled setup_enabled : bool) :
  DeutschSequenceValidator.validate text = DeutschSequenceValidator.Acceptable ->
  let w0 := Windows.Deutsch.__init__ step_enabled setup_enabled in
  (single_line text ->
   exists w1 w,
     Windows.Deutsch.create_simulator text samples w0 = (w1, None)
     /\ Windows.press 12 w1 = (w, repeat None 12)
     /\ Windows.texts (Windows.Base.listWidget w)
        = DeutschJozsa.description_sequence
          ++ [if negb (hd false samples) && negb (hd false (tl samples))
              then "Funkcja jest stała"%string
              else "Funkcja jest zbilansowana"%string]
     /\ Windows.Base.step_button w = false)
  /\ (~ single_line text ->
      Windows.Deutsch.create_simulator text samples w0 = (w0, Some Py.ValueError)
      /\ forall n, Windows.press n w0 = (w0, repeat (Some Py.AttributeError) n)).
Proof.
  intros Hacc w0. split.
  - intros Hline. apply deutsch_window_through; assumption.
  - intros Hline. split.
    + apply deutsch_window_line_feed; assumption.
    + intros n. apply press_without_simulator. reflexivity.
Qed.

Lemma deutsch_window_message_witness :
  exists w1 w,
    Windows.Deutsch.create_simulator
      "35172846" [true; false; true] (Windows.Deutsch.__init__ false true)
    = (w1, None)
    /\ Windows.press 12 w1 = (w, repeat None 12)
    /\ Windows.texts (Windows.Base.listWidget w)
       = DeutschJozsa.description_sequence ++ ["Funkcja jest zbilansowana"%string]
    /\ Windows.Base.step_button w = false.
Proof.
  apply (deutsch_window_message "35172846" [true; false; true] false true).
  - reflexivity.
  - unfold single_line. cbn. intros H.
    repeat (apply elem_of_cons in H as [H|H]; [discriminate|]). inversion H.
Defined.

(** ** The Deutsch-Jozsa register stays a product state *)

Section DeutschProducts.

Lemma dj_0_product : dj_0 = product_state 1 2 0 ket0 ket0 ket1.
Proof. ceval. entries; ring. Qed.

Lemma dj_1_product : dj_1 = product_state 1 2 0 (hadamard_ket false) ket0 ket1.
Proof. ceval. entries; ring. Qed.

Lemma dj_2_product :
  dj_2 = product_state 1 2 0 (hadamard_ket false) (hadamard_ket false) ket1.
Proof. ceval. entries; ring. Qed.

Lemma dj_3_product :
  dj_3 = product_state 1 2 0 (hadamard_ket false) (hadamard_ket false)
                       (hadamard_ket true).
Proof. ceval. entries; ring. Qed.

Variables (f00 f01 f10 : bool).

Let f11 := xorb (xorb f00 f01) f10.
Let y1 := xorb f00 f10.
Let y2 := xorb f00 f01.
Let s00 := RtoC (sign f00).
Let s01 := RtoC (sign f01).
Let s10 := RtoC (sign f10).
Let s11 := RtoC (sign f11).

Lemma dj_4_product :
  dj_4 s00 s01 s10 s11
  = product_state 1 2 0 (scale (sign f00) (hadamard_ket y1)) (hadamard_ket y2)
                  (hadamard_ket true).
Proof.
  subst f11 y1 y2 s00 s01 s10 s11.
  destruct f00, f01, f10; ceval; rewrite ?RtoC_m1; entries; ring.
Qed.

Lemma dj_5_product :
  dj_5 s00 s01 s10 s11
  = product_state 1 2 0 (scale (sign f00) (basis_ket y1)) (hadamard_ket y2)
                  (hadamard_ket true).
Proof.
  subst f11 y1 y2 s00 s01 s10 s11.
  destruct f00, f01, f10; ceval; reals; entries; rewrite ?Hs2; try ring; nra.
Qed.

Lemma dj_6_product :
  dj_6 s00 s01 s10 s11
  = product_state 1 2 0 (scale (sign f00) (basis_ket y1)) (basis_ket y2)
                  (hadamard_ket true).
Proof.
  subst f11 y1 y2 s00 s01 s10 s11.
  destruct f00, f01, f10; ceval; reals; entries; rewrite ?Hs2; try ring; nra.
Qed.

Lemma dj_final_product :
  dj_final y1 y2 (sign f00)
  = product_state 1 2 0 (scale (sign f00) (basis_ket y1)) (basis_ket y2) ket1.
Proof.
  subst f11 y1 y2 s00 s01 s10 s11.
  destruct f00, f01, f10; ceval; entries; ring.
Qed.

End DeutschProducts.

Lemma norm2_basis (b : bool) : norm2 (basis_ket b) = 1.
Proof. destruct b; unfold norm2; cbn; ring. Qed.

Lemma norm2_ket0 : norm2 ket0 = 1.
Proof. exact (norm2_basis false). Qed.

Lemma norm2_ket1 : norm2 ket1 = 1.
Proof. exact (norm2_basis true). Qed.

Lemma norm2_hadamard (b : bool) : norm2 (hadamard_ket b) = 1.
Proof.
  pose proof sqrt_half_sq as Hs.
  destruct b; unfold norm2, hadamard_ket, half, RtoC, Copp; cbn [fst snd]; nra.
Qed.

Lemma norm2_scale (sigma : R) (psi : ket) :
  norm2 (scale sigma psi) = sigma * sigma * norm2 psi.
Proof.
  destruct psi as [[a b] [c d]].
  unfold norm2, scale, RtoC, Cmult. cbn [fst snd]. ring.
Qed.

Lemma norm2_signed (f : bool) (psi : ket) :
  norm2 psi = 1 -> norm2 (scale (sign f) psi) = 1.
Proof. intros H. rewrite norm2_scale, sign_sq, H. ring. Qed.

(** On a product state of the three qubits the detector of the scenario
    returns nothing. *)
Lemma dj_product_quiet (oracle : matrix) (v : vector) (ms : gmap string (list Z))
      (psiA psiB psiC : ket) :
  v = product_state 1 2 0 psiA psiB psiC ->
  norm2 psiA = 1 -> norm2 psiB = 1 -> norm2 psiC = 1 ->
  detect_entanglement (DeutschJozsa.class oracle)
    (make_qubits (names (DeutschJozsa.class oracle)))
    {| qubit_order := dj_order; state_vector := v; Cirq.measurements := ms |}
  = inr None.
Proof.
  intros Hv HA HB HC.
  cbn [detect_entanglement DeutschJozsa.class names].
  unfold DeutschJozsa.detect_entanglement, detect_entanglement_tripartite.
  cbn [make_qubits map dict_values snd fst List.filter negb andb
         String.eqb Ascii.eqb Bool.eqb].
  rewrite (product_rounded_quantities _ _ _ _ 1 2 0 psiA psiB psiC);
    try reflexivity; try lia; try exact Hv.
  - cbn [Py.bind]. rewrite classify_cases, Reqb_refl. reflexivity.
  - rewrite HA, HB, HC. ring.
Qed.

Lemma dj_steps_quiet (oracle : matrix) (f00 f01 f10 : bool) :
  Forall (fun s => detect_entanglement (DeutschJozsa.class oracle)
                     (make_qubits (names (DeutschJozsa.class oracle))) s
                   = inr None)
         (dj_steps (RtoC (sign f00)) (RtoC (sign f01)) (RtoC (sign f10))
                   (RtoC (sign (xorb (xorb f00 f01) f10)))
                   (xorb f00 f10) (xorb f00 f01) (sign f00)).
Proof.
  unfold dj_steps.
  repeat apply List.Forall_cons; try apply List.Forall_nil.
  - eapply dj_product_quiet; [apply dj_0_product|..]; auto using norm2_ket0, norm2_ket1.
  - eapply dj_product_quiet; [apply dj_1_product|..];
      auto using norm2_ket0, norm2_ket1, norm2_hadamard.
  - eapply dj_product_quiet; [apply dj_2_product|..];
      auto using norm2_ket0, norm2_ket1, norm2_hadamard.
  - eapply dj_product_quiet; [apply dj_3_product|..]; auto using norm2_hadamard.
  - eapply dj_product_quiet; [apply dj_4_product|..];
      auto using norm2_hadamard, norm2_signed.
  - eapply dj_product_quiet; [apply dj_5_product|..];
      auto using norm2_hadamard, norm2_basis, norm2_signed.
  - eapply dj_product_quiet; [apply dj_6_product|..];
      auto using norm2_hadamard, norm2_basis, norm2_signed.
  - rewrite (dj_7_affine f00 f01 f10).
    eapply dj_product_quiet; [apply dj_final_product|..];
      auto using norm2_ket1, norm2_basis, norm2_signed.
  - eapply dj_product_quiet; [apply dj_final_product|..];
      auto using norm2_ket1, norm2_basis, norm2_signed.
  - eapply dj_product_quiet; [apply dj_final_product|..];
      auto using norm2_ket1, norm2_basis, norm2_signed.
  - eapply dj_product_quiet; [apply dj_final_product|..];
      auto using norm2_ket1, norm2_basis, norm2_signed.
Qed.

Lemma remove_measured_empty (measured : option Py.value) :
  remove_measured ∅ measured = ∅.
Proof.
  unfold remove_measured. destruct measured as [m|]; [|reflexivity].
  rewrite bool_decide_eq_false_2 by set_solver. reflexivity.
Qed.

(** A run on which the detector never returns anything leaves the
    entangled set empty. *)
Lemma quiet_run c :
  scenario c ->
  forall steps (self : SteppingSimInterface.object),
    running c self -> _sim_iter self = steps ->
    currently_entangled self = ∅ ->
    Forall (fun s => detect_entanglement c (make_qubits (names c)) s = inr None) steps ->
    forall k, currently_entangled (after_steps k self) = ∅.
Proof.
  intros Hc. induction steps as [|s steps IH]; intros self Hrun Hit Hce Hq k.
  - rewrite (exhausted_forever self k Hit). exact Hce.
  - destruct k as [|k]; [exact Hce|]. rewrite after_steps_S.
    destruct (running_step c self s steps Hc Hrun Hit)
      as (d & ds & ce & Ed & Hstep & Hce' & Hrun' & Hit' & _).
    apply Forall_cons in Hq as [Hs Hq].
    apply IH; try assumption.
    destruct Hrun as (Hcls & Hqs & Hv & Hm & _).
    rewrite Hit in Hv, Hm. apply Forall_cons in Hv as [Hv _].
    destruct (bloch_vectors_total self s) as [bv Hbv].
    { rewrite Hqs. apply Hv. }
    destruct (_measurements self) as [|m ms] eqn:Em; [discriminate|].
    assert (Hdet : detect_entanglement (cls self) (qubits self) s = inr None)
      by (rewrite Hcls, Hqs; exact Hs).
    rewrite (step_yields self s steps None bv m ms d ds Hit Hdet Hbv Em Ed).
    cbn [fst currently_entangled add_all]. rewrite Hce. apply remove_measured_empty.
Qed.

Section QuietWindow.
Import Windows Windows.Base.

Lemma deutsch_window_quiet (f00 f01 f10 f11 : bool) (samples : list bool)
      (step_enabled setup_enabled : bool) :
  is_constant f00 f01 f10 f11 || is_balanced f00 f01 f10 f11 = true ->
  possible (Circuit_NEW (dj_ops (oracle_of f00 f01 f10 f11))) samples ->
  exists w1 w,
    Deutsch.create_simulator (oracle_text f00 f01 f10 f11) samples
                             (Deutsch.__init__ step_enabled setup_enabled)
    = (w1, None)
    /\ press 12 w1 = (w, repeat None 12)
    /\ listWidget w
       = map Text (DeutschJozsa.description_sequence
                   ++ [if is_constant f00 f01 f10 f11
                       then "Funkcja jest stała"%string
                       else "Funkcja jest zbilansowana"%string]).
Proof.
  intros Hf Hposs.
  destruct (affine_of_constant_or_balanced _ _ _ _ Hf) as [-> Hconst].
  rewrite Hconst.
  pose proof (dj_init f00 f01 f10 samples Hposs) as Hinit. cbn zeta in Hinit.
  set (f11 := xorb (xorb f00 f01) f10) in *.
  unfold Deutsch.create_simulator.
  rewrite oracle_text_acceptable, array_def_oracle_text.
  set (oracle := oracle_of f00 f01 f10 f11) in *.
  set (c := DeutschJozsa.class oracle) in *.
  set (y1 := xorb f00 f10) in *. set (y2 := xorb f00 f01) in *.
  rewrite Hinit. cbn [install].
  match goal with
  | |- exists w1 w, (?x, None) = (w1, None) /\ _ => exists x; set (w1 := x)
  end.
  match type of Hinit with _ = inr ?s => set (self := s) in * end.
  destruct (tripartite_window_end c samples w1 self
              (tripartite_deutsch_jozsa oracle) Hinit eq_refl
              (deutsch_drawable oracle w1 eq_refl))
    as (w' & bvs & final & Hbvs & Hlast & Hpress & _ & Hlog & Hend).
  assert (Hquiet : forall k, currently_entangled (after_steps k self) = ∅).
  { destruct (init_running c samples (scenario_deutsch_jozsa oracle))
      as (self' & Hinit' & Hrun & _).
    rewrite Hinit in Hinit'. injection Hinit' as <-.
    apply (quiet_run c (scenario_deutsch_jozsa oracle) (_sim_iter self) self Hrun
             eq_refl eq_refl).
    apply dj_steps_quiet. }
  specialize (Hlog (fun k _ => Hquiet (S k))).
  cbn [_sim_iter self] in Hlast. unfold dj_steps in Hlast. cbn [last] in Hlast.
  injection Hlast as <-.
  destruct (Hend (negb y1 && negb y2)) as (w & Hw & _ & Hlogw).
  { change (check_results c) with DeutschJozsa.check_results.
    unfold DeutschJozsa.check_results, DeutschJozsa.measured_bit.
    cbn [Cirq.measurements].
    rewrite lookup_insert_ne by discriminate.
    rewrite lookup_insert_ne by discriminate.
    rewrite lookup_insert_eq.
    rewrite lookup_insert_ne by discriminate.
    rewrite lookup_insert_eq.
    destruct y1, y2; reflexivity. }
  exists w. split; [reflexivity|]. split; [exact Hw|].
  rewrite Hlogw, Hlog, map_app. cbn [listWidget w1 app map].
  destruct (negb y1 && negb y2); reflexivity.
Qed.

End QuietWindow.

(** X16. In the Deutsch-Jozsa window with the oracle text of a constant or
    of a balanced function no step reports entanglement: on every run the
    simulator can produce, the whole log consists of the eleven
    descriptions followed by "Funkcja jest stała" for a constant and by
    "Funkcja jest zbilansowana" for a balanced function. *)
Theorem deutsch_window_reports_no_entanglement
        (f00 f01 f10 f11 : bool) (samples : list bool)
        (step_enabled setup_enabled : bool) :
  is_constant f00 f01 f10 f11 || is_balanced f00 f01 f10 f11 = true ->
  possible (Circuit_NEW (dj_ops (oracle_of f00 f01 f10 f11))) samples ->
  exists w1 w,
    Windows.Deutsch.create_simulator
      (oracle_text f00 f01 f10 f11) samples
      (Windows.Deutsch.__init__ step_enabled setup_enabled)
    = (w1, None)
    /\ Windows.press 12 w1 = (w, repeat None 12)
    /\ Windows.Base.listWidget w
       = map Windows.Text
             (DeutschJozsa.description_sequence
              ++ [if is_constant f00 f01 f10 f11
                  then "Funkcja jest stała"%string
                  else "Funkcja jest zbilansowana"%string]).
Proof. apply deutsch_window_quiet. Qed.

Lemma deutsch_window_reports_no_entanglement_witness :
  exists w1 w,
    Windows.Deutsch.create_simulator
      "12346587" [true; false; true] (Windows.Deutsch.__init__ false true)
    = (w1, None)
    /\ Windows.press 12 w1 = (w, repeat None 12)
    /\ Windows.Base.listWidget w
       = map Windows.Text
             (DeutschJozsa.description_sequence ++ ["Funkcja jest zbilansowana"%string]).
Proof.
  assert (E : oracle_text false false true true = "12346587"%string) by reflexivity.
  pose proof (deutsch_window_reports_no_entanglement
                false false true true [true; false; true] false true eq_refl) as H.
  rewrite E in H. apply H.
  apply (dj_possible_intro false false true); reflexivity.
Defined.

(** ** States with one entangled pair *)

Lemma RtoC_3 : RtoC 3 = (RtoC 1 + RtoC 1 + RtoC 1)%C.
Proof. unfold RtoC, Cplus; cbn. f_equal; ring. Qed.

Ltac six_axes Hk :=
  repeat (apply elem_of_cons in Hk as [Hk|Hk]; [injection Hk as -> -> ->|]);
  try (inversion Hk; fail).

Ltac pair_ring :=
  ceval; rewrite ?Cconj_mult, ?RtoC_2, ?RtoC_3; ring.

Ltac pair_hdet :=
  eexists; (split; [reflexivity|]);
  rewrite hdet_spec_h; unfold spec_h, Csqr; ceval; rewrite RtoC_2, RtoC_4; ring.

Section PairStates.

Variables (phi : pair_ket) (psi : ket).

(** The squared norms of the two factors, as complex numbers. *)
Let Nphi : C :=
  let '(a00, a01, a10, a11) := phi in
  (a00 * Cconj a00 + a01 * Cconj a01 + a10 * Cconj a10 + a11 * Cconj a11)%C.

Let Npsi : C := (fst psi * Cconj (fst psi) + snd psi * Cconj (snd psi))%C.

Let N : C := (Nphi * Npsi)%C.

(** The pair sits on A and B. *)
Lemma pair_invariants_AB (kA kB kC : nat) :
  (kA, kB, kC) ∈ [(0, 1, 2); (0, 2, 1); (1, 0, 2); (1, 2, 0); (2, 0, 1); (2, 1, 0)]%nat ->
  let sv := pair_state kA kB kC phi psi in
  let rhoA := partial_trace 3 sv [kA] in
  let rhoB := partial_trace 3 sv [kB] in
  let rhoC := partial_trace 3 sv [kC] in
  let rhoAB := partial_trace 3 sv [kA; kB] in
  trace (matmul rhoA rhoA) = (pair_purity_C phi * (Npsi * Npsi))%C
  /\ trace (matmul rhoB rhoB) = (pair_purity_C phi * (Npsi * Npsi))%C
  /\ trace (matmul rhoC rhoC) = (N * N)%C
  /\ (RtoC 2 * trace (matmul (kron rhoA rhoB) rhoAB)
      = RtoC 3 * (pair_purity_C phi * (Npsi * Npsi)) * N - N * N * N)%C
  /\ exists t, reshape222 sv = inr t /\ hdet t = RtoC 0.
Proof.
  intros Hk sv rhoA rhoB rhoC rhoAB.
  subst sv rhoA rhoB rhoC rhoAB N Nphi Npsi.
  destruct phi as [[[a00 a01] a10] a11], psi as [c0 c1].
  six_axes Hk.
  all: repeat split; try pair_ring.
  all: pair_hdet.
Qed.

(** The pair sits on B and C. *)
Lemma pair_invariants_BC (kA kB kC : nat) :
  (kA, kB, kC) ∈ [(0, 1, 2); (0, 2, 1); (1, 0, 2); (1, 2, 0); (2, 0, 1); (2, 1, 0)]%nat ->
  let sv := pair_state kB kC kA phi psi in
  let rhoA := partial_trace 3 sv [kA] in
  let rhoB := partial_trace 3 sv [kB] in
  let rhoC := partial_trace 3 sv [kC] in
  let rhoAB := partial_trace 3 sv [kA; kB] in
  trace (matmul rhoA rhoA) = (N * N)%C
  /\ trace (matmul rhoB rhoB) = (pair_purity_C phi * (Npsi * Npsi))%C
  /\ trace (matmul rhoC rhoC) = (pair_purity_C phi * (Npsi * Npsi))%C
  /\ trace (matmul (kron rhoA rhoB) rhoAB)
     = (pair_purity_C phi * (Npsi * Npsi) * N)%C
  /\ exists t, reshape222 sv = inr t /\ hdet t = RtoC 0.
Proof.
  intros Hk sv rhoA rhoB rhoC rhoAB.
  subst sv rhoA rhoB rhoC rhoAB N Nphi Npsi.
  destruct phi as [[[a00 a01] a10] a11], psi as [c0 c1].
  six_axes Hk.
  all: repeat split; try pair_ring.
  all: pair_hdet.
Qed.

(** The pair sits on A and C. *)
Lemma pair_invariants_AC (kA kB kC : nat) :
  (kA, kB, kC) ∈ [(0, 1, 2); (0, 2, 1); (1, 0, 2); (1, 2, 0); (2, 0, 1); (2, 1, 0)]%nat ->
  let sv := pair_state kA kC kB phi psi in
  let rhoA := partial_trace 3 sv [kA] in
  let rhoB := partial_trace 3 sv [kB] in
  let rhoC := partial_trace 3 sv [kC] in
  let rhoAB := partial_trace 3 sv [kA; kB] in
  trace (matmul rhoA rhoA) = (pair_purity_C phi * (Npsi * Npsi))%C
  /\ trace (matmul rhoB rhoB) = (N * N)%C
  /\ trace (matmul rhoC rhoC) = (pair_purity_C phi * (Npsi * Npsi))%C
  /\ trace (matmul (kron rhoA rhoB) rhoAB)
     = (pair_purity_C phi * (Npsi * Npsi) * N)%C
  /\ exists t, reshape222 sv = inr t /\ hdet t = RtoC 0.
Proof.
  intros Hk sv rhoA rhoB rhoC rhoAB.
  subst sv rhoA rhoB rhoC rhoAB N Nphi Npsi.
  destruct phi as [[[a00 a01] a10] a11], psi as [c0 c1].
  six_axes Hk.
  all: repeat split; try pair_ring.
  all: pair_hdet.
Qed.

Hypothesis norm_phi : pair_norm2 phi = 1.
Hypothesis norm_psi : norm2 psi = 1.

Lemma Nphi_one : Nphi = RtoC 1.
Proof.
  subst Nphi. revert norm_phi. destruct phi as [[[[a b] [c d]] [e f]] [g h]].
  unfold pair_norm2, norm2, RtoC, Cplus, Cmult, Cconj. cbn [fst snd].
  intros H. f_equal; [rewrite <- H|]; ring.
Qed.

Lemma Npsi_one : Npsi = RtoC 1.
Proof. subst Npsi. rewrite norm2_C, norm_psi. reflexivity. Qed.

Lemma purity_times_one :
  float (pair_purity_C phi * (RtoC 1 * RtoC 1))%C = pair_purity phi.
Proof.
  unfold pair_purity, Cre, float. destruct (pair_purity_C phi) as [pr pi].
  unfold Cmult, RtoC. cbn [fst snd]. ring.
Qed.

Section OnAStep.

Variables (result : SparseSimulatorStep) (A B C : Qid) (kA kB kC : nat).

Hypothesis three : length (qubit_order result) = 3%nat.
Hypothesis posA : position A (qubit_order result) = inr kA.
Hypothesis posB : position B (qubit_order result) = inr kB.
Hypothesis posC : position C (qubit_order result) = inr kC.
Hypothesis axes : kA <> kB /\ kA <> kC /\ kB <> kC.
Hypothesis bounds : (kA < 3)%nat /\ (kB < 3)%nat /\ (kC < 3)%nat.

Lemma six : 
  (kA, kB, kC) ∈ [(0, 1, 2); (0, 2, 1); (1, 0, 2); (1, 2, 0); (2, 0, 1); (2, 1, 0)]%nat.
Proof. apply three_axes; tauto. Qed.

Ltac open_invariants Et :=
  unfold rounded_quantities, invariants;
  cbn [Py.getitem lookup list_lookup Py.bind Py.ret];
  rewrite (position_axes result [C] [kC]) by (repeat constructor; assumption);
  rewrite (position_axes result [A; B] [kA; kB])
    by first [apply has_duplicates_two; tauto | repeat constructor; assumption];
  rewrite (position_axes result [A] [kA]) by (repeat constructor; assumption);
  rewrite (position_axes result [B] [kB]) by (repeat constructor; assumption);
  cbn [Py.bind]; rewrite three.

Lemma pair_rounded_AB :
  state_vector result = pair_state kA kB kC phi psi ->
  rounded_quantities result [A; B; C]
  = inr (0, 0, Num.round ((1 - pair_purity phi) / 2) 6, 0, 0).
Proof.
  intros Hsv.
  destruct (pair_invariants_AB kA kB kC six) as (E1 & E2 & E3 & E4 & t & Et & Eh).
  unfold N in E1, E2, E3, E4.
  repeat match goal with
         | H : context [Nphi] |- _ => rewrite Nphi_one in H
         | H : context [Npsi] |- _ => rewrite Npsi_one in H
         end.
  open_invariants Et. rewrite Hsv, Et. cbn [Py.bind].
  rewrite E1, E2, E3, Eh, Cabs_0.
  assert (E4' : float (trace (matmul
                   (kron (partial_trace 3 (pair_state kA kB kC phi psi) [kA])
                         (partial_trace 3 (pair_state kA kB kC phi psi) [kB]))
                   (partial_trace 3 (pair_state kA kB kC phi psi) [kA; kB])))
                = (3 * pair_purity phi - 1) / 2).
  { revert E4. generalize (trace (matmul
                   (kron (partial_trace 3 (pair_state kA kB kC phi psi) [kA])
                         (partial_trace 3 (pair_state kA kB kC phi psi) [kB]))
                   (partial_trace 3 (pair_state kA kB kC phi psi) [kA; kB]))).
    intros [x y] E4. apply (f_equal fst) in E4. revert E4.
    unfold pair_purity, Cre, float. destruct (pair_purity_C phi) as [pr pi].
    unfold Cmult, Cminus, RtoC. cbn [fst snd]. lra. }
  replace (float (RtoC 1 * RtoC 1 * (RtoC 1 * RtoC 1))%C) with 1
    by (unfold float, Cmult, RtoC; cbn [fst snd]; ring).
  rewrite E4', purity_times_one. unfold Py.ret. cbn [Py.bind].
  replace (0 ^ 2) with 0 by ring.
  rewrite derived_spec_j by lra. cbn [Py.bind Py.ret].
  unfold spec_j, rounded. rewrite sqrt_0.
  set (p := pair_purity phi).
  replace ((1 + p - p - 1 - 2 * 0) / 4) with 0 by field.
  replace ((1 - p + p - 1 - 2 * 0) / 4) with 0 by field.
  replace ((1 - p - p + 1 - 2 * 0) / 4) with ((1 - p) / 2) by field.
  replace ((3 - 3 * p - 3 * p - 1 + 4 * ((3 * p - 1) / 2) - 2 * 0) / 4) with 0 by field.
  rewrite round_0. reflexivity.
Qed.

Lemma pair_rounded_BC :
  state_vector result = pair_state kB kC kA phi psi ->
  rounded_quantities result [A; B; C]
  = inr (Num.round ((1 - pair_purity phi) / 2) 6, 0, 0, 0, 0).
Proof.
  intros Hsv.
  destruct (pair_invariants_BC kA kB kC six) as (E1 & E2 & E3 & E4 & t & Et & Eh).
  unfold N in E1, E2, E3, E4.
  repeat match goal with
         | H : context [Nphi] |- _ => rewrite Nphi_one in H
         | H : context [Npsi] |- _ => rewrite Npsi_one in H
         end.
  open_invariants Et. rewrite Hsv, Et. cbn [Py.bind].
  rewrite E1, E2, E3, E4, Eh, Cabs_0.
  replace (float (pair_purity_C phi * (RtoC 1 * RtoC 1) * (RtoC 1 * RtoC 1))%C)
    with (pair_purity phi).
  2:{ unfold pair_purity, Cre, float. destruct (pair_purity_C phi) as [pr pi].
      unfold Cmult, RtoC. cbn [fst snd]. ring. }
  replace (float (RtoC 1 * RtoC 1 * (RtoC 1 * RtoC 1))%C) with 1
    by (unfold float, Cmult, RtoC; cbn [fst snd]; ring).
  rewrite purity_times_one. unfold Py.ret. cbn [Py.bind].
  replace (0 ^ 2) with 0 by ring.
  rewrite derived_spec_j by lra. cbn [Py.bind Py.ret].
  unfold spec_j, rounded. rewrite sqrt_0.
  set (p := pair_purity phi).
  replace ((1 + 1 - p - p - 2 * 0) / 4) with ((1 - p) / 2) by field.
  replace ((1 - 1 + p - p - 2 * 0) / 4) with 0 by field.
  replace ((1 - 1 - p + p - 2 * 0) / 4) with 0 by field.
  replace ((3 - 3 * 1 - 3 * p - p + 4 * p - 2 * 0) / 4) with 0 by field.
  rewrite round_0. reflexivity.
Qed.

Lemma pair_rounded_AC :
  state_vector result = pair_state kA kC kB phi psi ->
  rounded_quantities result [A; B; C]
  = inr (0, Num.round ((1 - pair_purity phi) / 2) 6, 0, 0, 0).
Proof.
  intros Hsv.
  destruct (pair_invariants_AC kA kB kC six) as (E1 & E2 & E3 & E4 & t & Et & Eh).
  unfold N in E1, E2, E3, E4.
  repeat match goal with
         | H : context [Nphi] |- _ => rewrite Nphi_one in H
         | H : context [Npsi] |- _ => rewrite Npsi_one in H
         end.
  open_invariants Et. rewrite Hsv, Et. cbn [Py.bind].
  rewrite E1, E2, E3, E4, Eh, Cabs_0.
  replace (float (pair_purity_C phi * (RtoC 1 * RtoC 1) * (RtoC 1 * RtoC 1))%C)
    with (pair_purity phi).
  2:{ unfold pair_purity, Cre, float. destruct (pair_purity_C phi) as [pr pi].
      unfold Cmult, RtoC. cbn [fst snd]. ring. }
  replace (float (RtoC 1 * RtoC 1 * (RtoC 1 * RtoC 1))%C) with 1
    by (unfold float, Cmult, RtoC; cbn [fst snd]; ring).
  rewrite purity_times_one. unfold Py.ret. cbn [Py.bind].
  replace (0 ^ 2) with 0 by ring.
  rewrite derived_spec_j by lra. cbn [Py.bind Py.ret].
  unfold spec_j, rounded. rewrite sqrt_0.
  set (p := pair_purity phi).
  replace ((1 + p - 1 - p - 2 * 0) / 4) with 0 by field.
  replace ((1 - p + 1 - p - 2 * 0) / 4) with ((1 - p) / 2) by field.
  replace ((1 - p - 1 + p - 2 * 0) / 4) with 0 by field.
  replace ((3 - 3 * p - 3 * 1 - p + 4 * p - 2 * 0) / 4) with 0 by field.
  rewrite round_0. reflexivity.
Qed.

End OnAStep.

End PairStates.

Lemma classify_one_pair (r : R) (A B C : Qid) :
  classify (0, 0, r, 0, 0) [A; B; C]
  = inr (if Reqb r 0 then (false, "fully_separable"%string, None)
         else (true, "bipartite"%string, Some [A; B]))
  /\ classify (r, 0, 0, 0, 0) [A; B; C]
     = inr (if Reqb r 0 then (false, "fully_separable"%string, None)
            else (true, "bipartite"%string, Some [B; C]))
  /\ classify (0, r, 0, 0, 0) [A; B; C]
     = inr (if Reqb r 0 then (false, "fully_separable"%string, None)
            else (true, "bipartite"%string, Some [A; C])).
Proof.
  rewrite !classify_cases, !Reqb_refl. destruct (Reqb r 0); repeat split.
Qed.

Lemma pair_detected
      (phi : pair_ket) (psi : ket) (result : SparseSimulatorStep)
      (A B C : Qid) (kA kB kC : nat) :
  pair_norm2 phi = 1 -> norm2 psi = 1 ->
  length (qubit_order result) = 3%nat ->
  position A (qubit_order result) = inr kA ->
  position B (qubit_order result) = inr kB ->
  position C (qubit_order result) = inr kC ->
  kA <> kB /\ kA <> kC /\ kB <> kC ->
  (kA < 3)%nat /\ (kB < 3)%nat /\ (kC < 3)%nat ->
  (state_vector result = pair_state kA kB kC phi psi ->
   detect_entanglement_tripartite result [A; B; C]
   = inr (pair_verdict (pair_purity phi) A B))
  /\ (state_vector result = pair_state kB kC kA phi psi ->
      detect_entanglement_tripartite result [A; B; C]
      = inr (pair_verdict (pair_purity phi) B C))
  /\ (state_vector result = pair_state kA kC kB phi psi ->
      detect_entanglement_tripartite result [A; B; C]
      = inr (pair_verdict (pair_purity phi) A C)).
Proof.
  intros Hphi Hpsi Hn HA HB HC Hax Hb.
  destruct (classify_one_pair (Num.round ((1 - pair_purity phi) / 2) 6) A B C)
    as (C1 & C2 & C3).
  unfold detect_entanglement_tripartite, pair_verdict.
  split; [|split]; intros Hsv.
  - rewrite (pair_rounded_AB phi psi Hphi Hpsi result A B C kA kB kC Hn HA HB HC Hax Hb Hsv).
    exact C1.
  - rewrite (pair_rounded_BC phi psi Hphi Hpsi result A B C kA kB kC Hn HA HB HC Hax Hb Hsv).
    exact C2.
  - rewrite (pair_rounded_AC phi psi Hphi Hpsi result A B C kA kB kC Hn HA HB HC Hax Hb Hsv).
    exact C3.
Qed.

Lemma bell_pair_norm : pair_norm2 bell_pair = 1.
Proof.
  pose proof sqrt_half_sq as Hs.
  unfold pair_norm2, bell_pair, norm2, half, RtoC. cbn [fst snd]. lra.
Qed.

Lemma bell_pair_purity : pair_purity bell_pair = 1 / 2.
Proof.
  pose proof sqrt_half_sq as Hs.
  unfold pair_purity, pair_purity_C, bell_pair, Cre, half, RtoC, Cplus, Cmult, Cconj.
  cbn [fst snd]. nra.
Qed.

Lemma bell_pair_verdict (P Q : Qid) :
  pair_verdict (pair_purity bell_pair) P Q = (true, "bipartite"%string, Some [P; Q]).
Proof.
  unfold pair_verdict. rewrite bell_pair_purity.
  replace ((1 - 1 / 2) / 2) with (1 / 4) by field.
  rewrite round_quarter.
  replace (Reqb (1 / 4) 0) with false; [reflexivity|].
  symmetry. apply Reqb_false. lra.
Qed.

Lemma bell_ab_pair_state :
  state_vector bell_ab_step = pair_state 0 1 2 bell_pair ket0.
Proof. ceval. entries; ring. Qed.

(** X17. On a state that is the product of a two-qubit state and a
    single-qubit state the tripartite witness never answers "tripartite"
    and never names a pair that includes the free qubit: it names the two
    qubits of the two-qubit factor when [(1 - p) / 2], with [p] the purity
    of either of them, does not round to zero, and answers "fully
    separable" otherwise; whatever axes the qubits sit on. *)
Theorem one_pair_never_tripartite
        (phi : pair_ket) (psi : ket) (result : SparseSimulatorStep)
        (A B C : Qid) (kA kB kC : nat) :
  pair_norm2 phi = 1 -> norm2 psi = 1 ->
  length (qubit_order result) = 3%nat ->
  position A (qubit_order result) = inr kA ->
  position B (qubit_order result) = inr kB ->
  position C (qubit_order result) = inr kC ->
  kA <> kB /\ kA <> kC /\ kB <> kC ->
  (kA < 3)%nat /\ (kB < 3)%nat /\ (kC < 3)%nat ->
  (state_vector result = pair_state kA kB kC phi psi ->
   detect_entanglement_tripartite result [A; B; C]
   = inr (pair_verdict (pair_purity phi) A B))
  /\ (state_vector result = pair_state kB kC kA phi psi ->
      detect_entanglement_tripartite result [A; B; C]
      = inr (pair_verdict (pair_purity phi) B C))
  /\ (state_vector result = pair_state kA kC kB phi psi ->
      detect_entanglement_tripartite result [A; B; C]
      = inr (pair_verdict (pair_purity phi) A C)).
Proof. apply pair_detected. Qed.

Lemma one_pair_never_tripartite_witness :
  detect_entanglement_tripartite bell_ab_step
    [Py.NamedQubit "A"; Py.NamedQubit "B"; Py.NamedQubit "C"]
  = inr (pair_verdict (pair_purity bell_pair) (Py.NamedQubit "A") (Py.NamedQubit "B")).
Proof.
  apply (one_pair_never_tripartite
           bell_pair ket0 bell_ab_step
           (Py.NamedQubit "A") (Py.NamedQubit "B") (Py.NamedQubit "C") 0 1 2).
  - apply bell_pair_norm.
  - apply norm2_ket0.
  - reflexivity.
  - reflexivity.
  - reflexivity.
  - reflexivity.
  - lia.
  - lia.
  - apply bell_ab_pair_state.
Defined.

(** X18. A Bell pair on two of the three qubits, with the third qubit in any
    pure state, is reported as bipartite entanglement of exactly these two
    qubits, whatever axes the qubits sit on. *)
Theorem bell_pair_is_bipartite
        (psi : ket) (result : SparseSimulatorStep)
        (A B C : Qid) (kA kB kC : nat) :
  norm2 psi = 1 ->
  length (qubit_order result) = 3%nat ->
  position A (qubit_order result) = inr kA ->
  position B (qubit_order result) = inr kB ->
  position C (qubit_order result) = inr kC ->
  kA <> kB /\ kA <> kC /\ kB <> kC ->
  (kA < 3)%nat /\ (kB < 3)%nat /\ (kC < 3)%nat ->
  (state_vector result = pair_state kA kB kC bell_pair psi ->
   detect_entanglement_tripartite result [A; B; C]
   = inr (true, "bipartite"%string, Some [A; B]))
  /\ (state_vector result = pair_state kB kC kA bell_pair psi ->
      detect_entanglement_tripartite result [A; B; C]
      = inr (true, "bipartite"%string, Some [B; C]))
  /\ (state_vector result = pair_state kA kC kB bell_pair psi ->
      detect_entanglement_tripartite result [A; B; C]
      = inr (true, "bipartite"%string, Some [A; C])).
Proof.
  intros Hpsi Hn HA HB HC Hax Hb.
  destruct (pair_detected bell_pair psi result A B C kA kB kC bell_pair_norm Hpsi
              Hn HA HB HC Hax Hb) as (H1 & H2 & H3).
  rewrite !bell_pair_verdict in *. auto.
Qed.

Lemma bell_pair_is_bipartite_witness :
  detect_entanglement_tripartite
    (pure_step tele_order (pair_state 0 1 2 bell_pair (hadamard_ket false)))
    [Py.NamedQubit "msg"; Py.NamedQubit "alice"; Py.NamedQubit "bob"]
  = inr (true, "bipartite"%string, Some [Py.NamedQubit "alice"; Py.NamedQubit "bob"]).
Proof.
  apply (proj1 (proj2 (bell_pair_is_bipartite
                         (hadamard_ket false)
                         (pure_step tele_order
                                    (pair_state 0 1 2 bell_pair (hadamard_ket false)))
                         (Py.NamedQubit "msg") (Py.NamedQubit "alice")
                         (Py.NamedQubit "bob") 2 0 1
                         (norm2_hadamard false) eq_refl eq_refl eq_refl eq_refl
                         ltac:(lia) ltac:(lia)))).
  reflexivity.
Defined.

(** ** The entangled sets of a run *)

Lemma running_step_emits c self s it e :
  scenario c -> running c self -> _sim_iter self = s :: it ->
  detect_entanglement c (make_qubits (names c)) s = inr e ->
  exists d ds m ms,
    _desc self = d :: ds /\ _measurements self = m :: ms
    /\ snd (step self)
       = inr (s, d, remove_measured (add_all (currently_entangled self) e) m)
    /\ currently_entangled (fst (step self))
       = remove_measured (add_all (currently_entangled self) e) m
    /\ running c (fst (step self))
    /\ _sim_iter (fst (step self)) = it
    /\ _desc (fst (step self)) = ds
    /\ _measurements (fst (step self)) = ms.
Proof.
  intros Hc (Hcls & Hq & Hv & Hm & Hd) Hit Hdet.
  rewrite Hit in Hv, Hm, Hd. apply Forall_cons in Hv as [Hs Hv].
  destruct (bloch_vectors_total self s) as [bv Hbv].
  { rewrite Hq. apply Hs. }
  destruct (_measurements self) as [|m ms] eqn:Em; [discriminate|].
  destruct (_desc self) as [|d ds] eqn:Ed; [discriminate|].
  assert (Hdet' : detect_entanglement (cls self) (qubits self) s = inr e)
    by (rewrite Hcls, Hq; exact Hdet).
  pose proof (step_yields self s it e bv m ms d ds Hit Hdet' Hbv Em Ed) as Hstep.
  cbn zeta in Hstep. rewrite Hstep. cbn [fst snd].
  exists d, ds, m, ms. repeat split; try reflexivity; try assumption;
    cbn [cls qubits _sim_iter _measurements _desc]; cbn in Hm, Hd; lia.
Qed.

Lemma emitted_sets c :
  scenario c ->
  forall steps (self : SteppingSimInterface.object) dets,
    running c self -> _sim_iter self = steps ->
    Forall2 (fun s e => detect_entanglement c (make_qubits (names c)) s = inr e)
            steps dets ->
    forall k s d,
      steps !! k = Some s -> _desc self !! k = Some d ->
      snd (step (after_steps k self))
      = inr (s, d, updated (currently_entangled self)
                           (take (S k) (zip dets (_measurements self)))).
Proof.
  intros Hc. induction steps as [|s0 steps IH]; intros self dets Hrun Hit Hdets k s d Hs Hd.
  - destruct k; discriminate Hs.
  - apply Forall2_cons_inv_l in Hdets as (e & dets' & He & Hdets & ->).
    destruct (running_step_emits c self s0 steps e Hc Hrun Hit He)
      as (d0 & ds & m & ms & Ed & Em & Hstep & Hce & Hrun' & Hit' & Hd' & Hm').
    rewrite Em. destruct k as [|k].
    + cbn in Hs. injection Hs as <-. rewrite Ed in Hd. cbn in Hd. injection Hd as <-.
      cbn. exact Hstep.
    + rewrite after_steps_S.
      rewrite (IH (fst (step self)) dets' Hrun' Hit' Hdets k s d).
      * rewrite Hce, Hm'. reflexivity.
      * exact Hs.
      * rewrite Hd'. rewrite Ed in Hd. exact Hd.
Qed.

(** ** The entangled sets of the teleportation scenario *)

Lemma tele_0_product (al be : C) :
  tele_0 al be = product_state 2 0 1 (al, be) ket0 ket0.
Proof. ceval. entries; ring. Qed.

Lemma tele_1_product (al be : C) :
  tele_1 al be = product_state 2 0 1 (al, be) (hadamard_ket false) ket0.
Proof. ceval. entries; ring. Qed.

Lemma tele_2_pair (al be : C) :
  tele_2 al be = pair_state 0 1 2 bell_pair (al, be).
Proof. ceval. entries; ring. Qed.

Lemma tele_3_pair : tele_3 (RtoC 1) (RtoC 0) = pair_state 0 1 2 bell_pair ket0.
Proof. ceval. entries; ring. Qed.

Lemma tele_4_pair :
  tele_4 (RtoC 1) (RtoC 0) = pair_state 0 1 2 bell_pair (hadamard_ket false).
Proof. ceval. entries; ring. Qed.

Lemma tele_5_pair (m : bool) :
  tele_5 (RtoC 1) (RtoC 0) m = pair_state 0 1 2 bell_pair (basis_ket m).
Proof. destruct m; ceval; entries; ring. Qed.

Lemma tele_6_product (m a : bool) :
  tele_6 (RtoC 1) (RtoC 0) m a
  = product_state 2 0 1 (basis_ket m) (basis_ket a) (basis_ket a).
Proof. destruct m, a; ceval; entries; ring. Qed.

Lemma tele_7_product (m a : bool) :
  tele_7 (RtoC 1) (RtoC 0) m a
  = product_state 2 0 1 (basis_ket m) (basis_ket a) ket0.
Proof. destruct m, a; ceval; entries; ring. Qed.

Lemma tele_8_product (m a : bool) :
  tele_8 (RtoC 1) (RtoC 0) m a
  = product_state 2 0 1 (basis_ket m) (basis_ket a) ket0.
Proof. destruct m, a; ceval; entries; ring. Qed.

Section TeleportationDetections.

Variables (what_gate : string) (phase : R).

Let c := QuantumTeleportation.class what_gate phase.

Lemma tele_product_quiet (v : vector) (ms : gmap string (list Z))
      (psiA psiB psiC : ket) :
  v = product_state 2 0 1 psiA psiB psiC ->
  norm2 psiA = 1 -> norm2 psiB = 1 -> norm2 psiC = 1 ->
  detect_entanglement c (make_qubits (names c))
    {| qubit_order := tele_order; state_vector := v; Cirq.measurements := ms |}
  = inr None.
Proof.
  intros Hv HA HB HC. subst c.
  cbn [detect_entanglement QuantumTeleportation.class names].
  unfold QuantumTeleportation.detect_entanglement, detect_entanglement_tripartite.
  cbn [make_qubits map dict_values snd fst List.filter negb andb
         String.eqb Ascii.eqb Bool.eqb].
  rewrite (product_rounded_quantities _ _ _ _ 2 0 1 psiA psiB psiC);
    try reflexivity; try lia; try exact Hv.
  - cbn [Py.bind]. rewrite classify_cases, Reqb_refl. reflexivity.
  - rewrite HA, HB, HC. ring.
Qed.

Lemma tele_pair_detected (v : vector) (ms : gmap string (list Z)) (psi : ket) :
  v = pair_state 0 1 2 bell_pair psi -> norm2 psi = 1 ->
  detect_entanglement c (make_qubits (names c))
    {| qubit_order := tele_order; state_vector := v; Cirq.measurements := ms |}
  = inr (Some [Py.NamedQubit "alice"; Py.NamedQubit "bob"]).
Proof.
  intros Hv Hpsi. subst c.
  cbn [detect_entanglement QuantumTeleportation.class names].
  unfold QuantumTeleportation.detect_entanglement.
  cbn [make_qubits map dict_values snd fst List.filter negb andb
         String.eqb Ascii.eqb Bool.eqb].
  destruct (pair_detected bell_pair psi
              {| qubit_order := tele_order; state_vector := v;
                 Cirq.measurements := ms |}
              (Py.NamedQubit "msg") (Py.NamedQubit "alice") (Py.NamedQubit "bob")
              2 0 1 bell_pair_norm Hpsi eq_refl eq_refl eq_refl eq_refl)
    as (_ & H & _); [lia|lia|].
  rewrite (H Hv), bell_pair_verdict. reflexivity.
Qed.

End TeleportationDetections.

Lemma detect_all c (steps : list SparseSimulatorStep) :
  scenario c -> Forall (valid_step c) steps ->
  exists dets,
    Forall2 (fun s e => detect_entanglement c (make_qubits (names c)) s = inr e)
            steps dets.
Proof.
  intros Hc Hv. induction Hv as [|s steps Hs _ [dets IH]].
  - exists []. constructor.
  - destruct (scenario_detect_total c s Hc Hs) as [e He].
    exists (e :: dets). constructor; assumption.
Qed.

Lemma message_ket_T (what_gate : string) (phase : R) :
  String.eqb what_gate "X" = false ->
  message_ket what_gate phase = (RtoC 1, RtoC 0).
Proof.
  intros H. unfold message_ket, message_unitary. rewrite H. reflexivity.
Qed.

Section TeleportationSets.

Variables (what_gate : string) (phase : R) (samples : list bool).

Let c := QuantumTeleportation.class what_gate phase.
Let ab : gset Py.value := {[Py.NamedQubit "alice"; Py.NamedQubit "bob"]}.

Lemma tele_first_sets :
  exists self,
    init c samples = inr self
    /\ forall k ce,
        [∅; ∅; ab] !! k = Some ce ->
        exists s d, snd (step (after_steps k self)) = inr (s, d, ce).
Proof.
  pose proof (tele_init what_gate phase samples) as Hinit.
  match type of Hinit with _ = inr ?s => set (self := s) in * end.
  exists self. split; [exact Hinit|].
  destruct (init_running c samples (scenario_teleportation what_gate phase))
    as (self' & Hinit' & Hrun & _).
  subst c. rewrite Hinit in Hinit'. injection Hinit' as <-.
  set (c := QuantumTeleportation.class what_gate phase) in *.
  destruct (detect_all c (_sim_iter self) (scenario_teleportation what_gate phase))
    as [dets Hdets]; [apply Hrun|].
  pose proof (emitted_sets c (scenario_teleportation what_gate phase)
                (_sim_iter self) self dets Hrun eq_refl Hdets) as Hem.
  pose proof (message_ket_norm what_gate phase) as Hnorm.
  cbn [_sim_iter self] in Hdets. unfold tele_steps in Hdets.
  destruct (message_ket what_gate phase) as [al be] eqn:Eket.
  cbn [fst snd] in Hdets.
  apply Forall2_cons_inv_l in Hdets as (e0 & dets0 & H0 & Hdets & ->).
  apply Forall2_cons_inv_l in Hdets as (e1 & dets1 & H1 & Hdets & ->).
  apply Forall2_cons_inv_l in Hdets as (e2 & dets2 & H2 & Hdets & ->).
  rewrite (tele_product_quiet what_gate phase _ _ (al, be) ket0 ket0
             (tele_0_product al be) Hnorm norm2_ket0 norm2_ket0) in H0.
  rewrite (tele_product_quiet what_gate phase _ _ (al, be) (hadamard_ket false) ket0
             (tele_1_product al be) Hnorm (norm2_hadamard false) norm2_ket0) in H1.
  rewrite (tele_pair_detected what_gate phase _ _ (al, be)
             (tele_2_pair al be) Hnorm) in H2.
  injection H0 as <-. injection H1 as <-. injection H2 as <-.
  intros k ce Hk.
  destruct (lookup_lt_is_Some_2 (_sim_iter self) k) as [s Hs].
  { apply lookup_lt_Some in Hk. cbn in Hk |- *. lia. }
  destruct (lookup_lt_is_Some_2 (_desc self) k) as [d Hd].
  { apply lookup_lt_Some in Hk. cbn in Hk |- *. lia. }
  exists s, d. rewrite (Hem k s d Hs Hd).
  do 3 (destruct k as [|k]; [cbn in Hk; injection Hk as <-; vm_compute; reflexivity|]).
  discriminate Hk.
Qed.

Hypothesis T_gate : String.eqb what_gate "X" = false.

Lemma tele_T_sets :
  exists self,
    init c samples = inr self
    /\ forall k ce,
        [∅; ∅; ab; ab; ab; ab; ∅; ∅; ∅] !! k = Some ce ->
        exists s d, snd (step (after_steps k self)) = inr (s, d, ce).
Proof.
  pose proof (tele_init what_gate phase samples) as Hinit.
  match type of Hinit with _ = inr ?s => set (self := s) in * end.
  exists self. split; [exact Hinit|].
  destruct (init_running c samples (scenario_teleportation what_gate phase))
    as (self' & Hinit' & Hrun & _).
  subst c. rewrite Hinit in Hinit'. injection Hinit' as <-.
  set (c := QuantumTeleportation.class what_gate phase) in *.
  set (m := hd false samples) in *. set (a := hd false (tl samples)) in *.
  assert (Hdets :
            Forall2 (fun s e => detect_entanglement c (make_qubits (names c)) s = inr e)
                    (_sim_iter self)
                    [None; None;
                     Some [Py.NamedQubit "alice"; Py.NamedQubit "bob"];
                     Some [Py.NamedQubit "alice"; Py.NamedQubit "bob"];
                     Some [Py.NamedQubit "alice"; Py.NamedQubit "bob"];
                     Some [Py.NamedQubit "alice"; Py.NamedQubit "bob"];
                     None; None; None]).
  { cbn [_sim_iter self]. rewrite (message_ket_T what_gate phase T_gate).
    unfold tele_steps. cbn [fst snd].
    repeat apply List.Forall2_cons; try apply List.Forall2_nil.
    - eapply tele_product_quiet; [apply tele_0_product|..];
        auto using norm2_ket0.
    - eapply tele_product_quiet; [apply tele_1_product|..];
        auto using norm2_ket0, norm2_hadamard.
    - eapply tele_pair_detected; [apply tele_2_pair|]. apply norm2_ket0.
    - eapply tele_pair_detected; [apply tele_3_pair|]. apply norm2_ket0.
    - eapply tele_pair_detected; [apply tele_4_pair|]. apply norm2_hadamard.
    - eapply tele_pair_detected; [apply tele_5_pair|]. apply norm2_basis.
    - eapply tele_product_quiet; [apply tele_6_product|..]; auto using norm2_basis.
    - eapply tele_product_quiet; [apply tele_7_product|..];
        auto using norm2_basis, norm2_ket0.
    - eapply tele_product_quiet; [apply tele_8_product|..];
        auto using norm2_basis, norm2_ket0. }
  pose proof (emitted_sets c (scenario_teleportation what_gate phase)
                (_sim_iter self) self _ Hrun eq_refl Hdets) as Hem.
  intros k ce Hk.
  destruct (lookup_lt_is_Some_2 (_sim_iter self) k) as [s Hs].
  { apply lookup_lt_Some in Hk. cbn in Hk |- *. lia. }
  destruct (lookup_lt_is_Some_2 (_desc self) k) as [d Hd].
  { apply lookup_lt_Some in Hk. cbn in Hk |- *. lia. }
  exists s, d. rewrite (Hem k s d Hs Hd).
  do 9 (destruct k as [|k]; [cbn in Hk; injection Hk as <-; vm_compute; reflexivity|]).
  discriminate Hk.
Qed.

End TeleportationSets.

(** X19. In the teleportation scenario, whatever the gate, the phase and the
    sampled outcomes, the first two steps emit the empty entangled set and
    the third emits alice and bob.  With the T gate (any gate name other
    than "X") the nine steps emit {}, {}, {alice, bob} four times, then {}
    three times: the message qubit is never reported as entangled. *)
Theorem teleportation_entangled_sets
        (what_gate : string) (phase : R) (samples : list bool) :
  exists self,
    init (QuantumTeleportation.class what_gate phase) samples = inr self
    /\ let ab : gset Py.value := {[Py.NamedQubit "alice"; Py.NamedQubit "bob"]} in
       (forall k ce,
           [∅; ∅; ab] !! k = Some ce ->
           exists s d, snd (step (after_steps k self)) = inr (s, d, ce))
       /\ (String.eqb what_gate "X" = false ->
           forall k ce,
             [∅; ∅; ab; ab; ab; ab; ∅; ∅; ∅] !! k = Some ce ->
             exists s d, snd (step (after_steps k self)) = inr (s, d, ce)).
Proof.
  destruct (tele_first_sets what_gate phase samples) as (self & Hinit & H3).
  exists self. split; [exact Hinit|]. cbn zeta. split; [exact H3|].
  intros HT.
  destruct (tele_T_sets what_gate phase samples HT) as (self' & Hinit' & H9).
  rewrite Hinit in Hinit'. injection Hinit' as <-. exact H9.
Qed.

Lemma teleportation_entangled_sets_witness :
  exists self,
    init (QuantumTeleportation.class "T" 1) [true; true] = inr self
    /\ exists s d, snd (step (after_steps 6 self)) = inr (s, d, ∅).
Proof.
  destruct (teleportation_entangled_sets "T" 1 [true; true])
    as (self & Hinit & _ & H9).
  exists self. split; [exact Hinit|].
  apply (H9 eq_refl 6%nat). reflexivity.
Defined.

(** ** The state that is teleported *)

Lemma bloch_msg_T :
  bloch_at {| qubit_order := tele_order; state_vector := tele_0 (RtoC 1) (RtoC 0);
              Cirq.measurements := ∅ |} 2
  = [0; 0; 1].
Proof.
  unfold bloch_at. cbn [qubit_order state_vector length tele_order].
  ceval. unfold Cre, Cim, RtoC, Cplus, Cmult, Cminus, Cconj. cbn [fst snd].
  entries; ring.
Qed.

Lemma bloch_msg_X (phase : R) :
  let e := Cexp_i (PI * phase) in
  let al := (RtoC (1 / 2) * (RtoC 1 + e))%C in
  let be := (RtoC (1 / 2) * (RtoC 1 - e))%C in
  bloch_at {| qubit_order := tele_order; state_vector := tele_0 al be;
              Cirq.measurements := ∅ |} 2
  = [0; - sin (PI * phase); cos (PI * phase)].
Proof.
  cbn zeta. unfold bloch_at. cbn [qubit_order state_vector length tele_order].
  pose proof (sin2_cos2 (PI * phase)) as H. unfold Rsqr in H.
  ceval. unfold Cre, Cim, RtoC, Cplus, Cmult, Cminus, Cconj, Cexp_i. cbn [fst snd].
  revert H. generalize (sin (PI * phase)) (cos (PI * phase)). intros s c H.
  entries; nra.
Qed.

Lemma bloch_rest (al be : C) (k : nat) :
  norm2 (al, be) = 1 -> k = 0%nat \/ k = 1%nat ->
  bloch_at {| qubit_order := tele_order; state_vector := tele_0 al be;
              Cirq.measurements := ∅ |} k
  = [0; 0; 1].
Proof.
  intros H Hk. destruct al as [ar ai], be as [br bi].
  unfold norm2 in H. cbn [fst snd] in H.
  unfold bloch_at. cbn [qubit_order state_vector length tele_order].
  destruct Hk as [-> | ->]; ceval;
    unfold Cre, Cim, RtoC, Cplus, Cmult, Cminus, Cconj; cbn [fst snd];
    entries; nra.
Qed.

Lemma rint_near (y : R) : Rabs (IZR (rint y) - y) <= 1 / 2.
Proof.
  unfold rint. destruct (base_Int_part y) as [Hlo Hhi].
  set (f := Int_part y) in *.
  destruct (Rlt_dec (y - IZR f) (1 / 2)) as [H1|H1].
  - apply Rabs_le_iff. lra.
  - destruct (Rlt_dec (1 / 2) (y - IZR f)) as [H2|H2].
    + rewrite plus_IZR. apply Rabs_le_iff. lra.
    + destruct (Z.even f); [|rewrite plus_IZR]; apply Rabs_le_iff; lra.
Qed.

(** Rounding to 6 decimal places moves a value by half a unit of the sixth
    place at most, so by less than one unit. *)
Lemma round_near (x : R) : Rabs (Num.round x 6 - x) <= 1 / 1000000.
Proof.
  unfold Num.round. pose proof (rint_near (x * 10 ^ 6)) as H.
  apply Rabs_le_iff in H. apply Rabs_le_iff.
  assert (E : 10 ^ 6 = 1000000) by (simpl; ring).
  rewrite E in *. clear E.
  revert H. generalize (IZR (rint (x * 1000000))). intros z H.
  unfold Rdiv. split.
  - apply Rmult_le_reg_r with 1000000; [lra|].
    replace ((z * / 1000000 - x) * 1000000) with (z - x * 1000000) by (field; lra).
    lra.
  - apply Rmult_le_reg_r with 1000000; [lra|].
    replace ((z * / 1000000 - x) * 1000000) with (z - x * 1000000) by (field; lra).
    lra.
Qed.

Lemma around_near (v : list R) : recorded_near v (NumPy.around v 6).
Proof.
  unfold recorded_near, NumPy.around.
  induction v as [|x v IH]; [constructor|].
  cbn [map]. constructor; [apply round_near|exact IH].
Qed.

Lemma tele_first_bloch (what_gate : string) (phase : R) (samples : list bool) :
  exists self,
    init (QuantumTeleportation.class what_gate phase) samples = inr self
    /\ bloch_states (after_steps 1 self)
       = [[NumPy.around
             (if String.eqb what_gate "X"
              then [0; - sin (PI * phase); cos (PI * phase)]
              else [0; 0; 1]) 6;
           NumPy.around [0; 0; 1] 6; NumPy.around [0; 0; 1] 6]].
Proof.
  pose proof (tele_init what_gate phase samples) as Hinit.
  match type of Hinit with _ = inr ?s => set (self := s) in * end.
  exists self. split; [exact Hinit|].
  set (c := QuantumTeleportation.class what_gate phase) in *.
  destruct (init_running c samples (scenario_teleportation what_gate phase))
    as (self' & Hinit' & Hrun & _).
  rewrite Hinit in Hinit'. injection Hinit' as <-.
  pose proof (message_ket_norm what_gate phase) as Hnorm.
  assert (Hket : message_ket what_gate phase
                 = (fst (message_ket what_gate phase), snd (message_ket what_gate phase)))
    by reflexivity.
  set (al := fst (message_ket what_gate phase)) in *.
  set (be := snd (message_ket what_gate phase)) in *.
  rewrite Hket in Hnorm.
  set (s0 := {| qubit_order := tele_order; state_vector := tele_0 al be;
                Cirq.measurements := ∅ |}).
  destruct (running_step c self s0 (tail (_sim_iter self))
              (scenario_teleportation what_gate phase) Hrun eq_refl)
    as (d & ds & ce & _ & _ & _ & _ & _ & _ & bv & Hbv & Hbs).
  change (after_steps 1 self) with (fst (step self)). rewrite Hbs.
  cbn [bloch_states self app].
  assert (Ebv : bv = [NumPy.around (bloch_at s0 2) 6; NumPy.around (bloch_at s0 0) 6;
                      NumPy.around (bloch_at s0 1) 6]).
  { pose proof (bloch_vectors_of_three self s0 (Py.NamedQubit "msg")
                  (Py.NamedQubit "alice") (Py.NamedQubit "bob") 2 0 1
                  eq_refl eq_refl eq_refl eq_refl) as E.
    congruence. }
  clear Hbv. subst bv.
  unfold s0.
  rewrite (bloch_rest al be 0 Hnorm (or_introl eq_refl)),
    (bloch_rest al be 1 Hnorm (or_intror eq_refl)).
  do 3 f_equal. subst al be. unfold message_ket, message_unitary.
  destruct (String.eqb what_gate "X").
  - unfold XPow_unitary, entry. cbn [nth fst snd].
    rewrite bloch_msg_X. reflexivity.
  - unfold ZPow_unitary, entry. cbn [nth fst snd].
    rewrite bloch_msg_T. reflexivity.
Qed.

(** X20. The state that is teleported: after the first step the Bloch vector
    recorded for the message qubit lies, in each component, within one unit
    of the sixth decimal place of (0, -sin(pi phase), cos(pi phase)) with
    the X gate and of (0, 0, 1) with the T gate, whatever the phase; the
    vectors recorded for alice and bob lie as close to (0, 0, 1). *)
Theorem teleportation_message_vector
        (what_gate : string) (phase : R) (samples : list bool) :
  exists self (msg alice bob : list R),
    init (QuantumTeleportation.class what_gate phase) samples = inr self
    /\ bloch_states (after_steps 1 self) = [[msg; alice; bob]]
    /\ recorded_near (if String.eqb what_gate "X"
                      then [0; - sin (PI * phase); cos (PI * phase)]
                      else [0; 0; 1]) msg
    /\ recorded_near [0; 0; 1] alice
    /\ recorded_near [0; 0; 1] bob.
Proof.
  destruct (tele_first_bloch what_gate phase samples) as (self & Hinit & Hbs).
  exists self. do 3 eexists. split; [exact Hinit|]. split; [exact Hbs|].
  split; [|split]; apply around_near.
Qed.

(** ** The main window *)

Lemma main_window_invariant (presses : list MainWindow.button)
      (self : MainWindow.object) :
  MainWindow.child_window self <> MainWindow.QWidget ->
  let self' := fold_left MainWindow.released presses self in
  MainWindow.child_window self' <> MainWindow.QWidget
  /\ MainWindow.closed self' = MainWindow.closed self
  /\ length (MainWindow.shown self')
     = (length (MainWindow.shown self) + length presses)%nat
  /\ (presses <> [] ->
      last (MainWindow.shown self') = Some (MainWindow.child_window self')).
Proof.
  revert self. induction presses as [|b presses IH]; intros self Hne; cbn zeta.
  - cbn [fold_left length]. repeat split; try assumption; try lia. congruence.
  - cbn [fold_left length].
    assert (Hrun : forall cls,
               MainWindow.run cls self
               = {| MainWindow.child_window :=
                      MainWindow.Instance cls (MainWindow.created self);
                    MainWindow.closed := MainWindow.closed self;
                    MainWindow.shown :=
                      MainWindow.shown self
                      ++ [MainWindow.Instance cls (MainWindow.created self)];
                    MainWindow.created := S (MainWindow.created self) |}).
    { intros cls. unfold MainWindow.run, MainWindow.is_.
      rewrite bool_decide_eq_false_2 by exact Hne. reflexivity. }
    assert (Hrel : exists cls, MainWindow.released self b = MainWindow.run cls self)
      by (destruct b; eexists; reflexivity).
    destruct Hrel as [cls Hrel]. rewrite Hrel, Hrun.
    match goal with |- context [fold_left _ presses ?s] => set (self1 := s) end.
    destruct (IH self1) as (H1 & H2 & H3 & H4); [discriminate|].
    cbn zeta in H1, H2, H3, H4.
    split; [exact H1|]. split; [exact H2|]. split.
    + rewrite H3. unfold self1. cbn [MainWindow.shown]. rewrite length_app. cbn. lia.
    + intros _. destruct presses as [|b' presses'].
      * cbn [fold_left]. unfold self1. cbn [MainWindow.shown MainWindow.child_window].
        apply last_snoc.
      * apply H4. discriminate.
Qed.

(** X21. The main window never closes a child window: [child_window] is
    [None] or a window instance, never the class [QWidget] it is compared
    with by [is], so after any sequence of button presses [close()] has been
    called on nothing, every press has created and shown one new window,
    and [child_window] is the window shown last. *)
Theorem main_window_never_closes (presses : list MainWindow.button) :
  let self := fold_left MainWindow.released presses MainWindow.__init__ in
  MainWindow.closed self = []
  /\ length (MainWindow.shown self) = length presses
  /\ (presses <> [] ->
      last (MainWindow.shown self) = Some (MainWindow.child_window self)).
Proof.
  destruct (main_window_invariant presses MainWindow.__init__) as (_ & H2 & H3 & H4);
    [discriminate|].
  cbn zeta. auto.
Qed.

Lemma main_window_never_closes_witness :
  let self := fold_left MainWindow.released
                        [MainWindow.simple_button; MainWindow.deutsch_button]
                        MainWindow.__init__ in
  last (MainWindow.shown self) = Some (MainWindow.child_window self).
Proof.
  apply (main_window_never_closes
           [MainWindow.simple_button; MainWindow.deutsch_button]).
  discriminate.
Defined.

(** ** The order of the Schmidt coefficients *)

Lemma count_nonzero_Permutation (la lb : list R) (x : R) :
  la ≡ₚ lb ->
  count_nonzero (eq_scalar (NumPy.around la 6) x)
  = count_nonzero (eq_scalar (NumPy.around lb 6) x).
Proof.
  intros H. unfold count_nonzero, eq_scalar, NumPy.around.
  f_equal. apply Permutation_length.
  apply filter_Permutation. rewrite H. reflexivity.
Qed.

(** X22. The verdict of the bipartite witness depends on the multiset of the
    Schmidt coefficients only: two Schmidt routines whose coefficients for
    the state agree up to their order, whatever bases they return, give the
    same verdict. *)
Theorem bipartite_order_irrelevant
        (schmidt schmidt' : vector -> nat * nat -> list R * matrix * matrix)
        (result : SparseSimulatorStep) :
  fst (fst (schmidt (state_vector result) (2, 2)%nat))
  ≡ₚ fst (fst (schmidt' (state_vector result) (2, 2)%nat)) ->
  detect_entanglement_bipartite schmidt result
  = detect_entanglement_bipartite schmidt' result.
Proof.
  unfold detect_entanglement_bipartite.
  destruct (schmidt (state_vector result) (2, 2)%nat) as [[cs eg1] eg2].
  destruct (schmidt' (state_vector result) (2, 2)%nat) as [[cs' eg1'] eg2'].
  cbn [fst]. intros H.
  rewrite (count_nonzero_Permutation cs cs' 1 H),
    (count_nonzero_Permutation cs cs' 0 H).
  do 4 f_equal.
  change (Z.of_nat (length (NumPy.around cs 6))
          = Z.of_nat (length (NumPy.around cs' 6))).
  unfold NumPy.around. rewrite !length_map, H. reflexivity.
Qed.

Lemma bipartite_order_irrelevant_witness :
  detect_entanglement_bipartite product_schmidt zero_step2
  = detect_entanglement_bipartite (fun _ _ => ([0; 1], [], [])) zero_step2.
Proof.
  apply (bipartite_order_irrelevant product_schmidt (fun _ _ => ([0; 1], [], []))).
  cbn. apply Permutation_swap.
Defined.
